(** * graph-mcp: the credential lifecycle manager

    A shallow embedding of [EncryptionManager] and [AuthManager] (the
    authentication module of the Microsoft Graph MCP server) together with the
    constants of [config/config.js] they read, and the properties of the
    credential lifecycle stated over that embedding.

    Conventions of the embedding.
    - An [async] method is a computation in the monad [M]: it takes the state
      of the process and of its environment and gives back either a value or
      a thrown [JsError], with the state reached.  [await] is sequencing; what
      a method changed before it threw stays changed.
    - The environment ([World]) holds what the code observes through Node:
      the clock, the files, the machine identity, the random source, the
      replies of the authorization server, the lines written to the console
      and the calls started but not awaited.  The clock advances while a
      request is under way and during [setTimeout], not otherwise.
    - Values have the types the code gives them: a token set and a device
      authorization are records, times and lifetimes are integers (in [Z]),
      [null] is [None].  A string is the sequence of its UTF-8 bytes.
    - The numbers of the code are doubles.  The sum and the product of two
      whole numbers are exact as long as they are not beyond 2^53 in
      magnitude, and are rounded beyond ([Js.double], [Js.plus],
      [Js.times]).  The model computes in [Z]: it is the model of the runs
      in which the clock and the lifetimes stay in that range, as the clock
      of a machine does for the next 285000 years.
    - The primitives of Node that the code calls but does not define (PBKDF2,
      AES-256-GCM, [JSON.stringify] and [JSON.parse] of what is stored) are
      parameters, the classes [Crypto] and [JSON].
    - The callers of the manager are embedded after it: the methods of
      [ProfileTools], [EmailTools] and [CopilotTools] that need no calendar,
      in the monad [Tool.T] over the process, which adds to the state of the
      manager the replies the Graph API will give and the requests sent to
      it; and the script that looks for sensitive files before a push.
    - The file has two parts: the definitions (the embedding, then the
      functions and relations in which the statements are written, then
      sample primitives and states), and the facts. *)

From Stdlib Require Import ZArith NArith Ascii Lia.
From Stdlib.Strings Require Import Byte.
From Stdlib Require String.
From stdpp Require Import base option list gmap strings.

Local Open Scope Z_scope.

(* ===================================================================== *)
(** * JavaScript strings *)
(* ===================================================================== *)

Module Js.

(** [haystack.includes(needle)] *)
Fixpoint includes (needle hay : string) : bool :=
  String.prefix needle hay ||
  match hay with
  | EmptyString => false
  | String _ rest => includes needle rest
  end.

(** The double quote, as a one-character string. *)
Definition dq : string := String (ascii_of_nat 34) EmptyString.

(** Truthiness of an optional string: [undefined], [null] and the empty
    string are falsy. *)
Definition truthy (o : option string) : bool :=
  match o with
  | Some (String _ _) => true
  | _ => false
  end.

(** [a || b] on optional strings. *)
Definition or_else (a : option string) (b : option string) : option string :=
  if truthy a then a else b.

(** [a || b] where [b] is a string. *)
Definition or_str (a : option string) (b : string) : string :=
  match a with
  | Some (String c r) => String c r
  | _ => b
  end.

(** White space as JSON has it: space, tab, line feed, carriage return. *)
Definition is_space (c : ascii) : bool :=
  Ascii.eqb c " " || Ascii.eqb c (ascii_of_nat 9) || Ascii.eqb c (ascii_of_nat 10)
  || Ascii.eqb c (ascii_of_nat 13).

Fixpoint all_space (s : string) : bool :=
  match s with
  | EmptyString => true
  | String c rest => is_space c && all_space rest
  end.

(** The JSON texts that [JSON.parse] reads as [null]: the word, with white
    space around it. *)
Fixpoint is_null (text : string) : bool :=
  match text with
  | String "n" (String "u" (String "l" (String "l" rest))) => all_space rest
  | String c rest => is_space c && is_null rest
  | EmptyString => false
  end.

(** Decimal rendering of an integer number. *)
Fixpoint digits (fuel : nat) (n : N) (acc : string) : string :=
  match fuel with
  | O => acc
  | S fuel' =>
      let d := ascii_of_N (48 + n mod 10)%N in
      if (n <? 10)%N then String d acc
      else digits fuel' (n / 10)%N (String d acc)
  end.

Definition number (z : Z) : string :=
  match z with
  | Z0 => "0"
  | Zpos p => digits (S (Pos.size_nat p)) (Npos p) ""
  | Zneg p => "-" +:+ digits (S (Pos.size_nat p)) (Npos p) ""
  end.

(** [JSON.stringify] of a string: quoted, with the quote, the backslash and
    the control characters escaped. *)
Definition hex4 (n : N) : string :=
  let d k := if (k <? 10)%N then ascii_of_N (48 + k) else ascii_of_N (87 + k) in
  String "0" (String "0" (String (d (n / 16)%N) (String (d (n mod 16)%N) EmptyString))).

Definition escape_char (c : ascii) : string :=
  let n := N_of_ascii c in
  if (n =? 34)%N then String "\" dq
  else if (n =? 92)%N then "\\"
  else if (n =? 8)%N then "\b"
  else if (n =? 12)%N then "\f"
  else if (n =? 10)%N then "\n"
  else if (n =? 13)%N then "\r"
  else if (n =? 9)%N then "\t"
  else if (n <? 32)%N then "\u" +:+ hex4 n
  else String c EmptyString.

Fixpoint escape (s : string) : string :=
  match s with
  | EmptyString => EmptyString
  | String c rest => escape_char c +:+ escape rest
  end.

Definition quote (s : string) : string := dq +:+ escape s +:+ dq.

(** A key of an object literal, quoted; the keys used need no escaping. *)
Definition key (s : string) : string := dq +:+ s +:+ dq +:+ ":".


(** The double nearest to the whole number [z], the one with the even
    significand when two are as near (for a magnitude below 2^1024; beyond,
    the double is [Infinity]). *)
Definition double (z : Z) : Z :=
  let a := Z.abs z in
  if a <=? 2 ^ 53 then z
  else
    let e := Z.log2 a - 52 in
    let q := Z.shiftr a e in
    let r := a - Z.shiftl q e in
    let half := 2 ^ (e - 1) in
    let q' := if (half <? r) || ((r =? half) && Z.odd q) then q + 1 else q in
    Z.sgn z * Z.shiftl q' e.

(** [a + b] and [a * b] on doubles that are whole numbers: the exact result,
    rounded. *)
Definition plus (a b : Z) : Z := double (a + b).
Definition times (a b : Z) : Z := double (a * b).

End Js.

(* ===================================================================== *)
(** * Buffers and their hexadecimal encoding *)
(* ===================================================================== *)

Module Buffer.

Definition hex_digit (n : N) : ascii :=
  if (n <? 10)%N then ascii_of_N (48 + n) else ascii_of_N (87 + n).

Definition hex_value (c : ascii) : option N :=
  let n := N_of_ascii c in
  if ((48 <=? n) && (n <=? 57))%N then Some (n - 48)%N
  else if ((97 <=? n) && (n <=? 102))%N then Some (n - 87)%N
  else if ((65 <=? n) && (n <=? 70))%N then Some (n - 55)%N
  else None.

(** [buf.toString('hex')]: two lower-case digits per byte. *)
Fixpoint toString_hex (buf : list byte) : string :=
  match buf with
  | [] => EmptyString
  | b :: rest =>
      let n := Byte.to_N b in
      String (hex_digit (n / 16)) (String (hex_digit (n mod 16)) (toString_hex rest))
  end.

(** [Buffer.from(s, 'hex')]: decodes pairs of digits and stops at the first
    pair that is not hexadecimal; a trailing single character is dropped. *)
Fixpoint from_hex (s : string) : list byte :=
  match s with
  | String c1 (String c2 rest) =>
      match hex_value c1, hex_value c2 with
      | Some h, Some l =>
          match Byte.of_N (16 * h + l) with
          | Some b => b :: from_hex rest
          | None => []
          end
      | _, _ => []
      end
  | _ => []
  end.

(** [Buffer.from(s, 'utf8')] and [buf.toString('utf8')]: a string is kept as
    the sequence of its UTF-8 bytes. *)
Definition from_utf8 (s : string) : list byte := String.list_byte_of_string s.
Definition toString_utf8 (buf : list byte) : string := String.string_of_list_byte buf.

End Buffer.

(* ===================================================================== *)
(** * Errors, records and the environment *)
(* ===================================================================== *)

(** The body of an error reply of the authorization server,
    [error.response.data]. *)
Record ErrorData := {
  error : option string;
  error_description : option string;
}.

(** A JavaScript [Error] as the code inspects it: [message], the [code] that
    Node's file system errors carry, and the [response] that an axios error
    carries when the server replied.  [error.stack] is not modelled: where the
    code prints [error.stack || error.message] the message is printed. *)
Record JsError := {
  message : string;
  code : option string;
  response : option ErrorData;
}.

(** [new Error(msg)] *)
Definition Error (msg : string) : JsError :=
  {| message := msg; code := None; response := None |}.

(** [error.response?.data?.error] *)
Definition response_error (e : JsError) : option string :=
  match response e with
  | Some d => error d
  | None => None
  end.

(** [error.response?.data?.error_description] *)
Definition response_error_description (e : JsError) : option string :=
  match response e with
  | Some d => error_description d
  | None => None
  end.

(** [{ encrypted, iv, tag }], each a hexadecimal string.  A field is [None]
    when the object read back from a file has no such string field. *)
Record EncryptedData := {
  encrypted : option string;
  iv : option string;
  tag : option string;
}.

(** The data of a successful reply of the device-code endpoint. *)
Module DeviceCodeResponse.
Record t := {
  device_code : string;
  user_code : string;
  verification_uri : string;
  expires_in : Z;
  interval : Z;
}.
End DeviceCodeResponse.

(** [this.deviceCode] *)
Module DeviceCode.
Record t := {
  device_code : string;
  user_code : string;
  verification_uri : string;
  expires_in : Z;
  interval : Z;
}.
End DeviceCode.

(** The data of a successful reply of the token endpoint; the refresh token
    is optional. *)
Module TokenResponse.
Record t := {
  access_token : string;
  refresh_token : option string;
  expires_in : Z;
  token_type : string;
}.
End TokenResponse.

(** [this.tokens] *)
Module TokenSet.
Record t := {
  access_token : string;
  refresh_token : option string;
  expires_in : Z;
  expires_at : Z;
  token_type : string;
}.
End TokenSet.

(** What [authenticate] serializes into the message of the error it throws. *)
Module AuthInstructions.
Record t := {
  verification_uri : string;
  user_code : string;
  expires_in : Z;
}.
End AuthInstructions.

(** Outcome of an HTTP request made with axios: the promise resolves with the
    reply's data or rejects. *)
Inductive reply (A : Type) :=
| Resolve (data : A)
| Reject (e : JsError).
Arguments Resolve {A} data.
Arguments Reject {A} e.

(** The form-encoded grant posted to the token endpoint. *)
Inductive grant :=
| DeviceCodeGrant (device_code : string)
| RefreshTokenGrant (refresh_token : string).

(** The requests the manager sends. *)
Inductive request :=
| PostDeviceCode
| PostToken (g : grant).

(** An entry of the file system. *)
Inductive node :=
| File (content : string)
| Directory.

(** A line written by [console.log] (standard output) or by [console.error]
    and [process.stderr.write] (standard error). *)
Inductive line :=
| Stdout (text : string)
| Stderr (text : string).

(** An [async] call whose promise is dropped instead of awaited, as it
    stands once it has run up to the first [await] at which it has to wait:
    - [BackgroundPoll]: [pollForTokenInBackground], its poll waiting for the
      reply to its first request;
    - [BackgroundPollRejected e]: [pollForTokenInBackground], its poll
      having thrown [e] before it sent a request. *)
Inductive task :=
| BackgroundPoll
| BackgroundPollRejected (e : JsError).

(** The environment of the process.
    - [now]: what [Date.now()] returns, in milliseconds;
    - [files]: the file system, by path; a path not in the map does not exist;
    - [unreachable]: paths that are not in [files] and at which [readFile]
      fails for another reason than their not being there (a path that is
      too long for the platform, a directory on the way that may not be
      searched), with the error;
    - [unwritable]: paths at which [mkdir] and [writeFile] fail whatever the
      files are (no permission, no space), with the error;
    - [torn]: for a path at which [writeFile] fails only after it has opened
      the file (no space left, an error of the device), what is left in the
      file: [writeFile] opens with the flag ['w'], which empties the file,
      before it writes;
    - [machine]: the machine identity, [None] when it cannot be read;
    - [entropy]: the bytes [crypto.randomBytes] will deliver;
    - [device_endpoint], [token_endpoint]: the replies the two endpoints of the
      authorization server will give, in order, each with the time it takes;
    - [sent]: the requests sent so far, latest first;
    - [console]: the lines written so far, latest first;
    - [detached]: the calls started and not awaited, latest first, each as
      far as it has run at once. *)
Record World := {
  now : Z;
  files : gmap string node;
  unreachable : gmap string JsError;
  unwritable : gmap string JsError;
  torn : gmap string string;
  machine : option string;
  entropy : list byte;
  device_endpoint : list (Z * reply DeviceCodeResponse.t);
  token_endpoint : list (Z * reply TokenResponse.t);
  sent : list request;
  console : list line;
  detached : list task;
}.

Record EncryptionManager := {
  _machineKey : option (list byte);
}.

Record AuthManager := {
  encryptionManager : EncryptionManager;
  tokens : option TokenSet.t;
  deviceCode : option DeviceCode.t;
}.

(** A state: the environment and the one [AuthManager] of the process. *)
Record State := {
  world : World;
  self : AuthManager;
}.

(** [new AuthManager()] *)
Definition constructor : AuthManager :=
  {| encryptionManager := {| _machineKey := None |};
     tokens := None;
     deviceCode := None |}.

(** ** Field updates *)

Definition with_now (t : Z) (w : World) : World :=
  {| now := t; files := files w; unreachable := unreachable w;
     unwritable := unwritable w; torn := torn w; machine := machine w;
     entropy := entropy w; device_endpoint := device_endpoint w;
     token_endpoint := token_endpoint w; sent := sent w; console := console w;
     detached := detached w |}.

Definition with_files (f : gmap string node) (w : World) : World :=
  {| now := now w; files := f; unreachable := unreachable w;
     unwritable := unwritable w; torn := torn w; machine := machine w;
     entropy := entropy w; device_endpoint := device_endpoint w;
     token_endpoint := token_endpoint w; sent := sent w; console := console w;
     detached := detached w |}.

Definition with_entropy (e : list byte) (w : World) : World :=
  {| now := now w; files := files w; unreachable := unreachable w;
     unwritable := unwritable w; torn := torn w; machine := machine w;
     entropy := e; device_endpoint := device_endpoint w;
     token_endpoint := token_endpoint w; sent := sent w; console := console w;
     detached := detached w |}.

Definition with_device_endpoint (d : list (Z * reply DeviceCodeResponse.t)) (w : World) : World :=
  {| now := now w; files := files w; unreachable := unreachable w;
     unwritable := unwritable w; torn := torn w; machine := machine w;
     entropy := entropy w; device_endpoint := d;
     token_endpoint := token_endpoint w; sent := sent w; console := console w;
     detached := detached w |}.

Definition with_token_endpoint (d : list (Z * reply TokenResponse.t)) (w : World) : World :=
  {| now := now w; files := files w; unreachable := unreachable w;
     unwritable := unwritable w; torn := torn w; machine := machine w;
     entropy := entropy w; device_endpoint := device_endpoint w;
     token_endpoint := d; sent := sent w; console := console w;
     detached := detached w |}.

Definition with_sent (r : list request) (w : World) : World :=
  {| now := now w; files := files w; unreachable := unreachable w;
     unwritable := unwritable w; torn := torn w; machine := machine w;
     entropy := entropy w; device_endpoint := device_endpoint w;
     token_endpoint := token_endpoint w; sent := r; console := console w;
     detached := detached w |}.

Definition with_console (c : list line) (w : World) : World :=
  {| now := now w; files := files w; unreachable := unreachable w;
     unwritable := unwritable w; torn := torn w; machine := machine w;
     entropy := entropy w; device_endpoint := device_endpoint w;
     token_endpoint := token_endpoint w; sent := sent w; console := c;
     detached := detached w |}.

Definition with_detached (d : list task) (w : World) : World :=
  {| now := now w; files := files w; unreachable := unreachable w;
     unwritable := unwritable w; torn := torn w; machine := machine w;
     entropy := entropy w; device_endpoint := device_endpoint w;
     token_endpoint := token_endpoint w; sent := sent w; console := console w;
     detached := d |}.

Definition with_machineKey (k : option (list byte)) (a : AuthManager) : AuthManager :=
  {| encryptionManager := {| _machineKey := k |};
     tokens := tokens a; deviceCode := deviceCode a |}.

Definition with_tokens (t : option TokenSet.t) (a : AuthManager) : AuthManager :=
  {| encryptionManager := encryptionManager a; tokens := t; deviceCode := deviceCode a |}.

Definition with_deviceCode (d : option DeviceCode.t) (a : AuthManager) : AuthManager :=
  {| encryptionManager := encryptionManager a; tokens := tokens a; deviceCode := d |}.

Definition on_world (f : World -> World) (s : State) : State :=
  {| world := f (world s); self := self s |}.

Definition on_self (f : AuthManager -> AuthManager) (s : State) : State :=
  {| world := world s; self := f (self s) |}.

(* ===================================================================== *)
(** * The monad of asynchronous methods *)
(* ===================================================================== *)

(** How a call completes: it returns a value or throws. *)
Inductive completion (A : Type) :=
| Return (a : A)
| Throw (e : JsError).
Arguments Return {A} a.
Arguments Throw {A} e.

Definition M (A : Type) : Type := State -> completion A * State.

Definition ret {A} (a : A) : M A := fun s => (Return a, s).

Definition throw {A} (e : JsError) : M A := fun s => (Throw e, s).

Definition bind {A B} (m : M A) (k : A -> M B) : M B :=
  fun s =>
    match m s with
    | (Return a, s') => k a s'
    | (Throw e, s') => (Throw e, s')
    end.

(** [try { body } catch (error) { handler }]: the state changes made by the
    body before it threw are kept. *)
Definition try_catch {A} (body : M A) (handler : JsError -> M A) : M A :=
  fun s =>
    match body s with
    | (Return a, s') => (Return a, s')
    | (Throw e, s') => handler e s'
    end.

Definition get : M State := fun s => (Return s, s).

Definition modify (f : State -> State) : M unit := fun s => (Return tt, f s).

Declare Scope js_scope.
Delimit Scope js_scope with js.
Notation "x <- m ;; k" := (bind m (fun x => k))
  (at level 100, m at next level, right associativity) : js_scope.
Notation "m ;; k" := (bind m (fun _ => k))
  (at level 100, right associativity) : js_scope.
Local Open Scope js_scope.

(* ===================================================================== *)
(** * config/config.js *)
(* ===================================================================== *)

Module CONFIG.
(** The three paths are relative to the directory of the installation. *)
Definition DATA_DIR : string := "data".
Definition TOKEN_FILE : string := "data/tokens.enc".
Definition DEVICE_FILE : string := "data/device.enc".
(** Token expiration buffer (5 minutes) *)
Definition TOKEN_EXPIRY_BUFFER : Z := 5 * 60 * 1000.
(** Device code polling interval (5 seconds) *)
Definition DEVICE_CODE_POLL_INTERVAL : Z := 5000.
(** Maximum polling attempts *)
Definition MAX_POLL_ATTEMPTS : nat := 180.
End CONFIG.

(* ===================================================================== *)
(** * What the code calls in Node and axios *)
(* ===================================================================== *)

Module Node.

(** [Date.now()] *)
Definition Date_now : M Z := fun s => (Return (now (world s)), s).

(** [await new Promise(resolve => setTimeout(resolve, ms))] *)
Definition sleep (ms : Z) : M unit :=
  modify (on_world (fun w => with_now (now w + ms) w)).

Definition console_log (text : string) : M unit :=
  modify (on_world (fun w => with_console (Stdout text :: console w) w)).

Definition console_error (text : string) : M unit :=
  modify (on_world (fun w => with_console (Stderr text :: console w) w)).

(** [process.stderr.write(text)], the final newline left out. *)
Definition stderr_write (text : string) : M unit :=
  modify (on_world (fun w => with_console (Stderr text :: console w) w)).

Definition ENOENT (path : string) : JsError :=
  {| message := "ENOENT: no such file or directory, open '" +:+ path +:+ "'";
     code := Some "ENOENT"; response := None |}.

Definition EISDIR : JsError :=
  {| message := "EISDIR: illegal operation on a directory";
     code := Some "EISDIR"; response := None |}.

Definition EEXIST (path : string) : JsError :=
  {| message := "EEXIST: file already exists, mkdir '" +:+ path +:+ "'";
     code := Some "EEXIST"; response := None |}.

(** [fs.mkdir(path, { recursive: true })] *)
Definition mkdir (path : string) : M unit := fun s =>
  let w := world s in
  match unwritable w !! path with
  | Some e => (Throw e, s)
  | None =>
      match files w !! path with
      | Some (File _) => (Throw (EEXIST path), s)
      | Some Directory => (Return tt, s)
      | None => (Return tt, on_world (with_files (<[path := Directory]> (files w))) s)
      end
  end.

Definition ENOTDIR (path : string) : JsError :=
  {| message := "ENOTDIR: not a directory, open '" +:+ path +:+ "'";
     code := Some "ENOTDIR"; response := None |}.

(** What [fs] throws for a path with a null byte in it (the end of the
    message, which shows the path, is left out). *)
Definition ERR_INVALID_ARG_VALUE : JsError :=
  {| message := "The argument 'path' must be a string, Uint8Array, or URL without null bytes.";
     code := Some "ERR_INVALID_ARG_VALUE"; response := None |}.

(** The null byte, as a one-character string. *)
Definition NUL : string := String (ascii_of_nat 0) EmptyString.

(** Whether a file stands where a directory on the way to the path should
    be; [prefix] is the part of the path already passed and [rest] the part
    still to come. *)
Fixpoint on_a_file (fs : gmap string node) (prefix rest : string) : bool :=
  match rest with
  | EmptyString => false
  | String c rest' =>
      (Ascii.eqb c "/" &&
       match fs !! prefix with
       | Some (File _) => true
       | _ => false
       end)
      || on_a_file fs (prefix +:+ String c EmptyString) rest'
  end.

(** What [fs] answers for a path that is not in [files]: ENOENT, unless the
    path is not valid, cannot be reached, or runs over a file. *)
Definition absent (w : World) (path : string) : JsError :=
  if Js.includes NUL path then ERR_INVALID_ARG_VALUE
  else if on_a_file (files w) EmptyString path then ENOTDIR path
  else match unreachable w !! path with
       | Some e => e
       | None => ENOENT path
       end.

(** [fs.readFile(path, 'utf8')] *)
Definition readFile (path : string) : M string := fun s =>
  match files (world s) !! path with
  | None => (Throw (absent (world s) path), s)
  | Some Directory => (Throw EISDIR, s)
  | Some (File content) => (Return content, s)
  end.

(** The part of a path before its last separator, if it has one. *)
Fixpoint before_last_slash (path : string) : option string :=
  match path with
  | EmptyString => None
  | String c rest =>
      match before_last_slash rest with
      | Some d => Some (String c d)
      | None => if Ascii.eqb c "/" then Some EmptyString else None
      end
  end.

(** [path.dirname(path)] *)
Definition dirname (path : string) : string :=
  match before_last_slash path with
  | Some EmptyString => "/"
  | Some d => d
  | None => "."
  end.

(** The directory in which [path] lies is there; the current directory and
    the root always are. *)
Definition has_parent (w : World) (path : string) : bool :=
  let d := dirname path in
  if String.eqb d "." || String.eqb d "/" then true
  else match files w !! d with
       | Some Directory => true
       | _ => false
       end.

(** [fs.writeFile(path, content, 'utf8')].  The file is opened, which
    empties it, and then written: a failure that comes after the opening
    leaves in the file what [torn] says. *)
Definition writeFile (path : string) (content : string) : M unit := fun s =>
  let w := world s in
  match unwritable w !! path with
  | Some e =>
      match torn w !! path with
      | Some remains =>
          if has_parent w path then
            match files w !! path with
            | Some Directory => (Throw e, s)
            | _ => (Throw e, on_world (with_files (<[path := File remains]> (files w))) s)
            end
          else (Throw e, s)
      | None => (Throw e, s)
      end
  | None =>
      if has_parent w path then
        match files w !! path with
        | Some Directory => (Throw EISDIR, s)
        | _ => (Return tt, on_world (with_files (<[path := File content]> (files w))) s)
        end
      else (Throw (ENOENT path), s)
  end.

(** [machineId()] of node-machine-id *)
Definition machineId : M string := fun s =>
  match machine (world s) with
  | Some id => (Return id, s)
  | None => (Throw (Error "Unable to read the machine id"), s)
  end.

(** [crypto.randomBytes(n)]: the next [n] bytes of the random source (zeros
    once it is used up). *)
Definition randomBytes (n : nat) : M (list byte) := fun s =>
  let e := entropy (world s) in
  (Return (take n e ++ replicate (n - length e) x00),
   on_world (with_entropy (drop n e)) s).

(** The error of axios when no reply arrives. *)
Definition NetworkError : JsError :=
  {| message := "Network Error"; code := Some "ERR_NETWORK"; response := None |}.

Definition arrive {A} (delay : Z) (r : reply A) (s : State) : completion A * State :=
  let s' := on_world (fun w => with_now (now w + delay) w) s in
  match r with
  | Resolve data => (Return data, s')
  | Reject e => (Throw e, s')
  end.

(** [axios.post(CONFIG.DEVICE_CODE_URL(CONFIG.TENANT_ID), ...)] *)
Definition post_device_code : M DeviceCodeResponse.t := fun s =>
  let w := world s in
  let s1 := on_world (with_sent (PostDeviceCode :: sent w)) s in
  match device_endpoint w with
  | [] => (Throw NetworkError, s1)
  | (delay, r) :: rest => arrive delay r (on_world (with_device_endpoint rest) s1)
  end.

(** [axios.post(CONFIG.TOKEN_URL(CONFIG.TENANT_ID), ...)] *)
Definition post_token (g : grant) : M TokenResponse.t := fun s =>
  let w := world s in
  let s1 := on_world (with_sent (PostToken g :: sent w)) s in
  match token_endpoint w with
  | [] => (Throw NetworkError, s1)
  | (delay, r) :: rest => arrive delay r (on_world (with_token_endpoint rest) s1)
  end.

(** [axios.post] to the token endpoint in its two steps: the call, which sends
    the request, and the [await] of the reply.  [post_token g] is the one
    after the other. *)
Definition send_token (g : grant) : M unit :=
  modify (on_world (fun w => with_sent (PostToken g :: sent w) w)).

Definition await_token : M TokenResponse.t := fun s =>
  match token_endpoint (world s) with
  | [] => (Throw NetworkError, s)
  | (delay, r) :: rest => arrive delay r (on_world (with_token_endpoint rest) s)
  end.

(** What is left of an [async] call that is not awaited, once it has run up
    to the first [await] at which it has to wait, is recorded. *)
Definition detach (t : task) : M unit :=
  modify (on_world (fun w => with_detached (t :: detached w) w)).

(** What reading a property of [null] throws. *)
Definition TypeError (property : string) : JsError :=
  Error ("Cannot read properties of null (reading '" +:+ property +:+ "')").

End Node.

(* ===================================================================== *)
(** * Parameters: the cryptographic primitives and JSON *)
(* ===================================================================== *)

(** [pbkdf2Sync id] is [crypto.pbkdf2Sync(id, 'graph-mcp-salt', 100000, 32,
    'sha256')].  [gcm_encrypt key iv plaintext] is the ciphertext and the
    authentication tag that a cipher made by [crypto.createCipheriv
    ('aes-256-gcm', key, iv)] produces; [gcm_decrypt key iv tag ciphertext]
    is the plaintext that the decipher made by [createDecipheriv] with that
    tag set produces, [None] when [final] throws. *)
Class Crypto := {
  pbkdf2Sync : string -> list byte;
  gcm_encrypt : list byte -> list byte -> list byte -> list byte * list byte;
  gcm_decrypt : list byte -> list byte -> list byte -> list byte -> option (list byte);
}.

(** [JSON.stringify] and [JSON.parse] at the type of a stored value; [parse]
    is [None] where [JSON.parse] throws a [SyntaxError].  A text that
    [JSON.parse] reads as a value of another shape than the type's has no
    value in the typed model: for what is stored, [null] is added by
    [nullable], and the other such texts are set aside where they matter
    ([of_another_shape]). *)
Class JSON (A : Type) := {
  stringify : A -> string;
  parse : string -> option A;
}.

(** The message of the [SyntaxError] is not modelled. *)
Definition SyntaxError : JsError := Error "Unexpected token in JSON".

(** What [decipher.final()] throws when the tag does not verify. *)
Definition AuthTagError : JsError :=
  Error "Unsupported state or unable to authenticate data".

Import Node.

(** [this._machineKey = k] *)
Definition set_machineKey (k : option (list byte)) : M unit :=
  modify (on_self (with_machineKey k)).

(** [this.tokens = t] *)
Definition set_tokens (t : option TokenSet.t) : M unit :=
  modify (on_self (with_tokens t)).

(** [this.deviceCode = d] *)
Definition set_deviceCode (d : option DeviceCode.t) : M unit :=
  modify (on_self (with_deviceCode d)).

(* ===================================================================== *)
(** * class EncryptionManager *)
(* ===================================================================== *)

Section EncryptionManager.

Context {crypto : Crypto}.
Context {json_blob : JSON EncryptedData}.

Definition getMachineKey : M (list byte) :=
  s <- get ;;
  match _machineKey (encryptionManager (self s)) with
  | Some key => ret key
  | None =>
      try_catch
        (machineIdHash <- machineId ;;
         set_machineKey (Some (pbkdf2Sync machineIdHash)) ;;
         ret (pbkdf2Sync machineIdHash))
        (fun error =>
           throw (Error ("Failed to generate machine key: " +:+ message error)))
  end.

Definition encrypt {A} `{JSON A} (data : A) : M EncryptedData :=
  try_catch
    (key <- getMachineKey ;;
     iv <- randomBytes 16 ;;
     let '(encrypted, tag) :=
       gcm_encrypt key iv (Buffer.from_utf8 (stringify data)) in
     ret {| encrypted := Some (Buffer.toString_hex encrypted);
            iv := Some (Buffer.toString_hex iv);
            tag := Some (Buffer.toString_hex tag) |})
    (fun error =>
       stderr_write ("[ENCRYPTION ERROR] Failed to encrypt data: " +:+ message error) ;;
       stderr_write ("[ENCRYPTION ERROR] Data: " +:+ stringify data) ;;
       throw (Error ("Encryption failed: " +:+ message error))).

(** [Buffer.from(x, 'hex')] throws a [TypeError] when [x] is not a string. *)
Definition Buffer_from_hex (x : option string) : M (list byte) :=
  match x with
  | Some s => ret (Buffer.from_hex s)
  | None => throw (Error "The first argument must be of type string")
  end.

Definition decrypt {A} `{JSON A} (encryptedData : EncryptedData) : M A :=
  try_catch
    (key <- getMachineKey ;;
     iv <- Buffer_from_hex (iv encryptedData) ;;
     tag <- Buffer_from_hex (tag encryptedData) ;;
     encrypted <- Buffer_from_hex (encrypted encryptedData) ;;
     match gcm_decrypt key iv tag encrypted with
     | None => throw AuthTagError
     | Some decrypted =>
         match parse (Buffer.toString_utf8 decrypted) with
         | Some data => ret data
         | None => throw SyntaxError
         end
     end)
    (fun error =>
       stderr_write ("[DECRYPTION ERROR] Failed to decrypt data: " +:+ message error) ;;
       stderr_write ("[DECRYPTION ERROR] EncryptedData: " +:+ stringify encryptedData) ;;
       throw (Error ("Decryption failed: " +:+ message error))).

Definition saveEncryptedData {A} `{JSON A} (filePath : string) (data : A) : M unit :=
  try_catch
    (encryptedData <- encrypt data ;;
     writeFile filePath (stringify encryptedData))
    (fun error =>
       stderr_write ("[SAVE ERROR] Failed to save encrypted data to " +:+ filePath
                     +:+ ": " +:+ message error) ;;
       throw (Error ("Failed to save encrypted data: " +:+ message error))).

(** [JSON.parse(fileContent)] *)
Definition JSON_parse {A} `{JSON A} (text : string) : M A :=
  match parse text with
  | Some v => ret v
  | None => throw SyntaxError
  end.

(** [JSON.parse] where the value may be [null]: the value of the type when
    the text is one, [null] (here [None]) when the text is the JSON text
    [null], and a [SyntaxError] otherwise. *)
Definition nullable {A} `{JSON A} : JSON (option A) := {|
  stringify v :=
    match v with
    | Some a => stringify a
    | None => "null"
    end;
  parse text :=
    match parse text with
    | Some a => Some (Some a)
    | None => if Js.is_null text then Some None else None
    end;
|}.

(** The result is [None] for JavaScript's [null]: what [decrypt] returns is
    what [JSON.parse] gave, a value of the type or [null]. *)
Definition loadEncryptedData {A} `{JSON A} (filePath : string) : M (option A) :=
  try_catch
    (fileContent <- readFile filePath ;;
     encryptedData <- JSON_parse fileContent ;;
     decrypt (H:=nullable) encryptedData)
    (fun error =>
       if bool_decide (code error = Some "ENOENT") then
         ret None (* File doesn't exist *)
       else
         stderr_write ("[LOAD ERROR] Failed to load encrypted data from " +:+ filePath
                       +:+ ": " +:+ message error) ;;
         throw (Error ("Failed to load encrypted data: " +:+ message error))).

End EncryptionManager.

(** [validateMachineId] reads the machine identity anew at each call: the key
    that [getMachineKey] keeps is not consulted. *)
Definition validateMachineId (storedMachineId : string) : M bool :=
  try_catch
    (currentMachineId <- machineId ;;
     ret (String.eqb storedMachineId currentMachineId))
    (fun error =>
       throw (Error ("Machine ID validation failed: " +:+ message error))).

(* ===================================================================== *)
(** * class AuthManager *)
(* ===================================================================== *)

(** [JSON.stringify(authInstructions)] for
    [{ type: 'authentication_required',
       message: 'Microsoft Graph authentication required',
       instructions: { verification_uri, user_code, expires_in } }]. *)
Definition stringify_authInstructions (i : AuthInstructions.t) : string :=
  "{" +:+ Js.key "type" +:+ Js.quote "authentication_required" +:+ ","
  +:+ Js.key "message" +:+ Js.quote "Microsoft Graph authentication required" +:+ ","
  +:+ Js.key "instructions" +:+ "{"
  +:+ Js.key "verification_uri" +:+ Js.quote (AuthInstructions.verification_uri i) +:+ ","
  +:+ Js.key "user_code" +:+ Js.quote (AuthInstructions.user_code i) +:+ ","
  +:+ Js.key "expires_in" +:+ Js.number (AuthInstructions.expires_in i)
  +:+ "}}".

(** [error.response?.data?.error === name] *)
Definition error_is (e : JsError) (name : string) : bool :=
  bool_decide (response_error e = Some name).

(** How one turn of the polling loop ends: the method returns, or the loop
    goes on ([continue]). *)
Inductive turn :=
| Finished
| Continue.

Section AuthManager.

Context {crypto : Crypto}.
Context {json_blob : JSON EncryptedData}.
Context {json_tokens : JSON TokenSet.t}.
Context {json_device : JSON DeviceCode.t}.

Definition loadTokens : M unit :=
  try_catch
    (loaded <- loadEncryptedData CONFIG.TOKEN_FILE ;;
     set_tokens loaded ;;
     match loaded with
     | Some _ => console_log "Loaded existing tokens"
     | None => ret tt
     end)
    (fun error =>
       console_log "No existing tokens found or failed to load" ;;
       set_tokens None).

Definition loadDeviceCode : M unit :=
  try_catch
    (loaded <- loadEncryptedData CONFIG.DEVICE_FILE ;;
     set_deviceCode loaded ;;
     match loaded with
     | Some _ => console_log "Loaded existing device code"
     | None => ret tt
     end)
    (fun error =>
       console_log "No existing device code found or failed to load" ;;
       set_deviceCode None).

Definition initialize : M unit :=
  try_catch
    ((* Ensure data directory exists *)
     mkdir CONFIG.DATA_DIR ;;
     (* Load existing tokens if available *)
     loadTokens ;;
     (* Load device code info if available *)
     loadDeviceCode ;;
     console_log "AuthManager initialized successfully")
    (fun error =>
       console_error ("AuthManager initialization failed: " +:+ message error) ;;
       throw error).

Definition saveTokens : M unit :=
  s <- get ;;
  match tokens (self s) with
  | Some t => saveEncryptedData CONFIG.TOKEN_FILE t
  | None => ret tt
  end.

Definition saveDeviceCode : M unit :=
  s <- get ;;
  match deviceCode (self s) with
  | Some d => saveEncryptedData CONFIG.DEVICE_FILE d
  | None => ret tt
  end.

(** [this.deviceCode], a [TypeError] when a property of [null] is read. *)
Definition this_deviceCode (property : string) : M DeviceCode.t :=
  s <- get ;;
  match deviceCode (self s) with
  | Some d => ret d
  | None => throw (TypeError property)
  end.

(** [this.tokens], a [TypeError] when a property of [null] is read. *)
Definition this_tokens (property : string) : M TokenSet.t :=
  s <- get ;;
  match tokens (self s) with
  | Some t => ret t
  | None => throw (TypeError property)
  end.

(** The [try] of a turn of the [while] loop of [pollForToken], from the
    reply on. *)
Definition poll_granted (response : TokenResponse.t) : M turn :=
  (* Success! Save tokens *)
  issued <- Date_now ;;
  set_tokens (Some {|
    TokenSet.access_token := TokenResponse.access_token response;
    TokenSet.refresh_token := TokenResponse.refresh_token response;
    TokenSet.expires_in := TokenResponse.expires_in response;
    TokenSet.expires_at := issued + TokenResponse.expires_in response * 1000;
    TokenSet.token_type := TokenResponse.token_type response |}) ;;
  saveTokens ;;
  console_log "Authentication successful!" ;;
  ret Finished.

(** The [catch] of a turn. *)
Definition poll_refused (error : JsError) : M turn :=
  if error_is error "authorization_pending" then
    (* Still waiting for user authorization *)
    sleep CONFIG.DEVICE_CODE_POLL_INTERVAL ;;
    ret Continue
  else if error_is error "authorization_declined" then
    throw (Error "Authorization was declined by the user")
  else if error_is error "expired_token" then
    throw (Error "Device code expired. Please try again.")
  else
    throw (Error ("Token polling failed: "
                  +:+ Js.or_str (response_error_description error) (message error))).

(** One turn of the [while] loop of [pollForToken]: the body of its [try]
    and its [catch]. *)
Definition pollOnce : M turn :=
  try_catch
    (d <- this_deviceCode "device_code" ;;
     response <- post_token (DeviceCodeGrant (DeviceCode.device_code d)) ;;
     poll_granted response)
    poll_refused.

(** The [while (attempts < CONFIG.MAX_POLL_ATTEMPTS)] loop, by the number of
    attempts that remain: [CONFIG.MAX_POLL_ATTEMPTS - attempts]. *)
Fixpoint pollLoop (remaining : nat) : M unit :=
  match remaining with
  | O => throw (Error "Authentication timeout. Please try again.")
  | S remaining' =>
      t <- pollOnce ;;
      match t with
      | Finished => ret tt
      | Continue => pollLoop remaining'
      end
  end.

Definition pollForToken : M unit :=
  startTime <- Date_now ;;
  pollLoop CONFIG.MAX_POLL_ATTEMPTS.

Definition pollForTokenInBackground : M unit :=
  stderr_write "[POLL] Starting background token polling" ;;
  try_catch
    (pollForToken ;;
     stderr_write "[POLL] Background polling completed successfully")
    (fun error =>
       stderr_write ("[POLL ERROR] Background polling failed: " +:+ message error)).

(** [this.pollForTokenInBackground()] without [await].  The call runs at
    once up to the first [await] at which it has to wait: it writes its
    first line, enters [pollForToken] and its loop and sends the first
    request to the token endpoint.  What is left of it, from the [await] of
    the reply on, is recorded as detached and runs, as [run], when the event
    loop takes it up.  Where no device authorization is held the first turn
    throws before it sends anything, and what is left is the [catch] of
    [pollForTokenInBackground] for the error that the [catch] of
    [pollForToken] has made of the TypeError. *)
Definition start_pollForTokenInBackground : M unit :=
  stderr_write "[POLL] Starting background token polling" ;;
  startTime <- Date_now ;;
  s <- get ;;
  match deviceCode (self s) with
  | Some d =>
      send_token (DeviceCodeGrant (DeviceCode.device_code d)) ;;
      detach BackgroundPoll
  | None =>
      detach (BackgroundPollRejected
                (Error ("Token polling failed: " +:+ message (TypeError "device_code"))))
  end.

(** The first turn of the loop of [pollForToken] from the [await] of the
    reply on. *)
Definition pollOnce_resumed : M turn :=
  try_catch
    (response <- await_token ;;
     poll_granted response)
    poll_refused.

(** [pollForToken] from the [await] of the reply to its first request on. *)
Definition pollForToken_resumed : M unit :=
  t <- pollOnce_resumed ;;
  match t with
  | Finished => ret tt
  | Continue => pollLoop (CONFIG.MAX_POLL_ATTEMPTS - 1)
  end.

(** [pollForTokenInBackground] from that [await] on. *)
Definition pollForTokenInBackground_resumed : M unit :=
  try_catch
    (pollForToken_resumed ;;
     stderr_write "[POLL] Background polling completed successfully")
    (fun error =>
       stderr_write ("[POLL ERROR] Background polling failed: " +:+ message error)).

Definition authenticate : M unit :=
  stderr_write "[AUTH] Entered AuthManager.authenticate()" ;;
  try_catch
    ((* Get device code *)
     deviceCodeResponse <- post_device_code ;;
     set_deviceCode (Some {|
       DeviceCode.device_code := DeviceCodeResponse.device_code deviceCodeResponse;
       DeviceCode.user_code := DeviceCodeResponse.user_code deviceCodeResponse;
       DeviceCode.verification_uri := DeviceCodeResponse.verification_uri deviceCodeResponse;
       DeviceCode.expires_in := DeviceCodeResponse.expires_in deviceCodeResponse;
       DeviceCode.interval := DeviceCodeResponse.interval deviceCodeResponse |}) ;;
     saveDeviceCode ;;
     (* Return authentication instructions instead of logging *)
     d <- this_deviceCode "verification_uri" ;;
     let authInstructions := {|
       AuthInstructions.verification_uri := DeviceCode.verification_uri d;
       AuthInstructions.user_code := DeviceCode.user_code d;
       AuthInstructions.expires_in := DeviceCode.expires_in d |} in
     stderr_write "[AUTH] Returning authentication instructions from AuthManager.authenticate()" ;;
     (* Start polling for token in the background *)
     start_pollForTokenInBackground ;;
     throw (Error (stringify_authInstructions authInstructions)))
    (fun error =>
       stderr_write ("[AUTH ERROR] AuthManager.authenticate() failed: " +:+ message error) ;;
       (* If it's our authentication instruction error, re-throw it *)
       if Js.includes "authentication_required" (message error) then
         throw error
       else
         throw (Error ("Authentication failed: "
                       +:+ Js.or_str (response_error_description error) (message error)))).

Definition refreshAccessToken : M unit :=
  s <- get ;;
  match tokens (self s) with
  | Some {| TokenSet.refresh_token := Some (String c r) |} =>
      try_catch
        (response <- post_token (RefreshTokenGrant (String c r)) ;;
         held <- this_tokens "refresh_token" ;;
         issued <- Date_now ;;
         set_tokens (Some {|
           TokenSet.access_token := TokenResponse.access_token response;
           TokenSet.refresh_token :=
             Js.or_else (TokenResponse.refresh_token response) (TokenSet.refresh_token held);
           TokenSet.expires_in := TokenResponse.expires_in response;
           TokenSet.expires_at := issued + TokenResponse.expires_in response * 1000;
           TokenSet.token_type := TokenResponse.token_type response |}) ;;
         saveTokens ;;
         console_log "Token refreshed successfully")
        (fun error =>
           console_error ("Token refresh failed: " +:+ message error) ;;
           (* Clear tokens and require re-authentication *)
           set_tokens None ;;
           saveTokens ;;
           throw (Error "Token refresh failed. Please re-authenticate."))
  | _ => throw (Error "No refresh token available. Please re-authenticate.")
  end.

Definition getValidAccessToken : M string :=
  s <- get ;;
  match tokens (self s) with
  | None => authenticate
  | Some _ => ret tt
  end ;;
  (* Check if token is expired or about to expire *)
  now <- Date_now ;;
  held <- this_tokens "expires_at" ;;
  let expiresAt := TokenSet.expires_at held in
  (if now >=? expiresAt - CONFIG.TOKEN_EXPIRY_BUFFER then
     console_log "Token expired or about to expire, refreshing..." ;;
     refreshAccessToken
   else ret tt) ;;
  held' <- this_tokens "access_token" ;;
  ret (TokenSet.access_token held').

(** What the event loop does when it takes up a detached call. *)
Definition run (t : task) : M unit :=
  match t with
  | BackgroundPoll => pollForTokenInBackground_resumed
  | BackgroundPollRejected e =>
      stderr_write ("[POLL ERROR] Background polling failed: " +:+ message e)
  end.

End AuthManager.

(* ===================================================================== *)
(** * tools/email-tools.js: the callers *)
(* ===================================================================== *)

(** A value as [JSON.parse] gives it.  The numbers in the messages of
    [AuthManager] are integers. *)
Inductive json :=
| JNull
| JBool (b : bool)
| JNumber (z : Z)
| JString (s : string)
| JArray (items : list json)
| JObject (members : list (string * json)).

(** The members of an object are in the order of the text; where a name
    comes twice, [JSON.parse] keeps the later one. *)
Fixpoint member (name : string) (members : list (string * json)) : option json :=
  match members with
  | [] => None
  | (k, v) :: rest =>
      match member name rest with
      | Some later => Some later
      | None => if String.eqb k name then Some v else None
      end
  end.

(** [value.name] for one of the names the tools read ([message],
    [instructions]): [undefined] unless the value is an object that has the
    member; reading a property of [null] throws. *)
Definition property (value : json) (name : string) : M (option json) :=
  match value with
  | JNull => throw (Node.TypeError name)
  | JObject members => ret (member name members)
  | _ => ret None
  end.

(** The object a tool returns.  A property the object literal does not have,
    and one whose value is [undefined], is [None]. *)
Module ToolResult.
Record t := {
  success : bool;
  authentication_required : option bool;
  message : option json;
  instructions : option json;
  error : option string;
  details : option string;
  retryable : option bool;
  hasValidToken : option bool;
  data : option json;
}.
End ToolResult.

(** What [handleError] reads of the error it is given: [error.message],
    [error.response?.status] and [error.response?.data?.error?.message]. *)
Module ToolError.
Record t := {
  message : string;
  status : option Z;
  data_error_message : option string;
}.
End ToolError.

(** ** The Graph API *)

(** Truthiness of a value that may be [undefined]. *)
Definition truthy_value (v : option json) : bool :=
  match v with
  | None | Some JNull => false
  | Some (JBool b) => b
  | Some (JNumber z) => negb (z =? 0)
  | Some (JString s) => negb (String.eqb s EmptyString)
  | Some (JArray _) | Some (JObject _) => true
  end.

(** A value made a string, as inside a template literal.  A number is
    written in digits (its magnitude is below 10^21). *)
Fixpoint to_string (v : json) : string :=
  match v with
  | JNull => "null"
  | JBool true => "true"
  | JBool false => "false"
  | JNumber z => Js.number z
  | JString s => s
  | JArray items =>
      (fix join (l : list json) : string :=
         match l with
         | [] => EmptyString
         | x :: rest =>
             let text := match x with JNull => EmptyString | _ => to_string x end in
             match rest with
             | [] => text
             | _ => text +:+ "," +:+ join rest
             end
         end) items
  | JObject _ => "[object Object]"
  end.

(** Whether a value can be made a string.  An object read from JSON that
    has a member [toString] has no method of that name any more, and the
    conversion throws a TypeError; so does that of an array that holds such
    an object. *)
Fixpoint convertible (v : json) : bool :=
  match v with
  | JArray items => forallb convertible items
  | JObject members =>
      match member "toString" members with
      | Some _ => false
      | None => true
      end
  | _ => true
  end.

(** The text of a value that may be [undefined]. *)
Definition template_text (v : option json) : string :=
  match v with
  | Some value => to_string value
  | None => "undefined"
  end.

(** An object literal: a member whose value is [undefined] is left out, as
    [JSON.stringify] leaves it out. *)
Definition object (members : list (string * option json)) : json :=
  JObject (omap (fun m => match m.2 with Some v => Some (m.1, v) | None => None end) members).

Inductive method := GET | POST | PATCH.

(** A request to the Graph API: the method, the URL, the [Authorization]
    header, the query parameters and the body.  The [Content-Type] header is
    ['application/json'] in all of them. *)
Record GraphRequest := {
  request_method : method;
  url : string;
  authorization : string;
  params : list (string * string);
  body : option json;
}.

(** How a request to the Graph API ends: with the data of the reply or with
    an error of axios. *)
Inductive graph_reply :=
| Replied (data : json)
| Failed (e : ToolError.t).

(** The process with its tools: the manager and its environment, the
    replies the Graph API will give, in order, each with the time it takes,
    and the requests sent to it so far, latest first. *)
Record Process := {
  manager : State;
  graph_endpoint : list (Z * graph_reply);
  graph_sent : list GraphRequest;
}.

(** How a call of a tool completes: it returns, it throws, or it has not
    finished within the number of nested calls it was given. *)
Inductive outcome (A : Type) :=
| Returned (a : A)
| Thrown (e : ToolError.t)
| Unfinished.
Arguments Returned {A} a.
Arguments Thrown {A} e.
Arguments Unfinished {A}.

Module Tool.

Definition T (A : Type) : Type := Process -> outcome A * Process.

Definition ret {A} (a : A) : T A := fun p => (Returned a, p).

Definition throw {A} (e : ToolError.t) : T A := fun p => (Thrown e, p).

Definition unfinished {A} : T A := fun p => (Unfinished, p).

Definition bind {A B} (m : T A) (k : A -> T B) : T B :=
  fun p =>
    match m p with
    | (Returned a, p') => k a p'
    | (Thrown e, p') => (Thrown e, p')
    | (Unfinished, p') => (Unfinished, p')
    end.

Definition try_catch {A} (body : T A) (handler : ToolError.t -> T A) : T A :=
  fun p =>
    match body p with
    | (Returned a, p') => (Returned a, p')
    | (Thrown e, p') => handler e p'
    | (Unfinished, p') => (Unfinished, p')
    end.

(** [new Error(msg)] as the tools read it. *)
Definition Error (msg : string) : ToolError.t :=
  {| ToolError.message := msg; ToolError.status := None;
     ToolError.data_error_message := None |}.

End Tool.

Declare Scope tool_scope.
Delimit Scope tool_scope with tool.
Notation "x <- m ;; k" := (Tool.bind m (fun x => k))
  (at level 100, m at next level, right associativity) : tool_scope.
Notation "m ;; k" := (Tool.bind m (fun _ => k))
  (at level 100, right associativity) : tool_scope.

(** A value inside a template literal. *)
Definition template (v : option json) : Tool.T string :=
  match v with
  | Some value =>
      if convertible value then Tool.ret (to_string value)
      else Tool.throw (Tool.Error "Cannot convert object to primitive value")
  | None => Tool.ret "undefined"
  end.

(** The HTTP status of an error reply of the authorization server, which
    [ErrorData] does not record. *)
Class Http := {
  status_of : ErrorData -> option Z;
}.

(** An error thrown by [AuthManager] as the tools read it:
    [error.response?.data?.error] is a text there, so it has no [message]. *)
Definition of_JsError `{Http} (e : JsError) : ToolError.t :=
  {| ToolError.message := message e;
     ToolError.status := match response e with
                         | Some d => status_of d
                         | None => None
                         end;
     ToolError.data_error_message := None |}.

Definition with_manager (s : State) (p : Process) : Process :=
  {| manager := s; graph_endpoint := graph_endpoint p; graph_sent := graph_sent p |}.

(** [await] of a method of the manager, or of a call that only touches
    it. *)
Definition await `{Http} {A} (m : M A) : Tool.T A := fun p =>
  match m (manager p) with
  | (Return a, s) => (Returned a, with_manager s p)
  | (Throw e, s) => (Thrown (of_JsError e), with_manager s p)
  end.

(** The error of axios when no reply arrives. *)
Definition GraphNetworkError : ToolError.t := Tool.Error "Network Error".

(** [axios.get], [axios.post] and [axios.patch] to the Graph API. *)
Definition axios (r : GraphRequest) : Tool.T json := fun p =>
  match graph_endpoint p with
  | [] =>
      (Thrown GraphNetworkError,
       {| manager := manager p; graph_endpoint := [];
          graph_sent := r :: graph_sent p |})
  | (delay, reply) :: rest =>
      let p' :=
        {| manager := on_world (fun w => with_now (now w + delay) w) (manager p);
           graph_endpoint := rest;
           graph_sent := r :: graph_sent p |} in
      match reply with
      | Replied data => (Returned data, p')
      | Failed e => (Thrown e, p')
      end
  end.

Definition GRAPH_API_BASE : string := "https://graph.microsoft.com/v1.0".

Module ProfileTools.
Section ProfileTools.

Context {crypto : Crypto}.
Context {json_blob : JSON EncryptedData}.
Context {json_tokens : JSON TokenSet.t}.
Context {json_device : JSON DeviceCode.t}.
Context {json_value : JSON json}.

Definition checkAuthStatus : M ToolResult.t :=
  try_catch
    ((* Try to get a valid access token *)
     accessToken <- getValidAccessToken ;;
     if Js.truthy (Some accessToken) then
       ret {| ToolResult.success := true;
              ToolResult.authentication_required := None;
              ToolResult.message := Some (JString "Authentication is valid and ready to use.");
              ToolResult.instructions := None;
              ToolResult.error := None;
              ToolResult.details := None;
              ToolResult.retryable := None;
              ToolResult.hasValidToken := Some true;
              ToolResult.data := None |}
     else
       ret {| ToolResult.success := false;
              ToolResult.authentication_required := None;
              ToolResult.message := Some (JString "No valid authentication token found.");
              ToolResult.instructions := None;
              ToolResult.error := None;
              ToolResult.details := None;
              ToolResult.retryable := None;
              ToolResult.hasValidToken := Some false;
              ToolResult.data := None |})
    (fun error =>
       (* If we get an authentication error, try to start polling *)
       if Js.includes "authentication_required" (message error) then
         try_catch
           ((* Try to parse the authentication instructions *)
            authData <- JSON_parse (message error) ;;
            authData_message <- property authData "message" ;;
            authData_instructions <- property authData "instructions" ;;
            ret {| ToolResult.success := false;
                   ToolResult.authentication_required := Some true;
                   ToolResult.message := authData_message;
                   ToolResult.instructions := authData_instructions;
                   ToolResult.error := None;
                   ToolResult.details := None;
                   ToolResult.retryable := None;
                   ToolResult.hasValidToken := Some false;
                   ToolResult.data := None |})
           (fun parseError =>
              ret {| ToolResult.success := false;
                     ToolResult.authentication_required := None;
                     ToolResult.message := None;
                     ToolResult.instructions := None;
                     ToolResult.error := Some "Authentication failed";
                     ToolResult.details := Some (message error);
                     ToolResult.retryable := None;
                     ToolResult.hasValidToken := Some false;
                     ToolResult.data := None |})
       else
         ret {| ToolResult.success := false;
                ToolResult.authentication_required := None;
                ToolResult.message := None;
                ToolResult.instructions := None;
                ToolResult.error := Some "Authentication check failed";
                ToolResult.details := Some (message error);
                ToolResult.retryable := None;
                ToolResult.hasValidToken := Some false;
                ToolResult.data := None |}).

Definition authenticate : M ToolResult.t :=
  stderr_write "[TOOL] Entered ProfileTools.authenticate()" ;;
  try_catch
    (authenticate ;;
     stderr_write "[TOOL] AuthManager.authenticate() completed successfully" ;;
     ret {| ToolResult.success := true;
            ToolResult.authentication_required := None;
            ToolResult.message :=
              Some (JString "Authentication successful! You can now use other tools.");
            ToolResult.instructions := None;
            ToolResult.error := None;
            ToolResult.details := None;
            ToolResult.retryable := None;
            ToolResult.hasValidToken := None;
            ToolResult.data := None |})
    (fun error =>
       stderr_write ("[TOOL ERROR] ProfileTools.authenticate() failed: " +:+ message error) ;;
       (* Check if this is an authentication instruction error *)
       if Js.includes "authentication_required" (message error) then
         try_catch
           (authData <- JSON_parse (message error) ;;
            stderr_write
              "[TOOL] Returning authentication instructions from ProfileTools.authenticate()" ;;
            authData_message <- property authData "message" ;;
            authData_instructions <- property authData "instructions" ;;
            ret {| ToolResult.success := false;
                   ToolResult.authentication_required := Some true;
                   ToolResult.message := authData_message;
                   ToolResult.instructions := authData_instructions;
                   ToolResult.error := None;
                   ToolResult.details := None;
                   ToolResult.retryable := None;
                   ToolResult.hasValidToken := None;
                   ToolResult.data := None |})
           (fun parseError =>
              stderr_write ("[TOOL ERROR] Failed to parse authentication instructions: "
                            +:+ message parseError) ;;
              ret {| ToolResult.success := false;
                     ToolResult.authentication_required := None;
                     ToolResult.message := None;
                     ToolResult.instructions := None;
                     ToolResult.error := Some "Authentication failed";
                     ToolResult.details := Some (message error);
                     ToolResult.retryable := None;
                     ToolResult.hasValidToken := None;
                     ToolResult.data := None |})
       else
         ret {| ToolResult.success := false;
                ToolResult.authentication_required := None;
                ToolResult.message := None;
                ToolResult.instructions := None;
                ToolResult.error := Some "Authentication failed";
                ToolResult.details := Some (message error);
                ToolResult.retryable := None;
                ToolResult.hasValidToken := None;
                ToolResult.data := None |}).

Context {http : Http}.

(** [getMyProfile] calls itself after a refresh; [fuel] bounds the calls
    nested in one another. *)
Fixpoint getMyProfile (fuel : nat) : Tool.T ToolResult.t :=
  Tool.try_catch
    (accessToken <- await getValidAccessToken ;;
     response <- axios {|
       request_method := GET;
       url := GRAPH_API_BASE +:+ "/me";
       authorization := "Bearer " +:+ accessToken;
       params := [("$select",
                   "displayName,jobTitle,mail,mobilePhone,officeLocation,businessPhones,id")];
       body := None |} ;;
     Tool.ret {| ToolResult.success := true;
                 ToolResult.authentication_required := None;
                 ToolResult.message := None;
                 ToolResult.instructions := None;
                 ToolResult.error := None;
                 ToolResult.details := None;
                 ToolResult.retryable := None;
                 ToolResult.hasValidToken := None;
                 ToolResult.data := Some response |})%tool
    (fun error =>
       (await (console_error ("Get profile failed: " +:+ ToolError.message error)) ;;
        if bool_decide (ToolError.status error = Some 401) then
          (* Token might be invalid, try to refresh *)
          Tool.try_catch
            (await refreshAccessToken ;;
             match fuel with
             | O => Tool.unfinished
             | S fuel' => getMyProfile fuel' (* Retry once *)
             end)
            (fun refreshError =>
               Tool.ret {| ToolResult.success := false;
                           ToolResult.authentication_required := None;
                           ToolResult.message := None;
                           ToolResult.instructions := None;
                           ToolResult.error :=
                             Some "Authentication failed. Please re-authorize the application.";
                           ToolResult.details := Some (ToolError.message refreshError);
                           ToolResult.retryable := None;
                           ToolResult.hasValidToken := None;
                           ToolResult.data := None |})
        else
          Tool.ret {| ToolResult.success := false;
                      ToolResult.authentication_required := None;
                      ToolResult.message := None;
                      ToolResult.instructions := None;
                      ToolResult.error := Some "Failed to retrieve profile information";
                      ToolResult.details :=
                        Some (Js.or_str (ToolError.data_error_message error)
                                (ToolError.message error));
                      ToolResult.retryable := None;
                      ToolResult.hasValidToken := None;
                      ToolResult.data := None |})%tool).

End ProfileTools.
End ProfileTools.

Module EmailTools.
Section EmailTools.

Context {crypto : Crypto}.
Context {json_blob : JSON EncryptedData}.
Context {json_tokens : JSON TokenSet.t}.
Context {json_device : JSON DeviceCode.t}.

Definition handleError (operation : string) (error : ToolError.t) : M ToolResult.t :=
  console_error ("Email " +:+ operation +:+ " failed: " +:+ ToolError.message error) ;;
  if bool_decide (ToolError.status error = Some 401) then
    try_catch
      (refreshAccessToken ;;
       ret {| ToolResult.success := false;
              ToolResult.authentication_required := None;
              ToolResult.message := None;
              ToolResult.instructions := None;
              ToolResult.error := Some "Authentication refreshed. Please retry the operation.";
              ToolResult.details := None;
              ToolResult.retryable := Some true;
              ToolResult.hasValidToken := None;
              ToolResult.data := None |})
      (fun refreshError =>
         ret {| ToolResult.success := false;
                ToolResult.authentication_required := None;
                ToolResult.message := None;
                ToolResult.instructions := None;
                ToolResult.error :=
                  Some "Authentication failed. Please re-authorize the application.";
                ToolResult.details := Some (message refreshError);
                ToolResult.retryable := None;
                ToolResult.hasValidToken := None;
                ToolResult.data := None |})
  else
    ret {| ToolResult.success := false;
           ToolResult.authentication_required := None;
           ToolResult.message := None;
           ToolResult.instructions := None;
           ToolResult.error := Some ("Failed to " +:+ operation);
           ToolResult.details :=
             Some (Js.or_str (ToolError.data_error_message error) (ToolError.message error));
           ToolResult.retryable := None;
           ToolResult.hasValidToken := None;
           ToolResult.data := None |}.

Context {http : Http}.

Definition getEmail (messageId : option json) : Tool.T ToolResult.t :=
  Tool.try_catch
    ((if truthy_value messageId then Tool.ret tt
      else Tool.throw (Tool.Error "Message ID is required")) ;;
     accessToken <- await getValidAccessToken ;;
     id <- template messageId ;;
     response <- axios {|
       request_method := GET;
       url := GRAPH_API_BASE +:+ "/me/messages/" +:+ id;
       authorization := "Bearer " +:+ accessToken;
       params := [];
       body := None |} ;;
     Tool.ret {| ToolResult.success := true;
                 ToolResult.authentication_required := None;
                 ToolResult.message := None;
                 ToolResult.instructions := None;
                 ToolResult.error := None;
                 ToolResult.details := None;
                 ToolResult.retryable := None;
                 ToolResult.hasValidToken := None;
                 ToolResult.data := Some response |})%tool
    (fun error => await (handleError "get email" error)).

(** Create a draft reply to an email.  The three arguments are the
    properties of the object the method is given, [None] where the object
    has no such property. *)
Definition createReplyEmail (messageId body replyAll : option json)
    : Tool.T ToolResult.t :=
  let replyAll := match replyAll with None => Some (JBool false) | _ => replyAll end in
  Tool.try_catch
    ((if truthy_value messageId && truthy_value body then Tool.ret tt
      else Tool.throw (Tool.Error "messageId and body are required")) ;;
     accessToken <- await getValidAccessToken ;;
     (* Create draft reply using Microsoft Graph *)
     let endpoint := if truthy_value replyAll then "createReplyAll" else "createReply" in
     id <- template messageId ;;
     draftMessage <- axios {|
       request_method := POST;
       url := GRAPH_API_BASE +:+ "/me/messages/" +:+ id +:+ "/" +:+ endpoint;
       authorization := "Bearer " +:+ accessToken;
       params := [];
       body := Some (JObject []) |} ;;
     (* Update the draft with our reply body *)
     let updateBody :=
       object [("body", Some (object [("contentType", Some (JString "HTML"));
                                      ("content", body)]))] in
     draftMessage_id <- await (property draftMessage "id") ;;
     id' <- template draftMessage_id ;;
     updatedDraft <- axios {|
       request_method := PATCH;
       url := GRAPH_API_BASE +:+ "/me/messages/" +:+ id';
       authorization := "Bearer " +:+ accessToken;
       params := [];
       body := Some updateBody |} ;;
     draftId <- await (property draftMessage "id") ;;
     subject <- await (property draftMessage "subject") ;;
     createdDateTime <- await (property draftMessage "createdDateTime") ;;
     Tool.ret {| ToolResult.success := true;
                 ToolResult.authentication_required := None;
                 ToolResult.message :=
                   Some (JString ("Draft "
                                  +:+ (if truthy_value replyAll then "reply all" else "reply")
                                  +:+ " created successfully."));
                 ToolResult.instructions := None;
                 ToolResult.error := None;
                 ToolResult.details := None;
                 ToolResult.retryable := None;
                 ToolResult.hasValidToken := None;
                 ToolResult.data :=
                   Some (object [("draftId", draftId);
                                 ("subject", subject);
                                 ("createdDateTime", createdDateTime)]) |})%tool
    (fun error => await (handleError "create reply email" error)).

End EmailTools.
End EmailTools.

(* ===================================================================== *)
(** * tools/copilot-tools.js *)
(* ===================================================================== *)


Module CopilotTools.
Section CopilotTools.

Context {crypto : Crypto}.
Context {json_blob : JSON EncryptedData}.
Context {json_tokens : JSON TokenSet.t}.
Context {json_device : JSON DeviceCode.t}.
Context {http : Http}.

Definition handleError (operation : string) (error : ToolError.t) : ToolResult.t :=
  {| ToolResult.success := false;
     ToolResult.authentication_required := None;
     ToolResult.message := None;
     ToolResult.instructions := None;
     ToolResult.error := Some ("Failed to " +:+ operation);
     ToolResult.details :=
       Some (Js.or_str (ToolError.data_error_message error) (ToolError.message error));
     ToolResult.retryable := None;
     ToolResult.hasValidToken := None;
     ToolResult.data := None |}.



End CopilotTools.
End CopilotTools.

(* ===================================================================== *)
(** * The security check script *)
(* ===================================================================== *)

Module SecurityCheck.

(** What [fs.readdirSync(dir, { withFileTypes: true })] lists: files and
    directories by name, a directory with what listing it gives in turn.  A
    directory that cannot be listed makes [readdirSync] throw. *)
Inductive Dirent :=
| FileEntry (name : string)
| DirectoryEntry (name : string) (entries : list Dirent)
| UnreadableDirectory (name : string) (e : JsError).

Definition sensitivePatterns : list string := [
  "config/config.js";
  "data/";
  ".env";
  "*.key";
  "*.pem";
  "*.crt";
  "*.cert";
  "auth-tokens.json";
  "tokens.json";
  "credentials.json"
].

Definition sensitiveExtensions : list string :=
  [".key"; ".pem"; ".p12"; ".pfx"; ".crt"; ".cert"].

(** The state of the script: the lines written, latest first, and the
    variable [foundSensitiveFiles]. *)
Record Script := {
  output : list line;
  foundSensitiveFiles : bool;
}.

Definition log (text : string) (st : Script) : Script :=
  {| output := Stdout text :: output st; foundSensitiveFiles := foundSensitiveFiles st |}.

Definition log_error (text : string) (st : Script) : Script :=
  {| output := Stderr text :: output st; foundSensitiveFiles := foundSensitiveFiles st |}.

(** [foundSensitiveFiles = true] *)
Definition set_found (st : Script) : Script :=
  {| output := output st; foundSensitiveFiles := true |}.

Definition newline : string := String (ascii_of_nat 10) EmptyString.

(** [s.endsWith(suffix)] *)
Fixpoint endsWith (s suffix : string) : bool :=
  String.eqb s suffix ||
  match s with
  | EmptyString => false
  | String _ rest => endsWith rest suffix
  end.

(** [s.indexOf(needle)], [-1] when [needle] is not in [s]. *)
Fixpoint indexOf (needle s : string) : Z :=
  if String.prefix needle s then 0
  else match s with
       | EmptyString => -1
       | String _ rest =>
           let i := indexOf needle rest in
           if i <? 0 then -1 else i + 1
       end.

(** [s.substring(start)]: a negative [start] counts as [0]. *)
Definition substring (start : Z) (s : string) : string :=
  String.substring (Z.to_nat start) (String.length s - Z.to_nat start) s.

(** The platform the script runs on, which decides what [path] is:
    [path.posix], or [path.win32] when [process.platform] is ['win32']. *)
Inductive platform :=
| posix
| win32.

(** [path.sep] *)
Definition sep (os : platform) : string :=
  match os with
  | posix => "/"
  | win32 => "\"
  end.

(** [path.join(dir, name)], for a [dir] that is ["."] or was joined before
    and a [name] that [readdirSync] listed: the two with the separator of
    the platform between them, and [name] alone under ["."]. *)
Definition path_join (os : platform) (dir name : string) : string :=
  if String.eqb dir "." then name else dir +:+ sep os +:+ name.

(** The body of the loop over [sensitivePatterns]. *)
Definition checkPattern (name fullPath : string) (st : Script) (pattern : string) : Script :=
  if Js.includes "*" pattern then
    let ext := substring (indexOf "*" pattern) pattern in
    if endsWith name ext then
      set_found (log ("❌ Found sensitive file: " +:+ fullPath) st)
    else st
  else if Js.includes pattern fullPath then
    set_found (log ("❌ Found sensitive file: " +:+ fullPath) st)
  else st.

(** The body of the loop over [sensitiveExtensions]. *)
Definition checkExtension (name fullPath : string) (st : Script) (ext : string) : Script :=
  if endsWith name ext then
    set_found (log ("❌ Found file with sensitive extension: " +:+ fullPath) st)
  else st.

(** What [checkDirectory] does with an entry that is not a directory. *)
Definition checkFile (name fullPath : string) (st : Script) : Script :=
  (* Check for sensitive patterns *)
  let st1 := fold_left (checkPattern name fullPath) sensitivePatterns st in
  (* Check for sensitive extensions *)
  fold_left (checkExtension name fullPath) sensitiveExtensions st1.

Definition skipped (name : string) : bool :=
  String.eqb name "node_modules" || String.eqb name ".git".

(** The body of the loop of [checkDirectory(dir)], for the entry [file]; the
    recursive call [checkDirectory(fullPath)] is the inner loop. *)
Fixpoint checkEntry (os : platform) (dir : string) (file : Dirent) (st : Script)
    {struct file} : completion unit * Script :=
  match file with
  | FileEntry name => (Return tt, checkFile name (path_join os dir name) st)
  | DirectoryEntry name entries =>
      if skipped name then (Return tt, st)
      else
        (fix loop (files : list Dirent) (st : Script) : completion unit * Script :=
           match files with
           | [] => (Return tt, st)
           | file :: rest =>
               match checkEntry os (path_join os dir name) file st with
               | (Return _, st') => loop rest st'
               | (Throw e, st') => (Throw e, st')
               end
           end) entries st
  | UnreadableDirectory name e =>
      if skipped name then (Return tt, st) else (Throw e, st)
  end.

(** [checkDirectory(dir)], [files] being what [readdirSync(dir)] lists. *)
Fixpoint checkDirectory (os : platform) (dir : string) (files : list Dirent)
    (st : Script) : completion unit * Script :=
  match files with
  | [] => (Return tt, st)
  | file :: rest =>
      match checkEntry os dir file st with
      | (Return _, st') => checkDirectory os dir rest st'
      | (Throw e, st') => (Throw e, st')
      end
  end.

(** The script, run on the platform [os] where [readdirSync('.')] gives
    [root] ([inl e] when it throws [e]): the state it ends in and its exit
    status. *)
Definition main (os : platform) (root : JsError + list Dirent) : Script * Z :=
  let st0 :=
    log "Checking for sensitive files..."
      (log ("🔒 Security Check for Graph MCP Server" +:+ newline)
         {| output := []; foundSensitiveFiles := false |}) in
  let scanned :=
    match root with
    | inl e => (Throw e, st0)
    | inr files => checkDirectory os "." files st0
    end in
  match scanned with
  | (Return _, st) =>
      if negb (foundSensitiveFiles st) then
        (log "✅ Your repository is safe to commit and share." (log "✅ No sensitive files found!" st), 0)
      else
        (log "Consider adding them to .gitignore if they are needed locally."
           (log "Please remove these files before committing to GitHub."
              (log (newline +:+ "⚠️  WARNING: Sensitive files found!") st)), 1)
  | (Throw e, st) =>
      (log_error ("Error during security check: " +:+ message e) st, 1)
  end.

End SecurityCheck.

(* ===================================================================== *)
(** * What the stored files hold, as a function of the state *)
(* ===================================================================== *)

Section Stored.

Context {crypto : Crypto}.
Context {json_blob : JSON EncryptedData}.

(** The key [getMachineKey] yields in a state: the cached one, else the one
    derived from the machine identity. *)
Definition effective_key (s : State) : option (list byte) :=
  match _machineKey (encryptionManager (self s)) with
  | Some key => Some key
  | None => pbkdf2Sync <$> machine (world s)
  end.

(** The state once [getMachineKey] has cached [key]. *)
Definition cache (key : list byte) (s : State) : State :=
  on_self (with_machineKey (Some key)) s.

(** The state once [getMachineKey] has been tried. *)
Definition primed (s : State) : State :=
  match effective_key s with
  | Some key => cache key s
  | None => s
  end.

(** The state once the lines [ls] (latest first) have been written. *)
Definition logged (ls : list line) (s : State) : State :=
  on_world (fun w => with_console (ls ++ console w) w) s.

(** The value a blob decrypts to under a key, if any. *)
Definition unsealed {A} `{JSON A} (key : list byte) (blob : EncryptedData) : option A :=
  match iv blob, tag blob, encrypted blob with
  | Some i, Some t, Some e =>
      match gcm_decrypt key (Buffer.from_hex i) (Buffer.from_hex t) (Buffer.from_hex e) with
      | Some decrypted => parse (Buffer.toString_utf8 decrypted)
      | None => None
      end
  | _, _, _ => None
  end.

(** The value that the file at [path] holds for this process: [None] when
    there is no such file and when its content does not parse or decrypt. *)
Definition stored {A} `{JSON A} (s : State) (path : string) : option A :=
  match files (world s) !! path with
  | Some (File content) =>
      match parse content, effective_key s with
      | Some blob, Some key => unsealed key blob
      | _, _ => None
      end
  | _ => None
  end.




(** The file at [path] can be written with an encrypted value: a key is at
    hand, writing there does not fail, its directory is there and no
    directory is in its place. *)
Definition storable (s : State) (path : string) : Prop :=
  is_Some (effective_key s) /\
  unwritable (world s) !! path = None /\
  has_parent (world s) path = true /\
  files (world s) !! path <> Some Directory.

(** The blob [encrypt] produces for [data] in a state where the key is
    [key]. *)
Definition sealed {A} `{JSON A} (key : list byte) (s : State) (data : A) : EncryptedData :=
  let nonce := take 16 (entropy (world s))
               ++ replicate (16 - length (entropy (world s))) x00 in
  let '(c, t) := gcm_encrypt key nonce (Buffer.from_utf8 (stringify data)) in
  {| encrypted := Some (Buffer.toString_hex c);
     iv := Some (Buffer.toString_hex nonce);
     tag := Some (Buffer.toString_hex t) |}.

(** [frame paths s s']: from [s] to [s'] nothing has changed but the
    console, the random source, the cache of the key (the key itself is the
    same) and the files at [paths]. *)
Record frame (paths : list string) (s s' : State) : Prop := {
  frame_now : now (world s') = now (world s);
  frame_files : forall p, p ∉ paths -> files (world s') !! p = files (world s) !! p;
  frame_unwritable : unwritable (world s') = unwritable (world s);
  frame_machine : machine (world s') = machine (world s);
  frame_device_endpoint : device_endpoint (world s') = device_endpoint (world s);
  frame_token_endpoint : token_endpoint (world s') = token_endpoint (world s);
  frame_sent : sent (world s') = sent (world s);
  frame_detached : detached (world s') = detached (world s);
  frame_tokens : tokens (self s') = tokens (self s);
  frame_deviceCode : deviceCode (self s') = deviceCode (self s);
  frame_key : effective_key s' = effective_key s;
}.

(** The state once the request [r] has been sent and its reply has arrived
    after [delay] milliseconds, [rest] being the replies still to come from
    the token endpoint. *)
Definition received (r : request) (delay : Z)
    (rest : list (Z * reply TokenResponse.t)) (s : State) : State :=
  on_world (fun w =>
    with_now (now w + delay) (with_token_endpoint rest (with_sent (r :: sent w) w))) s.

(** The state once [data] has been encrypted under [key] and written at
    [path]. *)
Definition saved {A} `{JSON A} (key : list byte) (path : string) (data : A)
    (s : State) : State :=
  on_world (fun w =>
    with_files (<[path := File (stringify (sealed key s data))]> (files w))
      (with_entropy (drop 16 (entropy w)) w)) (cache key s).

End Stored.

(* ===================================================================== *)
(** * How the calls of AuthManager can go *)
(* ===================================================================== *)

(** The token set that the success path of [pollForToken] builds from the
    reply [r] when the clock reads [t].  The expiry is computed in [Z]; it is
    the number the code computes, [Js.plus t (Js.times expires_in 1000)],
    when [t], the lifetime in milliseconds and their sum are not beyond 2^53
    in magnitude ([expires_at_exact] below). *)
Definition issued_by_poll (r : TokenResponse.t) (t : Z) : TokenSet.t := {|
  TokenSet.access_token := TokenResponse.access_token r;
  TokenSet.refresh_token := TokenResponse.refresh_token r;
  TokenSet.expires_in := TokenResponse.expires_in r;
  TokenSet.expires_at := t + TokenResponse.expires_in r * 1000;
  TokenSet.token_type := TokenResponse.token_type r |}.

(** The token set that the success path of [refreshAccessToken] builds from
    the reply [r] when [held] is held and the clock reads [t], the expiry
    computed as in [issued_by_poll]. *)
Definition issued_by_refresh (held : TokenSet.t) (r : TokenResponse.t) (t : Z) : TokenSet.t := {|
  TokenSet.access_token := TokenResponse.access_token r;
  TokenSet.refresh_token :=
    Js.or_else (TokenResponse.refresh_token r) (TokenSet.refresh_token held);
  TokenSet.expires_in := TokenResponse.expires_in r;
  TokenSet.expires_at := t + TokenResponse.expires_in r * 1000;
  TokenSet.token_type := TokenResponse.token_type r |}.

(** The device authorization that [authenticate] builds from the reply. *)
Definition device_of (r : DeviceCodeResponse.t) : DeviceCode.t := {|
  DeviceCode.device_code := DeviceCodeResponse.device_code r;
  DeviceCode.user_code := DeviceCodeResponse.user_code r;
  DeviceCode.verification_uri := DeviceCodeResponse.verification_uri r;
  DeviceCode.expires_in := DeviceCodeResponse.expires_in r;
  DeviceCode.interval := DeviceCodeResponse.interval r |}.

(** The instructions that [authenticate] throws for the reply. *)
Definition instructions_of (r : DeviceCodeResponse.t) : AuthInstructions.t := {|
  AuthInstructions.verification_uri := DeviceCodeResponse.verification_uri r;
  AuthInstructions.user_code := DeviceCodeResponse.user_code r;
  AuthInstructions.expires_in := DeviceCodeResponse.expires_in r |}.

(** The error that the [catch] of [pollForToken] throws for the error
    [e] of a turn that is not "authorization_pending". *)
Definition poll_failure (e : JsError) : JsError :=
  if error_is e "authorization_declined" then
    Error "Authorization was declined by the user"
  else if error_is e "expired_token" then
    Error "Device code expired. Please try again."
  else
    Error ("Token polling failed: "
           +:+ Js.or_str (response_error_description e) (message e)).

(** A reply of the token endpoint that says "authorization_pending". *)
Definition is_pending (x : Z * reply TokenResponse.t) : bool :=
  match x.2 with
  | Reject e => error_is e "authorization_pending"
  | Resolve _ => false
  end.

(** The three errors with which [pollForToken] ends a flow that did not
    succeed. *)
Definition declined : JsError := Error "Authorization was declined by the user".
Definition expired : JsError := Error "Device code expired. Please try again.".
Definition timeout : JsError := Error "Authentication timeout. Please try again.".

Section Outcomes.

Context {crypto : Crypto}.
Context {json_blob : JSON EncryptedData}.
Context {json_tokens : JSON TokenSet.t}.
Context {json_device : JSON DeviceCode.t}.

(** Every way a turn of the polling loop can go. *)
Inductive pollOnce_outcome (s : State) : completion turn -> State -> Prop :=
| poll_no_device :
    deviceCode (self s) = None ->
    pollOnce_outcome s (Throw (poll_failure (TypeError "device_code"))) s
| poll_no_reply d :
    deviceCode (self s) = Some d ->
    token_endpoint (world s) = [] ->
    pollOnce_outcome s (Throw (poll_failure NetworkError))
      (on_world (fun w => with_sent
         (PostToken (DeviceCodeGrant (DeviceCode.device_code d)) :: sent w) w) s)
| poll_pending d delay e rest :
    deviceCode (self s) = Some d ->
    token_endpoint (world s) = (delay, Reject e) :: rest ->
    error_is e "authorization_pending" = true ->
    pollOnce_outcome s (Return Continue)
      (on_world (fun w => with_now (now w + CONFIG.DEVICE_CODE_POLL_INTERVAL) w)
         (received (PostToken (DeviceCodeGrant (DeviceCode.device_code d))) delay rest s))
| poll_rejected d delay e rest :
    deviceCode (self s) = Some d ->
    token_endpoint (world s) = (delay, Reject e) :: rest ->
    error_is e "authorization_pending" = false ->
    pollOnce_outcome s (Throw (poll_failure e))
      (received (PostToken (DeviceCodeGrant (DeviceCode.device_code d))) delay rest s)
| poll_issued d delay r rest key :
    deviceCode (self s) = Some d ->
    token_endpoint (world s) = (delay, Resolve r) :: rest ->
    effective_key s = Some key ->
    storable s CONFIG.TOKEN_FILE ->
    pollOnce_outcome s (Return Finished)
      (logged [Stdout "Authentication successful!"]
         (saved key CONFIG.TOKEN_FILE (issued_by_poll r (now (world s) + delay))
            (on_self (with_tokens (Some (issued_by_poll r (now (world s) + delay))))
               (received (PostToken (DeviceCodeGrant (DeviceCode.device_code d)))
                  delay rest s))))
| poll_unsaved d delay r rest m s2 :
    deviceCode (self s) = Some d ->
    token_endpoint (world s) = (delay, Resolve r) :: rest ->
    ~ storable s CONFIG.TOKEN_FILE ->
    frame [CONFIG.TOKEN_FILE]
      (on_self (with_tokens (Some (issued_by_poll r (now (world s) + delay))))
         (received (PostToken (DeviceCodeGrant (DeviceCode.device_code d))) delay rest s))
      s2 ->
    (torn (world s) !! CONFIG.TOKEN_FILE = None -> files (world s2) = files (world s)) ->
    pollOnce_outcome s
      (Throw (Error ("Token polling failed: Failed to save encrypted data: " +:+ m))) s2.

End Outcomes.

Section RefreshOutcomes.

Context {crypto : Crypto}.
Context {json_blob : JSON EncryptedData}.
Context {json_tokens : JSON TokenSet.t}.
Context {json_device : JSON DeviceCode.t}.

(** The error with which [refreshAccessToken] ends a refresh that failed. *)
Definition refresh_failed : JsError := Error "Token refresh failed. Please re-authenticate.".

(** The state in which the [catch] of [refreshAccessToken] leaves the manager
    when it caught [e] in state [s]. *)
Definition cleared (e : JsError) (s : State) : State :=
  on_self (with_tokens None) (logged [Stderr ("Token refresh failed: " +:+ message e)] s).

(** Every way a call of [refreshAccessToken] can go. *)
Inductive refresh_outcome (s : State) : completion unit -> State -> Prop :=
| refresh_no_token :
    (forall held, tokens (self s) = Some held ->
                  Js.truthy (TokenSet.refresh_token held) = false) ->
    refresh_outcome s
      (Throw (Error "No refresh token available. Please re-authenticate.")) s
| refresh_no_reply held rt :
    tokens (self s) = Some held ->
    TokenSet.refresh_token held = Some rt ->
    Js.truthy (Some rt) = true ->
    token_endpoint (world s) = [] ->
    refresh_outcome s (Throw refresh_failed)
      (cleared NetworkError
         (on_world (fun w => with_sent (PostToken (RefreshTokenGrant rt) :: sent w) w) s))
| refresh_rejected held rt delay e rest :
    tokens (self s) = Some held ->
    TokenSet.refresh_token held = Some rt ->
    Js.truthy (Some rt) = true ->
    token_endpoint (world s) = (delay, Reject e) :: rest ->
    refresh_outcome s (Throw refresh_failed)
      (cleared e (received (PostToken (RefreshTokenGrant rt)) delay rest s))
| refresh_issued held rt delay r rest key :
    tokens (self s) = Some held ->
    TokenSet.refresh_token held = Some rt ->
    Js.truthy (Some rt) = true ->
    token_endpoint (world s) = (delay, Resolve r) :: rest ->
    effective_key s = Some key ->
    storable s CONFIG.TOKEN_FILE ->
    refresh_outcome s (Return tt)
      (logged [Stdout "Token refreshed successfully"]
         (saved key CONFIG.TOKEN_FILE (issued_by_refresh held r (now (world s) + delay))
            (on_self (with_tokens (Some (issued_by_refresh held r (now (world s) + delay))))
               (received (PostToken (RefreshTokenGrant rt)) delay rest s))))
| refresh_unsaved held rt delay r rest m s2 :
    tokens (self s) = Some held ->
    TokenSet.refresh_token held = Some rt ->
    Js.truthy (Some rt) = true ->
    token_endpoint (world s) = (delay, Resolve r) :: rest ->
    ~ storable s CONFIG.TOKEN_FILE ->
    frame [CONFIG.TOKEN_FILE]
      (on_self (with_tokens (Some (issued_by_refresh held r (now (world s) + delay))))
         (received (PostToken (RefreshTokenGrant rt)) delay rest s))
      s2 ->
    (torn (world s) !! CONFIG.TOKEN_FILE = None -> files (world s2) = files (world s)) ->
    refresh_outcome s (Throw refresh_failed)
      (cleared (Error ("Failed to save encrypted data: " +:+ m)) s2).

End RefreshOutcomes.

(** The state once the device-code request has been sent and its reply has
    arrived after [delay] milliseconds, [rest] being the replies still to
    come from the device-code endpoint. *)
Definition device_received (delay : Z)
    (rest : list (Z * reply DeviceCodeResponse.t)) (s : State) : State :=
  on_world (fun w =>
    with_now (now w + delay)
      (with_device_endpoint rest (with_sent (PostDeviceCode :: sent w) w))) s.

(** The error that the [catch] of [authenticate] throws for the error [e]. *)
Definition auth_failure (e : JsError) : JsError :=
  if Js.includes "authentication_required" (message e) then e
  else Error ("Authentication failed: "
              +:+ Js.or_str (response_error_description e) (message e)).

(** The line that the [catch] of [authenticate] writes for the error [e]. *)
Definition auth_error_line (e : JsError) : line :=
  Stderr ("[AUTH ERROR] AuthManager.authenticate() failed: " +:+ message e).

(** The state in which [authenticate] starts its request. *)
Definition entered (s : State) : State :=
  logged [Stderr "[AUTH] Entered AuthManager.authenticate()"] s.

(** The state once the background poll has been started: its first line is
    written, its first request is sent, and what is left of it is
    detached. *)
Definition polling (d : DeviceCode.t) (s : State) : State :=
  on_world (fun w =>
    with_detached (BackgroundPoll :: detached w)
      (with_sent (PostToken (DeviceCodeGrant (DeviceCode.device_code d)) :: sent w) w))
    (logged [Stderr "[POLL] Starting background token polling"] s).

(** The state once [authenticate] has announced the instructions and
    started the background poll. *)
Definition launched (s : State) : State :=
  match deviceCode (self s) with
  | Some d =>
      polling d
        (logged [Stderr "[AUTH] Returning authentication instructions from AuthManager.authenticate()"] s)
  | None => s
  end.

(** What a call of [authenticate] that leads from [s] to [s'] has sent and
    started: the device-code request and no poll; or, when the device code
    has come and been saved, the device-code request and after it the first
    request of the background poll, which is left detached. *)
Definition flow_started (s s' : State) : Prop :=
  (sent (world s') = PostDeviceCode :: sent (world s) /\
   detached (world s') = detached (world s)) \/
  (exists d,
      deviceCode (self s') = Some d /\
      sent (world s')
      = PostToken (DeviceCodeGrant (DeviceCode.device_code d))
          :: PostDeviceCode :: sent (world s) /\
      detached (world s') = BackgroundPoll :: detached (world s)).

(* ===================================================================== *)
(** * Sample primitives and sample states *)
(* ===================================================================== *)

(** Stand-ins for the parameters, used where a statement is evaluated on a
    concrete state.  The cipher is not AES and the codec is not JSON: they are
    the simplest functions with the interface of the primitives. *)
Module Sample.

Fixpoint bytes_eqb (a b : list byte) : bool :=
  match a, b with
  | [], [] => true
  | x :: a', y :: b' => Byte.eqb x y && bytes_eqb a' b'
  | _, _ => false
  end.

#[export] Instance crypto : Crypto := {|
  pbkdf2Sync id := take 32 (Buffer.from_utf8 id ++ replicate 32 x00);
  gcm_encrypt key nonce plaintext := (rev plaintext, key ++ nonce);
  gcm_decrypt key nonce t ciphertext :=
    if bytes_eqb t (key ++ nonce) then Some (rev ciphertext) else None;
|}.

(** Fields are written in hexadecimal and separated by commas. *)
Fixpoint split (s : string) : list string :=
  match s with
  | EmptyString => [EmptyString]
  | String c rest =>
      if Ascii.eqb c "," then EmptyString :: split rest
      else match split rest with
           | h :: t => String c h :: t
           | [] => [String c EmptyString]
           end
  end.

Fixpoint join (fields : list string) : string :=
  match fields with
  | [] => EmptyString
  | [f] => f
  | f :: rest => f +:+ "," +:+ join rest
  end.

Definition pack (fields : list string) : string :=
  join (map (fun f => Buffer.toString_hex (Buffer.from_utf8 f)) fields).

Definition unhex (piece : string) : option string :=
  let bytes := Buffer.from_hex piece in
  if String.eqb (Buffer.toString_hex bytes) piece
  then Some (Buffer.toString_utf8 bytes) else None.

Definition unpack (s : string) : option (list string) :=
  mapM unhex (split s).

Fixpoint read_digits (s : string) (acc : N) : option N :=
  match s with
  | EmptyString => Some acc
  | String c rest =>
      let n := N_of_ascii c in
      if ((48 <=? n) && (n <=? 57))%N
      then read_digits rest (10 * acc + (n - 48))%N
      else None
  end.

Definition read_number (s : string) : option Z :=
  match s with
  | EmptyString => None
  | String "-" rest => (fun n => - Z.of_N n) <$> read_digits rest 0%N
  | _ => Z.of_N <$> read_digits s 0%N
  end.

Definition show_optional (o : option string) : string :=
  match o with
  | Some s => String "=" s
  | None => EmptyString
  end.

Definition read_optional (s : string) : option string :=
  match s with
  | String "=" rest => Some rest
  | _ => None
  end.

#[export] Instance json_blob : JSON EncryptedData := {|
  stringify b :=
    pack [show_optional (encrypted b); show_optional (iv b); show_optional (tag b)];
  parse s :=
    match unpack s with
    | Some [e; i; t] =>
        Some {| encrypted := read_optional e; iv := read_optional i;
                tag := read_optional t |}
    | _ => None
    end;
|}.

#[export] Instance json_tokens : JSON TokenSet.t := {|
  stringify t :=
    pack [TokenSet.access_token t; show_optional (TokenSet.refresh_token t);
          Js.number (TokenSet.expires_in t); Js.number (TokenSet.expires_at t);
          TokenSet.token_type t];
  parse s :=
    match unpack s with
    | Some [a; r; ei; ea; ty] =>
        match read_number ei, read_number ea with
        | Some ei', Some ea' =>
            Some {| TokenSet.access_token := a;
                    TokenSet.refresh_token := read_optional r;
                    TokenSet.expires_in := ei';
                    TokenSet.expires_at := ea';
                    TokenSet.token_type := ty |}
        | _, _ => None
        end
    | _ => None
    end;
|}.

#[export] Instance json_device : JSON DeviceCode.t := {|
  stringify d :=
    pack [DeviceCode.device_code d; DeviceCode.user_code d;
          DeviceCode.verification_uri d; Js.number (DeviceCode.expires_in d);
          Js.number (DeviceCode.interval d)];
  parse s :=
    match unpack s with
    | Some [dc; uc; uri; ei; iv] =>
        match read_number ei, read_number iv with
        | Some ei', Some iv' =>
            Some {| DeviceCode.device_code := dc;
                    DeviceCode.user_code := uc;
                    DeviceCode.verification_uri := uri;
                    DeviceCode.expires_in := ei';
                    DeviceCode.interval := iv' |}
        | _, _ => None
        end
    | _ => None
    end;
|}.

(** A payload that is a text, stored as it is. *)
Definition json_text : JSON string := {|
  stringify s := s;
  parse s := Some s;
|}.

(** A first run: nothing stored, nothing held, at time [1000000]. *)
Definition first_run : State := {|
  world := {|
    now := 1000000;
    files := ∅;
    unreachable := ∅;
    unwritable := ∅;
    torn := ∅;
    machine := Some "machine-0001";
    entropy := [];
    device_endpoint := [];
    token_endpoint := [];
    sent := [];
    console := [];
    detached := [];
  |};
  self := constructor;
|}.

Definition device_reply : DeviceCodeResponse.t := {|
  DeviceCodeResponse.device_code := "DEV-123";
  DeviceCodeResponse.user_code := "ABCD-EFGH";
  DeviceCodeResponse.verification_uri := "https://microsoft.com/devicelogin";
  DeviceCodeResponse.expires_in := 900;
  DeviceCodeResponse.interval := 5;
|}.

Definition held_device : DeviceCode.t := {|
  DeviceCode.device_code := "DEV-123";
  DeviceCode.user_code := "ABCD-EFGH";
  DeviceCode.verification_uri := "https://microsoft.com/devicelogin";
  DeviceCode.expires_in := 900;
  DeviceCode.interval := 5;
|}.

Definition token_reply : TokenResponse.t := {|
  TokenResponse.access_token := "access-2";
  TokenResponse.refresh_token := Some "refresh-2";
  TokenResponse.expires_in := 3600;
  TokenResponse.token_type := "Bearer";
|}.

(** A token set issued at time [0] for one hour. *)
Definition held_tokens : TokenSet.t := {|
  TokenSet.access_token := "access-1";
  TokenSet.refresh_token := Some "refresh-1";
  TokenSet.expires_in := 3600;
  TokenSet.expires_at := 3600000;
  TokenSet.token_type := "Bearer";
|}.

(** An error reply of the token endpoint with the given error code. *)
Definition refused (name : string) : JsError := {|
  message := "Request failed with status code 400";
  code := Some "ERR_BAD_REQUEST";
  response := Some {| error := Some name; error_description := None |};
|}.

Definition with_replies (d : list (Z * reply DeviceCodeResponse.t))
    (t : list (Z * reply TokenResponse.t)) (s : State) : State :=
  on_world (fun w => with_device_endpoint d (with_token_endpoint t w)) s.

Definition at_time (t : Z) (s : State) : State := on_world (with_now t) s.

Definition holding (t : option TokenSet.t) (d : option DeviceCode.t) (s : State) : State :=
  on_self (fun a => with_tokens t (with_deviceCode d a)) s.


(** The manager has been initialized on a first run: the data directory is
    there, nothing is held. *)
Definition started : State := (initialize first_run).2.

(** The device flow has been started: the device authorization is held and
    stored, the background poll is detached. *)
Definition awaiting : State :=
  (getValidAccessToken (with_replies [(200, Resolve device_reply)] [] started)).2.

(** The device flow is under way and the token endpoint will grant the
    token. *)
Definition granted : State :=
  with_replies [] [(300, Resolve token_reply)] awaiting.

(** The device flow is under way and the user will decline. *)
Definition declining : State :=
  with_replies [] [(300, Reject (refused "authorization_declined"))] awaiting.

(** The device flow is under way; the first request to the token endpoint
    will meet a transport error, the second would be granted. *)
Definition flaky : State :=
  with_replies [] [(100, Reject NetworkError); (100, Resolve token_reply)] awaiting.

(** The user has authorized: the poll has obtained a token set, which is
    held and stored. *)
Definition signed_in : State := (pollForToken granted).2.

(** Two hours later the token set has expired. *)
Definition expired_session : State := at_time 8200000 signed_in.

(** The process starts again on the same files. *)
Definition restarted (s : State) : State := on_self (fun _ => constructor) s.


(** A token set is held in memory and not stored yet. *)
Definition holding_tokens : State := holding (Some held_tokens) None started.

(** The device-code endpoint will reply to the first call. *)
Definition first_contact : State :=
  with_replies [(200, Resolve device_reply)] [] started.

(** A grant that carries no refresh token. *)
Definition refresh_reply : TokenResponse.t := {|
  TokenResponse.access_token := "access-3";
  TokenResponse.refresh_token := None;
  TokenResponse.expires_in := 3600;
  TokenResponse.token_type := "Bearer";
|}.

(** The token set has expired and the token endpoint will grant a refresh. *)
Definition refreshing : State :=
  with_replies [] [(150, Resolve refresh_reply)] expired_session.

(** The token set has expired and the token endpoint will refuse the refresh
    with "invalid_grant"; the device-code endpoint is there. *)
Definition refused_refresh : State :=
  with_replies [(200, Resolve device_reply)] [(100, Reject (refused "invalid_grant"))]
    expired_session.

End Sample.


(* ===================================================================== *)
(** * Further notions in which the statements are written *)
(* ===================================================================== *)

Section Runs.

Context {crypto : Crypto}.
Context {json_blob : JSON EncryptedData}.
Context {json_tokens : JSON TokenSet.t}.
Context {json_device : JSON DeviceCode.t}.

(** The state after [n] calls of [getValidAccessToken] in a row. *)
Fixpoint after_calls (n : nat) (s : State) : State :=
  match n with
  | O => s
  | S n' => after_calls n' (getValidAccessToken s).2
  end.

End Runs.

(** The time the replies take, all together. *)
Definition total_delay {A} (replies : list (Z * reply A)) : Z :=
  foldr (fun x acc => x.1 + acc) 0 replies.

(** The requests of a poll that asks [k] times for the device
    authorization held. *)
Definition poll_requests (k : nat) (s : State) : list request :=
  match deviceCode (self s) with
  | Some d => replicate k (PostToken (DeviceCodeGrant (DeviceCode.device_code d)))
  | None => []
  end.

(** The state in which a new process starts in the environment that [s]
    has left: a new [AuthManager], and none of the calls that were under
    way. *)
Definition new_process (s : State) : State :=
  {| world := with_detached [] (world s); self := constructor |}.

(** The line that [handleError] of [EmailTools] writes first. *)
Definition email_failure_line (operation : string) (error : ToolError.t) : line :=
  Stderr ("Email " +:+ operation +:+ " failed: " +:+ ToolError.message error).

Section ToolOutcomes.

Context {json_value : JSON json}.

(** What the [catch] of [checkAuthStatus] returns for the error [e]. *)
Definition status_of_failure (e : JsError) : M ToolResult.t :=
  if Js.includes "authentication_required" (message e) then
    try_catch
      (authData <- JSON_parse (message e) ;;
       authData_message <- property authData "message" ;;
       authData_instructions <- property authData "instructions" ;;
       ret {| ToolResult.success := false;
              ToolResult.authentication_required := Some true;
              ToolResult.message := authData_message;
              ToolResult.instructions := authData_instructions;
              ToolResult.error := None;
              ToolResult.details := None;
              ToolResult.retryable := None;
              ToolResult.hasValidToken := Some false;
              ToolResult.data := None |})
      (fun parseError =>
         ret {| ToolResult.success := false;
                ToolResult.authentication_required := None;
                ToolResult.message := None;
                ToolResult.instructions := None;
                ToolResult.error := Some "Authentication failed";
                ToolResult.details := Some (message e);
                ToolResult.retryable := None;
                ToolResult.hasValidToken := Some false;
                ToolResult.data := None |})
  else
    ret {| ToolResult.success := false;
           ToolResult.authentication_required := None;
           ToolResult.message := None;
           ToolResult.instructions := None;
           ToolResult.error := Some "Authentication check failed";
           ToolResult.details := Some (message e);
           ToolResult.retryable := None;
           ToolResult.hasValidToken := Some false;
           ToolResult.data := None |}.

(** What the [catch] of [authenticate] of [ProfileTools] does for the error
    [e], once it has written its first line. *)
Definition instructions_of_failure (e : JsError) : M ToolResult.t :=
  if Js.includes "authentication_required" (message e) then
    try_catch
      (authData <- JSON_parse (message e) ;;
       stderr_write
         "[TOOL] Returning authentication instructions from ProfileTools.authenticate()" ;;
       authData_message <- property authData "message" ;;
       authData_instructions <- property authData "instructions" ;;
       ret {| ToolResult.success := false;
              ToolResult.authentication_required := Some true;
              ToolResult.message := authData_message;
              ToolResult.instructions := authData_instructions;
              ToolResult.error := None;
              ToolResult.details := None;
              ToolResult.retryable := None;
              ToolResult.hasValidToken := None;
              ToolResult.data := None |})
      (fun parseError =>
         stderr_write ("[TOOL ERROR] Failed to parse authentication instructions: "
                       +:+ message parseError) ;;
         ret {| ToolResult.success := false;
                ToolResult.authentication_required := None;
                ToolResult.message := None;
                ToolResult.instructions := None;
                ToolResult.error := Some "Authentication failed";
                ToolResult.details := Some (message e);
                ToolResult.retryable := None;
                ToolResult.hasValidToken := None;
                ToolResult.data := None |})
  else
    ret {| ToolResult.success := false;
           ToolResult.authentication_required := None;
           ToolResult.message := None;
           ToolResult.instructions := None;
           ToolResult.error := Some "Authentication failed";
           ToolResult.details := Some (message e);
           ToolResult.retryable := None;
           ToolResult.hasValidToken := None;
           ToolResult.data := None |}.

End ToolOutcomes.

(** The members [message] and [instructions] of the value that the text of
    an error parses to, as the tools read them. *)
Definition authData_of (value : json) (name : string) : option json :=
  match value with
  | JObject members => member name members
  | _ => None
  end.

Module Verdict.
Import SecurityCheck.

(** The patterns of [sensitivePatterns] that have no asterisk. *)
Definition plainPatterns : list string := [
  "config/config.js";
  "data/";
  ".env";
  "auth-tokens.json";
  "tokens.json";
  "credentials.json"
].

(** A file counts as sensitive when its path contains a plain pattern or
    its name ends with a sensitive extension. *)
Definition sensitive (name fullPath : string) : bool :=
  existsb (fun pattern => Js.includes pattern fullPath) plainPatterns
  || existsb (endsWith name) sensitiveExtensions.

(** The plain patterns without a slash: those that can be found in a path
    of [path.win32]. *)
Definition slashlessPatterns : list string := [
  ".env";
  "auth-tokens.json";
  "tokens.json";
  "credentials.json"
].

(** [within os dir file d f]: on the platform [os], the scan of the entry
    [file] of the directory [dir] comes to the entry [f] of the directory
    [d]: [file] itself, or an entry below it that is not under
    [node_modules] or [.git]. *)
Inductive within (os : platform) : string -> Dirent -> string -> Dirent -> Prop :=
| within_self dir file : within os dir file dir file
| within_child dir name entries child d f :
    skipped name = false ->
    child ∈ entries ->
    within os (path_join os dir name) child d f ->
    within os dir (DirectoryEntry name entries) d f.

(** Nothing that the scan of [file] comes to is a sensitive file or a
    directory that cannot be listed. *)
Definition clean (os : platform) (dir : string) (file : Dirent) : Prop :=
  forall d f,
    within os dir file d f ->
    match f with
    | FileEntry name => sensitive name (path_join os d name) = false
    | DirectoryEntry _ _ => True
    | UnreadableDirectory name _ => skipped name = true
    end.

(** The scan went through and found nothing. *)
Definition passed (result : completion unit * Script) : Prop :=
  result.1 = Return tt /\ foundSensitiveFiles result.2 = false.

End Verdict.

(** The process once the request [r] has been sent to the Graph API and
    its reply has arrived after [delay] milliseconds, [rest] being the
    replies still to come. *)
Definition graph_received (r : GraphRequest) (delay : Z)
    (rest : list (Z * graph_reply)) (p : Process) : Process :=
  {| manager := on_world (fun w => with_now (now w + delay) w) (manager p);
     graph_endpoint := rest;
     graph_sent := r :: graph_sent p |}.

(** Whether a value that may be [undefined] can be made a string. *)
Definition can_be_text (v : option json) : bool :=
  match v with
  | Some value => convertible value
  | None => true
  end.

(** The request of [getEmail] for the message [messageId] with the access
    token [accessToken]. *)
Definition get_email_request (messageId : option json) (accessToken : string)
    : GraphRequest :=
  {| request_method := GET;
     url := GRAPH_API_BASE +:+ "/me/messages/" +:+ template_text messageId;
     authorization := "Bearer " +:+ accessToken;
     params := [];
     body := None |}.

(** The request of [getMyProfile] with the access token [accessToken]. *)
Definition profile_request (accessToken : string) : GraphRequest :=
  {| request_method := GET;
     url := GRAPH_API_BASE +:+ "/me";
     authorization := "Bearer " +:+ accessToken;
     params := [("$select",
                 "displayName,jobTitle,mail,mobilePhone,officeLocation,businessPhones,id")];
     body := None |}.

(** The result with which a tool reports that [operation] failed. *)
Definition failure (error : string) (details : string) : ToolResult.t :=
  {| ToolResult.success := false;
     ToolResult.authentication_required := None;
     ToolResult.message := None;
     ToolResult.instructions := None;
     ToolResult.error := Some error;
     ToolResult.details := Some details;
     ToolResult.retryable := None;
     ToolResult.hasValidToken := None;
     ToolResult.data := None |}.

(** The result with which a tool hands on the data of a reply. *)
Definition succeeded (data : json) : ToolResult.t :=
  {| ToolResult.success := true;
     ToolResult.authentication_required := None;
     ToolResult.message := None;
     ToolResult.instructions := None;
     ToolResult.error := None;
     ToolResult.details := None;
     ToolResult.retryable := None;
     ToolResult.hasValidToken := None;
     ToolResult.data := Some data |}.

(** A reply of the Graph API that says 401. *)
Definition is_unauthorized (x : Z * graph_reply) : bool :=
  match x.2 with
  | Failed e => bool_decide (ToolError.status e = Some 401)
  | Replied _ => false
  end.

(** A grant of the token endpoint whose lifetime is longer than the
    buffer. *)
Definition is_lasting_grant (x : Z * reply TokenResponse.t) : bool :=
  match x.2 with
  | Resolve r => CONFIG.TOKEN_EXPIRY_BUFFER <? TokenResponse.expires_in r * 1000
  | Reject _ => false
  end.
(** The request with which [createReplyEmail] has the draft made. *)
Definition create_reply_request (messageId replyAll : option json) (accessToken : string)
    : GraphRequest :=
  {| request_method := POST;
     url := GRAPH_API_BASE +:+ "/me/messages/" +:+ template_text messageId +:+ "/"
            +:+ (if truthy_value replyAll then "createReplyAll" else "createReply");
     authorization := "Bearer " +:+ accessToken;
     params := [];
     body := Some (JObject []) |}.

(** The [id] of a value that is not [null]. *)
Definition id_of (value : json) : option json :=
  match value with
  | JObject members => member "id" members
  | _ => None
  end.

(** The request with which [createReplyEmail] puts the text [content] into
    the draft [draftMessage]. *)
Definition update_draft_request (draftMessage : json) (content : option json)
    (accessToken : string) : GraphRequest :=
  {| request_method := PATCH;
     url := GRAPH_API_BASE +:+ "/me/messages/"
            +:+ template_text (id_of draftMessage);
     authorization := "Bearer " +:+ accessToken;
     params := [];
     body := Some (object [("body", Some (object [("contentType", Some (JString "HTML"));
                                                  ("content", content)]))]) |}.

(* ===================================================================== *)
(** * More sample primitives and sample states *)
(* ===================================================================== *)

Module Examples.

(** A stand-in for [JSON.stringify] and [JSON.parse] of values: texts
    without white space, strings with the escapes of the quote, the
    backslash and the slash only, whole numbers. *)
Fixpoint write_value (v : json) : string :=
  match v with
  | JNull => "null"
  | JBool true => "true"
  | JBool false => "false"
  | JNumber z => Js.number z
  | JString s => Js.quote s
  | JArray items =>
      "[" +:+
      (fix write_items (l : list json) : string :=
         match l with
         | [] => EmptyString
         | x :: rest =>
             match rest with
             | [] => write_value x
             | _ => write_value x +:+ "," +:+ write_items rest
             end
         end) items +:+ "]"
  | JObject members =>
      "{" +:+
      (fix write_members (l : list (string * json)) : string :=
         match l with
         | [] => EmptyString
         | (k, x) :: rest =>
             match rest with
             | [] => Js.key k +:+ write_value x
             | _ => Js.key k +:+ write_value x +:+ "," +:+ write_members rest
             end
         end) members +:+ "}"
  end.

(** The characters of a string after its opening quote, up to the closing
    quote, and what follows. *)
Fixpoint read_string (s : string) : option (string * string) :=
  match s with
  | EmptyString => None
  | String c rest =>
      if Ascii.eqb c (ascii_of_nat 34) then Some (EmptyString, rest)
      else if Ascii.eqb c "\" then
        match rest with
        | String e rest' =>
            if Ascii.eqb e (ascii_of_nat 34) || Ascii.eqb e "\" || Ascii.eqb e "/" then
              match read_string rest' with
              | Some (text, after) => Some (String e text, after)
              | None => None
              end
            else None
        | EmptyString => None
        end
      else
        match read_string rest with
        | Some (text, after) => Some (String c text, after)
        | None => None
        end
  end.

(** The digits a string starts with, as a number, and what follows. *)
Fixpoint read_natural (s : string) (acc : N) (seen : bool) : option (N * string) :=
  match s with
  | EmptyString => if seen then Some (acc, EmptyString) else None
  | String c rest =>
      let n := N_of_ascii c in
      if ((48 <=? n) && (n <=? 57))%N
      then read_natural rest (10 * acc + (n - 48))%N true
      else if seen then Some (acc, s) else None
  end.

Fixpoint read_value (fuel : nat) (s : string) : option (json * string) :=
  match fuel with
  | O => None
  | S fuel' =>
      match s with
      | EmptyString => None
      | String "{" (String "}" after) => Some (JObject [], after)
      | String "{" rest =>
          match read_members fuel' rest with
          | Some (members, after) => Some (JObject members, after)
          | None => None
          end
      | String "[" (String "]" after) => Some (JArray [], after)
      | String "[" rest =>
          match read_items fuel' rest with
          | Some (items, after) => Some (JArray items, after)
          | None => None
          end
      | String "n" (String "u" (String "l" (String "l" after))) => Some (JNull, after)
      | String "t" (String "r" (String "u" (String "e" after))) => Some (JBool true, after)
      | String "f" (String "a" (String "l" (String "s" (String "e" after)))) =>
          Some (JBool false, after)
      | String "-" rest =>
          match read_natural rest 0 false with
          | Some (n, after) => Some (JNumber (- Z.of_N n), after)
          | None => None
          end
      | String c rest =>
          if Ascii.eqb c (ascii_of_nat 34) then
            match read_string rest with
            | Some (text, after) => Some (JString text, after)
            | None => None
            end
          else
            match read_natural s 0 false with
            | Some (n, after) => Some (JNumber (Z.of_N n), after)
            | None => None
            end
      end
  end
with read_members (fuel : nat) (s : string) : option (list (string * json) * string) :=
  match fuel with
  | O => None
  | S fuel' =>
      match s with
      | String c rest =>
          if Ascii.eqb c (ascii_of_nat 34) then
            match read_string rest with
            | Some (k, String ":" after_colon) =>
                match read_value fuel' after_colon with
                | Some (v, String "," more) =>
                    match read_members fuel' more with
                    | Some (members, after) => Some ((k, v) :: members, after)
                    | None => None
                    end
                | Some (v, String "}" after) => Some ([(k, v)], after)
                | _ => None
                end
            | _ => None
            end
          else None
      | EmptyString => None
      end
  end
with read_items (fuel : nat) (s : string) : option (list json * string) :=
  match fuel with
  | O => None
  | S fuel' =>
      match read_value fuel' s with
      | Some (v, String "," more) =>
          match read_items fuel' more with
          | Some (items, after) => Some (v :: items, after)
          | None => None
          end
      | Some (v, String "]" after) => Some ([v], after)
      | _ => None
      end
  end.

Definition json_value : JSON json := {|
  stringify := write_value;
  parse s :=
    match read_value (S (String.length s)) s with
    | Some (v, EmptyString) => Some v
    | _ => None
    end;
|}.




(** What [fs] throws where writing is not permitted. *)
Definition EACCES : JsError :=
  {| message := "EACCES: permission denied"; code := Some "EACCES"; response := None |}.

(** Writing at [path] is not permitted. *)
Definition barred (path : string) (s : State) : State :=
  on_world (fun w =>
    {| now := now w; files := files w; unreachable := unreachable w;
       unwritable := <[path := EACCES]> (unwritable w); torn := torn w;
       machine := machine w; entropy := entropy w;
       device_endpoint := device_endpoint w; token_endpoint := token_endpoint w;
       sent := sent w; console := console w; detached := detached w |}) s.

Definition ENOSPC : JsError :=
  {| message := "ENOSPC: no space left on device"; code := Some "ENOSPC";
     response := None |}.

(** The disk is full: a write at [path] opens the file, which empties it,
    and then fails. *)
Definition disk_full (path : string) (s : State) : State :=
  on_world (fun w =>
    {| now := now w; files := files w; unreachable := unreachable w;
       unwritable := <[path := ENOSPC]> (unwritable w);
       torn := <[path := EmptyString]> (torn w);
       machine := machine w; entropy := entropy w;
       device_endpoint := device_endpoint w; token_endpoint := token_endpoint w;
       sent := sent w; console := console w; detached := detached w |}) s.

(** The machine identity cannot be read. *)
Definition anonymous (s : State) : State :=
  on_world (fun w =>
    {| now := now w; files := files w; unreachable := unreachable w;
       unwritable := unwritable w; torn := torn w;
       machine := None; entropy := entropy w;
       device_endpoint := device_endpoint w; token_endpoint := token_endpoint w;
       sent := sent w; console := console w; detached := detached w |}) s.

(** A first run on a machine whose identity cannot be read, a token set
    being held. *)
Definition unidentified : State :=
  anonymous (Sample.holding (Some Sample.held_tokens) None Sample.first_run).

(** A token set issued without a refresh token. *)
Definition bare_tokens : TokenSet.t := {|
  TokenSet.access_token := "access-1";
  TokenSet.refresh_token := None;
  TokenSet.expires_in := 3600;
  TokenSet.expires_at := 3600000;
  TokenSet.token_type := "Bearer";
|}.

(** It is held, and it has expired. *)
Definition unrefreshable : State :=
  Sample.at_time 8200000 (Sample.holding (Some bare_tokens) None Sample.started).

(** The device flow is under way and the user takes more than a quarter of
    an hour: every reply says "authorization_pending". *)
Definition patient : State :=
  Sample.with_replies []
    (replicate 180 (100, Reject (Sample.refused "authorization_pending")))
    Sample.awaiting.

(** The device flow is under way; the user has not authorized yet at the
    first request, the second meets a transport error, and the third would
    be granted. *)
Definition flaky_later : State :=
  Sample.with_replies []
    [(100, Reject (Sample.refused "authorization_pending"));
     (100, Reject NetworkError);
     (100, Resolve Sample.token_reply)]
    Sample.awaiting.

(** The token endpoint will grant the token, but the token file cannot be
    written. *)
Definition granted_unsaved : State := barred CONFIG.TOKEN_FILE Sample.granted.

(** The token endpoint will grant the refresh, but the token file cannot be
    written. *)
Definition refreshing_unsaved : State := barred CONFIG.TOKEN_FILE Sample.refreshing.

(** A grant whose lifetime is not longer than the buffer. *)
Definition brief_reply : TokenResponse.t := {|
  TokenResponse.access_token := "access-4";
  TokenResponse.refresh_token := Some "refresh-4";
  TokenResponse.expires_in := 120;
  TokenResponse.token_type := "Bearer";
|}.

(** The token set has expired and the token endpoint will grant a refresh
    for two minutes. *)
Definition refreshing_briefly : State :=
  Sample.with_replies [] [(150, Resolve brief_reply)] Sample.expired_session.

(** A first contact on which the user authorizes after one
    "authorization_pending". *)
Definition whole_flow : State :=
  Sample.with_replies [(200, Resolve Sample.device_reply)]
    [(100, Reject (Sample.refused "authorization_pending"));
     (300, Resolve Sample.token_reply)]
    Sample.started.

(** Errors of the Graph API as [handleError] reads them. *)
Definition unauthorized : ToolError.t := {|
  ToolError.message := "Request failed with status code 401";
  ToolError.status := Some 401;
  ToolError.data_error_message := Some "Access token has expired or is not yet valid.";
|}.

Definition not_found : ToolError.t := {|
  ToolError.message := "Request failed with status code 404";
  ToolError.status := Some 404;
  ToolError.data_error_message := Some "The specified object was not found in the store.";
|}.

(** A repository with sources, dependencies and nothing to hide. *)
Definition tidy : list SecurityCheck.Dirent := [
  SecurityCheck.FileEntry "README.md";
  SecurityCheck.FileEntry "package.json";
  SecurityCheck.DirectoryEntry "src" [
    SecurityCheck.FileEntry "index.js";
    SecurityCheck.DirectoryEntry "auth" [SecurityCheck.FileEntry "auth-manager.js"]
  ];
  SecurityCheck.DirectoryEntry "node_modules" [
    SecurityCheck.DirectoryEntry "left-pad" [SecurityCheck.FileEntry "server.key"]
  ]
].

(** The same with the configuration file, which holds the client id. *)
Definition configured : list SecurityCheck.Dirent :=
  SecurityCheck.DirectoryEntry "config" [SecurityCheck.FileEntry "config.js"] :: tidy.

(** The same with a private key among the sources. *)
Definition leaky : list SecurityCheck.Dirent :=
  SecurityCheck.DirectoryEntry "certs" [SecurityCheck.FileEntry "server.key"] :: tidy.

(** A stand-in for the status of an error reply of the authorization
    server: it refuses with 400. *)
Definition http : Http := {| status_of _ := Some 400 |}.

(** Replies of the Graph API: a profile and a draft. *)
Definition profile : json :=
  JObject [("displayName", JString "Ada Lovelace"); ("id", JString "user-1")].

Definition draft : json :=
  JObject [("id", JString "draft-1"); ("subject", JString "RE: Hello");
           ("createdDateTime", JString "2024-05-01T10:00:00Z")].

(** The process whose manager is in state [s], the Graph API having the
    replies [replies] in store. *)
Definition serving (replies : list (Z * graph_reply)) (s : State) : Process :=
  {| manager := s; graph_endpoint := replies; graph_sent := [] |}.

(** A token set is held; the Graph API rejects it and the token endpoint
    refuses the refresh. *)
Definition rejected : Process :=
  serving [(120, Failed unauthorized)]
    (Sample.with_replies [] [(100, Reject (Sample.refused "invalid_grant"))]
       Sample.holding_tokens).

(** A token set is held; the Graph API rejects it twice and then replies,
    and the token endpoint grants two refreshes. *)
Definition rejected_twice : Process :=
  serving [(120, Failed unauthorized); (120, Failed unauthorized); (80, Replied profile)]
    (Sample.with_replies []
       [(150, Resolve Sample.token_reply); (150, Resolve Sample.refresh_reply)]
       Sample.holding_tokens).

(** A token set is held; the Graph API makes the draft and does not find it
    afterwards. *)
Definition draft_lost : Process :=
  serving [(90, Replied draft); (70, Failed not_found)] Sample.holding_tokens.

(** A first contact. *)
Definition newcomer : Process := serving [] Sample.first_contact.

(** A field of the sample codec has no comma in it. *)
Fixpoint no_comma (s : string) : bool :=
  match s with
  | EmptyString => true
  | String c rest => negb (Ascii.eqb c ",") && no_comma rest
  end.

End Examples.

(* ===================================================================== *)
(** * Facts about strings and buffers *)
(* ===================================================================== *)

Module BufferFacts.

Lemma from_hex_byte (b : byte) (rest : string) :
  Buffer.from_hex
    (String (Buffer.hex_digit (Byte.to_N b / 16))
       (String (Buffer.hex_digit (Byte.to_N b mod 16)) rest))
  = b :: Buffer.from_hex rest.
Proof. destruct b; reflexivity. Qed.

Lemma from_hex_toString_hex (buf : list byte) :
  Buffer.from_hex (Buffer.toString_hex buf) = buf.
Proof.
  induction buf as [|b rest IH]; [reflexivity|].
  cbn [Buffer.toString_hex]. rewrite from_hex_byte. by rewrite IH.
Qed.

Lemma toString_utf8_from_utf8 (s : string) :
  Buffer.toString_utf8 (Buffer.from_utf8 s) = s.
Proof. apply String.string_of_list_byte_of_string. Qed.

End BufferFacts.

(** The message thrown by [authenticate] is recognized by its own [catch]. *)
Lemma authInstructions_recognized (i : AuthInstructions.t) :
  Js.includes "authentication_required" (stringify_authInstructions i) = true.
Proof.
  unfold stringify_authInstructions. reflexivity.
Qed.

(* ===================================================================== *)
(** * Facts about EncryptionManager *)
(* ===================================================================== *)

Section EncryptionManagerFacts.

Context {crypto : Crypto}.
Context {json_blob : JSON EncryptedData}.

Lemma frame_refl paths s : frame paths s s.
Proof. by constructor. Qed.

Lemma frame_trans paths s1 s2 s3 :
  frame paths s1 s2 -> frame paths s2 s3 -> frame paths s1 s3.
Proof.
  intros H12 H23. constructor;
    try (etransitivity; [eapply H23 | eapply H12]; fail).
  intros p Hp.
  rewrite (frame_files _ _ _ H23 _ Hp). exact (frame_files _ _ _ H12 _ Hp).
Qed.

Lemma frame_weaken paths paths' s s' :
  paths ⊆ paths' -> frame paths s s' -> frame paths' s s'.
Proof. intros Hsub Hfr. destruct Hfr. constructor; auto. Qed.

Lemma frame_same_files s s' : frame [] s s' -> files (world s') = files (world s).
Proof.
  intros Hfr. apply map_eq. intros p. apply (frame_files _ _ _ Hfr). set_solver.
Qed.

Lemma frame_stored {A} `{JSON A} paths s s' path :
  path ∉ paths -> frame paths s s' -> stored (A:=A) s' path = stored s path.
Proof.
  intros Hp Hfr. unfold stored.
  by rewrite (frame_files _ _ _ Hfr _ Hp), (frame_key _ _ _ Hfr).
Qed.

Lemma frame_cache paths s key : effective_key s = Some key -> frame paths s (cache key s).
Proof. intros Hk. constructor; try reflexivity. by rewrite Hk. Qed.

Lemma frame_primed paths s : frame paths s (primed s).
Proof.
  unfold primed. destruct (effective_key s) eqn:Hk;
    [by apply frame_cache | apply frame_refl].
Qed.

Lemma frame_logged paths ls s : frame paths s (logged ls s).
Proof. by constructor. Qed.

Lemma frame_saved {A} `{JSON A} key path (data : A) s :
  effective_key s = Some key -> frame [path] s (saved key path data s).
Proof.
  intros Hk. constructor; try reflexivity.
  - intros p Hp. simpl. apply lookup_insert_ne. set_solver.
  - by rewrite Hk.
Qed.

Lemma getMachineKey_ok s key :
  effective_key s = Some key ->
  getMachineKey s = (Return key, cache key s).
Proof.
  destruct s as [w [[k] t d]]. unfold effective_key, getMachineKey, cache. simpl.
  destruct k as [k|]; simpl.
  - intros [= ->]. reflexivity.
  - unfold bind, try_catch, machineId. simpl. destruct (machine w); simpl; [|done].
    intros [= <-]. reflexivity.
Qed.

Lemma getMachineKey_fail s :
  effective_key s = None ->
  getMachineKey s =
    (Throw (Error "Failed to generate machine key: Unable to read the machine id"), s).
Proof.
  destruct s as [w [[k] t d]]. unfold effective_key, getMachineKey. simpl.
  destruct k as [k|]; simpl; [done|].
  unfold bind, try_catch, machineId. simpl. destruct (machine w); simpl; [done|].
  reflexivity.
Qed.

Lemma encrypt_ok {A} `{JSON A} s key (data : A) :
  effective_key s = Some key ->
  encrypt data s =
    (Return (sealed key s data),
     on_world (fun w => with_entropy (drop 16 (entropy w)) w) (cache key s)).
Proof.
  intros Hk. unfold encrypt, try_catch, bind at 1.
  rewrite (getMachineKey_ok _ _ Hk). unfold bind, randomBytes, sealed. simpl.
  destruct (gcm_encrypt _ _ _). reflexivity.
Qed.

Lemma encrypt_fail {A} `{JSON A} s (data : A) :
  effective_key s = None ->
  exists m ls, encrypt data s = (Throw (Error ("Encryption failed: " +:+ m)), logged ls s).
Proof.
  intros Hk. unfold encrypt, try_catch, bind at 1.
  rewrite (getMachineKey_fail _ Hk). eexists _, [_; _]. reflexivity.
Qed.

Lemma decrypt_ok {A} `{JSON A} s key blob (data : A) :
  effective_key s = Some key ->
  unsealed key blob = Some data ->
  decrypt blob s = (Return data, cache key s).
Proof.
  intros Hk Hu. unfold decrypt, try_catch, bind at 1.
  rewrite (getMachineKey_ok _ _ Hk). unfold unsealed in Hu.
  destruct blob as [[e|] [i|] [t|]]; simpl in *; try done.
  unfold bind; simpl.
  destruct (gcm_decrypt _ _ _ _); [|done]. by rewrite Hu.
Qed.

Lemma decrypt_fail {A} `{JSON A} s blob :
  (effective_key s ≫= fun key => unsealed (A:=A) key blob) = None ->
  exists m ls, decrypt (A:=A) blob s
               = (Throw (Error ("Decryption failed: " +:+ m)), logged ls (primed s)).
Proof.
  intros Hu. unfold decrypt, try_catch, bind at 1, primed.
  destruct (effective_key s) as [key|] eqn:Hk; simpl in Hu.
  - rewrite (getMachineKey_ok _ _ Hk). unfold unsealed in Hu.
    destruct blob as [[e|] [i|] [t|]]; simpl in *;
      try (eexists _, [_; _]; reflexivity).
    unfold bind; simpl.
    destruct (gcm_decrypt _ _ _ _); [rewrite Hu|]; eexists _, [_; _]; reflexivity.
  - rewrite (getMachineKey_fail _ Hk). eexists _, [_; _]. reflexivity.
Qed.

Lemma saveEncryptedData_ok {A} `{JSON A} s key path (data : A) :
  effective_key s = Some key ->
  storable s path ->
  saveEncryptedData path data s = (Return tt, saved key path data s).
Proof.
  intros Hk (_ & Hw & Hp & Hd). unfold saveEncryptedData, try_catch, bind.
  rewrite (encrypt_ok _ _ _ Hk). unfold writeFile. simpl.
  change (has_parent _ path) with (has_parent (world s) path). rewrite Hw, Hp.
  destruct (files (world s) !! path) as [[c|]|]; try done.
Qed.

Lemma saveEncryptedData_fail {A} `{JSON A} s path (data : A) :
  ~ storable s path ->
  exists m s',
    saveEncryptedData path data s
      = (Throw (Error ("Failed to save encrypted data: " +:+ m)), s') /\
    frame [path] s s' /\
    (torn (world s) !! path = None -> frame [] s s').
Proof.
  intros Hn. unfold saveEncryptedData, try_catch, bind.
  destruct (effective_key s) as [key|] eqn:Hk.
  - rewrite (encrypt_ok _ _ _ Hk). unfold writeFile. simpl.
    change (has_parent _ path) with (has_parent (world s) path).
    assert (forall paths e st,
              st = on_world (fun w => with_entropy (drop 16 (entropy w)) w)
                     (cache key s) ->
              frame paths s (logged [e] st)) as Hfr.
    { intros paths e st ->. constructor; try reflexivity. by rewrite Hk. }
    assert (forall e remains st,
              st = on_world (with_files (<[path := File remains]> (files (world s))))
                     (on_world (fun w => with_entropy (drop 16 (entropy w)) w)
                        (cache key s)) ->
              frame [path] s (logged [e] st)) as Hfr'.
    { intros e remains st ->. constructor; try reflexivity.
      - intros p Hp. simpl. apply lookup_insert_ne. set_solver.
      - by rewrite Hk. }
    destruct (unwritable (world s) !! path) as [e|] eqn:Hw.
    { destruct (torn (world s) !! path) as [remains|] eqn:Ht.
      - destruct (has_parent (world s) path) eqn:Hp.
        + destruct (files (world s) !! path) as [[c|]|] eqn:Hf;
            eexists _, _; (split; [reflexivity|]);
            (split; [first [by eapply Hfr' | by apply Hfr] | done]).
        + eexists _, _. split; [reflexivity|]. split; [by apply Hfr|done].
      - eexists _, _. split; [reflexivity|]. split; intros; by apply Hfr. }
    destruct (has_parent (world s) path) eqn:Hp.
    2:{ eexists _, _. split; [reflexivity|]. split; intros; by apply Hfr. }
    destruct (files (world s) !! path) as [[c|]|] eqn:Hf.
    + destruct Hn. unfold storable. rewrite Hk, Hf. by eauto.
    + eexists _, _. split; [reflexivity|]. split; intros; by apply Hfr.
    + destruct Hn. unfold storable. rewrite Hk, Hf. by eauto.
  - destruct (encrypt_fail s data Hk) as (m & ls & ->).
    eexists _, _. split; [reflexivity|]. split; intros; by constructor.
Qed.

Lemma storable_or_not s path : storable s path \/ ~ storable s path.
Proof.
  unfold storable.
  destruct (effective_key s) as [key|]; [|right; by intros ([? ?] & _)].
  destruct (unwritable (world s) !! path) as [e|]; [right; by intros (_ & ? & _)|].
  destruct (has_parent (world s) path); [|right; by intros (_ & _ & ? & _)].
  destruct (files (world s) !! path) as [[c|]|];
    [left|right; by intros (_ & _ & _ & ?)|left]; eauto.
Qed.

(** A save changes at most the file it is given. *)
Lemma saveEncryptedData_frame {A} `{JSON A} s path (data : A) r s' :
  saveEncryptedData path data s = (r, s') -> frame [path] s s'.
Proof.
  intros Hs. destruct (storable_or_not s path) as [Hst|Hst].
  - destruct Hst as ([key Hk] & Hst').
    rewrite (saveEncryptedData_ok s key path data Hk) in Hs;
      [|split; [by eexists|exact Hst']].
    injection Hs as <- <-. by apply frame_saved.
  - destruct (saveEncryptedData_fail s path data Hst) as (m & s'' & Hf & Hfr & _).
    rewrite Hf in Hs. by injection Hs as <- <-.
Qed.


Lemma loadEncryptedData_absent {A} `{JSON A} s path :
  files (world s) !! path = None ->
  code (absent (world s) path) = Some "ENOENT" ->
  loadEncryptedData (A:=A) path s = (Return None, s).
Proof.
  intros Hf Hc. unfold loadEncryptedData, try_catch, bind, readFile.
  rewrite Hf. by rewrite (bool_decide_eq_true_2 _ Hc).
Qed.

Lemma loadEncryptedData_unreachable {A} `{JSON A} s path :
  files (world s) !! path = None ->
  code (absent (world s) path) <> Some "ENOENT" ->
  loadEncryptedData (A:=A) path s
  = (Throw (Error ("Failed to load encrypted data: " +:+ message (absent (world s) path))),
     logged [Stderr ("[LOAD ERROR] Failed to load encrypted data from " +:+ path
                     +:+ ": " +:+ message (absent (world s) path))] s).
Proof.
  intros Hf Hc. unfold loadEncryptedData, try_catch, bind, readFile.
  rewrite Hf. by rewrite (bool_decide_eq_false_2 _ Hc).
Qed.

Lemma unsealed_nullable {A} `{JSON A} key blob (data : A) :
  unsealed key blob = Some data ->
  unsealed (H:=nullable) key blob = Some (Some data).
Proof.
  unfold unsealed. destruct (iv blob), (tag blob), (encrypted blob); try done.
  destruct (gcm_decrypt _ _ _ _); [|done]. simpl. by intros ->.
Qed.

Lemma loadEncryptedData_ok {A} `{JSON A} s path (data : A) :
  stored s path = Some data ->
  loadEncryptedData path s = (Return (Some data), primed s).
Proof.
  unfold stored. intros Hs.
  destruct (files (world s) !! path) as [[content|]|] eqn:Hf; try done.
  destruct (parse content) as [blob|] eqn:Hp; try done.
  destruct (effective_key s) as [key|] eqn:Hk; try done.
  unfold loadEncryptedData, try_catch, bind, readFile, JSON_parse. rewrite Hf, Hp.
  unfold ret. rewrite (decrypt_ok (H:=nullable) _ _ _ _ Hk (unsealed_nullable _ _ _ Hs)).
  unfold primed. by rewrite Hk.
Qed.

(** A file that holds no value for the process: the load throws, unless the
    blob decrypts to the JSON text [null], which the load returns. *)
Lemma loadEncryptedData_fail {A} `{JSON A} s path :
  files (world s) !! path <> None ->
  stored (A:=A) s path = None ->
  exists r s',
    loadEncryptedData (A:=A) path s = (r, s') /\
    frame [] s s' /\
    (r = Return None \/
     exists m, r = Throw (Error ("Failed to load encrypted data: " +:+ m))).
Proof.
  unfold stored. intros Hex Hs.
  unfold loadEncryptedData, try_catch, bind, readFile, JSON_parse.
  destruct (files (world s) !! path) as [[content|]|] eqn:Hf; try done.
  - destruct (parse content) as [blob|] eqn:Hp.
    + unfold ret.
      destruct (effective_key s ≫= fun key => unsealed (H:=nullable) key blob)
        as [[data|]|] eqn:Hn.
      * destruct (effective_key s) as [key|] eqn:Hk; [|done]. simpl in Hn.
        exfalso. revert Hs Hn. unfold unsealed.
        destruct (iv blob), (tag blob), (encrypted blob); try done.
        destruct (gcm_decrypt _ _ _ _); [|done]. simpl.
        intros ->. by destruct (Js.is_null _).
      * destruct (effective_key s) as [key|] eqn:Hk; [|done]. simpl in Hn.
        rewrite (decrypt_ok (H:=nullable) _ _ _ _ Hk Hn).
        eexists _, _. split; [reflexivity|]. split; [by apply frame_cache|by left].
      * destruct (decrypt_fail (H:=nullable) s blob Hn) as (m & ls & ->).
        eexists _, _. split; [reflexivity|]. split; [|right; by eexists].
        eapply frame_trans; [apply frame_primed|]. by constructor.
    + eexists _, _. split; [reflexivity|]. split; [by constructor|right; by eexists].
  - eexists _, _. split; [reflexivity|]. split; [by constructor|right; by eexists].
Qed.

(** A load changes no file. *)
Lemma loadEncryptedData_frame {A} `{JSON A} s path (r : completion (option A)) s' :
  loadEncryptedData path s = (r, s') -> frame [] s s'.
Proof.
  intros Hl.
  destruct (files (world s) !! path) as [n|] eqn:Hf.
  - destruct (stored (A:=A) s path) as [data|] eqn:Hs.
    + rewrite (loadEncryptedData_ok _ _ _ Hs) in Hl. injection Hl as <- <-.
      apply frame_primed.
    + destruct (loadEncryptedData_fail (A:=A) s path) as (r' & s'' & Hx & Hfr & _);
        [congruence | done |].
      rewrite Hx in Hl. by injection Hl as <- <-.
  - destruct (decide (code (absent (world s) path) = Some "ENOENT")) as [Hc|Hc].
    + rewrite (loadEncryptedData_absent _ _ Hf Hc) in Hl. injection Hl as <- <-.
      apply frame_refl.
    + rewrite (loadEncryptedData_unreachable _ _ Hf Hc) in Hl. injection Hl as <- <-.
      apply frame_logged.
Qed.

End EncryptionManagerFacts.

Module SampleFacts.

Lemma bytes_eqb_refl (a : list byte) : Sample.bytes_eqb a a = true.
Proof.
  induction a as [|x a IH]; [reflexivity|]. simpl.
  rewrite IH. by rewrite (Byte.byte_dec_lb eq_refl).
Qed.

(** The sample cipher decrypts what it encrypts. *)
Lemma crypto_correct (key nonce plaintext c t : list byte) :
  @gcm_encrypt Sample.crypto key nonce plaintext = (c, t) ->
  @gcm_decrypt Sample.crypto key nonce t c = Some plaintext.
Proof.
  simpl. intros [= <- <-]. by rewrite bytes_eqb_refl, rev_involutive.
Qed.

Lemma json_text_correct (data : string) :
  parse (JSON:=Sample.json_text) (stringify (JSON:=Sample.json_text) data) = Some data.
Proof. reflexivity. Qed.

End SampleFacts.

(* ===================================================================== *)
(** * Properties of EncryptionManager *)
(* ===================================================================== *)

Section EncryptionManagerProperties.

Context {crypto : Crypto}.
Context {json_blob : JSON EncryptedData}.

(** What [encrypt] seals under a key, that key unseals. *)
Lemma unsealed_sealed {A} `{JSON A} key s (data : A) :
  (forall k nonce plaintext c t,
      gcm_encrypt k nonce plaintext = (c, t) ->
      gcm_decrypt k nonce t c = Some plaintext) ->
  parse (stringify data) = Some data ->
  unsealed key (sealed key s data) = Some data.
Proof.
  intros Hgcm Hjson. unfold unsealed, sealed.
  destruct (gcm_encrypt _ _ _) as [c t] eqn:He. simpl.
  rewrite !BufferFacts.from_hex_toString_hex, (Hgcm _ _ _ _ _ He).
  by rewrite BufferFacts.toString_utf8_from_utf8.
Qed.

(** C9.  For every payload [data] and every state, decrypting the blob that
    [encrypt] returned for [data] yields [data] again, and [encrypt] does
    return a blob whenever the machine key can be had.  The two primitives
    are assumed correct: AES-256-GCM decrypts what it encrypted under the
    same key, nonce and tag, and [JSON.parse] inverts [JSON.stringify] on
    the payload. *)
Theorem decrypt_encrypt_roundtrip {A} `{JSON A} :
  (forall key nonce plaintext c t,
      gcm_encrypt key nonce plaintext = (c, t) ->
      gcm_decrypt key nonce t c = Some plaintext) ->
  (forall data : A, parse (stringify data) = Some data) ->
  forall (s : State) (data : A),
    (forall blob s',
        encrypt data s = (Return blob, s') ->
        decrypt blob s' = (Return data, s')) /\
    (is_Some (effective_key s) ->
     exists blob s',
       encrypt data s = (Return blob, s') /\
       decrypt blob s' = (Return data, s')).
Proof.
  intros Hgcm Hjson s data.
  assert (forall key, effective_key s = Some key ->
            exists blob s', encrypt data s = (Return blob, s') /\
                            decrypt blob s' = (Return data, s')) as Hsome.
  { intros key Hk. eexists _, _. split; [exact (encrypt_ok _ _ _ Hk)|].
    erewrite decrypt_ok; [|reflexivity|by apply unsealed_sealed].
    reflexivity. }
  split.
  - intros blob s' He. destruct (effective_key s) as [key|] eqn:Hk.
    + destruct (Hsome key eq_refl) as (blob' & s'' & He' & Hd).
      rewrite He in He'. by injection He' as -> ->.
    + destruct (encrypt_fail s data Hk) as (m & ls & He'). congruence.
  - intros [key Hk]. exact (Hsome key Hk).
Qed.



End EncryptionManagerProperties.

Section EncryptionManagerWitnesses.

#[local] Existing Instance Sample.crypto.
#[local] Existing Instance Sample.json_blob.
#[local] Existing Instance Sample.json_tokens.

(** On a first run, with the sample cipher and a text payload, [encrypt]
    returns a blob that [decrypt] turns back into the payload. *)
Lemma decrypt_encrypt_roundtrip_witness :
  exists blob s',
    encrypt (H:=Sample.json_text) "payload" Sample.first_run = (Return blob, s') /\
    decrypt (H:=Sample.json_text) blob s' = (Return "payload", s').
Proof.
  apply (decrypt_encrypt_roundtrip (H:=Sample.json_text)
           SampleFacts.crypto_correct SampleFacts.json_text_correct
           Sample.first_run "payload").
  vm_compute. eauto.
Defined.



End EncryptionManagerWitnesses.

(* ===================================================================== *)
(** * Facts about AuthManager *)
(* ===================================================================== *)

Section AuthManagerFacts.

Context {crypto : Crypto}.
Context {json_blob : JSON EncryptedData}.
Context {json_tokens : JSON TokenSet.t}.
Context {json_device : JSON DeviceCode.t}.

Lemma saveEncryptedData_cases {A} `{JSON A} s path (data : A) :
  (exists key,
      effective_key s = Some key /\ storable s path /\
      saveEncryptedData path data s = (Return tt, saved key path data s)) \/
  (exists m s',
      ~ storable s path /\
      saveEncryptedData path data s
      = (Throw (Error ("Failed to save encrypted data: " +:+ m)), s') /\
      frame [path] s s' /\
      (torn (world s) !! path = None -> frame [] s s')).
Proof.
  destruct (storable_or_not s path) as [Hst|Hst].
  - left. destruct Hst as ([key Hk] & Hst'). exists key.
    assert (storable s path) as Hst by (split; [by eexists|exact Hst']).
    split; [exact Hk|]. split; [exact Hst|]. by apply saveEncryptedData_ok.
  - right. destruct (saveEncryptedData_fail s path data Hst) as (m & s' & Hf & Hfr).
    by exists m, s'.
Qed.

#[local] Arguments saveEncryptedData : simpl never.
#[local] Arguments loadEncryptedData : simpl never.

Lemma saveTokens_none s :
  tokens (self s) = None -> saveTokens s = (Return tt, s).
Proof. intros Ht. unfold saveTokens, bind, get. by rewrite Ht. Qed.

Lemma saveTokens_some s t :
  tokens (self s) = Some t -> saveTokens s = saveEncryptedData CONFIG.TOKEN_FILE t s.
Proof. intros Ht. unfold saveTokens, bind, get. by rewrite Ht. Qed.

Lemma saveDeviceCode_none s :
  deviceCode (self s) = None -> saveDeviceCode s = (Return tt, s).
Proof. intros Ht. unfold saveDeviceCode, bind, get. by rewrite Ht. Qed.

Lemma saveDeviceCode_some s d :
  deviceCode (self s) = Some d ->
  saveDeviceCode s = saveEncryptedData CONFIG.DEVICE_FILE d s.
Proof. intros Ht. unfold saveDeviceCode, bind, get. by rewrite Ht. Qed.

(** ** One turn of the polling loop *)

Lemma pollOnce_no_device s :
  deviceCode (self s) = None ->
  pollOnce s = (Throw (poll_failure (TypeError "device_code")), s).
Proof.
  intros Hd. unfold pollOnce, poll_granted, poll_refused, try_catch, this_deviceCode, bind, get. rewrite Hd.
  reflexivity.
Qed.

Lemma pollOnce_no_reply s d :
  deviceCode (self s) = Some d ->
  token_endpoint (world s) = [] ->
  pollOnce s
  = (Throw (poll_failure NetworkError),
     on_world (fun w => with_sent
       (PostToken (DeviceCodeGrant (DeviceCode.device_code d)) :: sent w) w) s).
Proof.
  intros Hd He. unfold pollOnce, poll_granted, poll_refused, try_catch, this_deviceCode, bind, get. rewrite Hd.
  unfold ret, post_token. rewrite He. reflexivity.
Qed.

Lemma pollOnce_pending s d delay e rest :
  deviceCode (self s) = Some d ->
  token_endpoint (world s) = (delay, Reject e) :: rest ->
  error_is e "authorization_pending" = true ->
  pollOnce s
  = (Return Continue,
     on_world (fun w => with_now (now w + CONFIG.DEVICE_CODE_POLL_INTERVAL) w)
       (received (PostToken (DeviceCodeGrant (DeviceCode.device_code d))) delay rest s)).
Proof.
  intros Hd He Hp. unfold pollOnce, poll_granted, poll_refused, try_catch, this_deviceCode, bind, get. rewrite Hd.
  unfold ret, post_token. rewrite He. simpl. rewrite Hp. reflexivity.
Qed.

Lemma pollOnce_rejected s d delay e rest :
  deviceCode (self s) = Some d ->
  token_endpoint (world s) = (delay, Reject e) :: rest ->
  error_is e "authorization_pending" = false ->
  pollOnce s
  = (Throw (poll_failure e),
     received (PostToken (DeviceCodeGrant (DeviceCode.device_code d))) delay rest s).
Proof.
  intros Hd He Hp. unfold pollOnce, poll_granted, poll_refused, try_catch, this_deviceCode, bind, get. rewrite Hd.
  unfold ret, post_token. rewrite He. simpl. rewrite Hp. unfold poll_failure.
  destruct (error_is e "authorization_declined"); [reflexivity|].
  destruct (error_is e "expired_token"); reflexivity.
Qed.

Lemma saveEncryptedData_throws {A} `{JSON A} s path (data : A) e s' :
  saveEncryptedData path data s = (Throw e, s') ->
  exists m, e = Error ("Failed to save encrypted data: " +:+ m).
Proof.
  intros Hs.
  destruct (saveEncryptedData_cases s path data)
    as [(key & _ & _ & Heq)|(m & s'' & _ & Heq & _)];
    rewrite Heq in Hs; [done|].
  injection Hs as <- <-. eauto.
Qed.

Lemma pollOnce_resolved s d delay r rest r2 s2 :
  deviceCode (self s) = Some d ->
  token_endpoint (world s) = (delay, Resolve r) :: rest ->
  saveEncryptedData CONFIG.TOKEN_FILE (issued_by_poll r (now (world s) + delay))
    (on_self (with_tokens (Some (issued_by_poll r (now (world s) + delay))))
       (received (PostToken (DeviceCodeGrant (DeviceCode.device_code d))) delay rest s))
  = (r2, s2) ->
  pollOnce s
  = match r2 with
    | Return _ => (Return Finished, logged [Stdout "Authentication successful!"] s2)
    | Throw e => (Throw (poll_failure e), s2)
    end.
Proof.
  intros Hd He Hs.
  unfold pollOnce, poll_granted, poll_refused, try_catch, this_deviceCode, saveTokens,
    bind, get, ret, post_token, Date_now, set_tokens, modify, console_log.
  rewrite Hd, He. simpl.
  match goal with
  | |- context [saveEncryptedData ?p ?t ?st] =>
      change (saveEncryptedData p t st) with
        (saveEncryptedData CONFIG.TOKEN_FILE (issued_by_poll r (now (world s) + delay))
           (on_self (with_tokens (Some (issued_by_poll r (now (world s) + delay))))
              (received (PostToken (DeviceCodeGrant (DeviceCode.device_code d)))
                 delay rest s)))
  end.
  rewrite Hs. destruct r2 as [[]|e]; [reflexivity|].
  destruct (saveEncryptedData_throws _ _ _ _ _ Hs) as [m ->]. reflexivity.
Qed.


Lemma pollOnce_cases s : pollOnce_outcome s (pollOnce s).1 (pollOnce s).2.
Proof.
  destruct (deviceCode (self s)) as [d|] eqn:Hd.
  2:{ rewrite (pollOnce_no_device _ Hd). by constructor. }
  destruct (token_endpoint (world s)) as [|[delay [r|e]] rest] eqn:He.
  - rewrite (pollOnce_no_reply _ _ Hd He). by econstructor.
  - destruct (saveEncryptedData_cases
        (on_self (with_tokens (Some (issued_by_poll r (now (world s) + delay))))
           (received (PostToken (DeviceCodeGrant (DeviceCode.device_code d))) delay rest s))
        CONFIG.TOKEN_FILE (issued_by_poll r (now (world s) + delay)))
        as [(key & Hk & Hst & Heq)|(m & s2 & Hst & Heq & Hfr & Htorn)].
    + rewrite (pollOnce_resolved _ _ _ _ _ _ _ Hd He Heq). simpl.
      by eapply poll_issued.
    + rewrite (pollOnce_resolved _ _ _ _ _ _ _ Hd He Heq). simpl.
      eapply poll_unsaved; [exact Hd | exact He | exact Hst | exact Hfr |].
      intros Ht. exact (frame_same_files _ _ (Htorn Ht)).
  - destruct (error_is e "authorization_pending") eqn:Hp.
    + rewrite (pollOnce_pending _ _ _ _ _ Hd He Hp). by econstructor.
    + rewrite (pollOnce_rejected _ _ _ _ _ Hd He Hp). by econstructor.
Qed.


Lemma DEVICE_FILE_not_TOKEN_FILE : CONFIG.DEVICE_FILE ∉ [CONFIG.TOKEN_FILE].
Proof. by intros ?%list_elem_of_singleton. Qed.

(** A turn leaves the device authorization alone, in memory and on disk, and
    changes the token set only when it ends the loop with a new one or with
    "Token polling failed". *)
Lemma pollOnce_keeps s :
  deviceCode (self (pollOnce s).2) = deviceCode (self s) /\
  files (world (pollOnce s).2) !! CONFIG.DEVICE_FILE
    = files (world s) !! CONFIG.DEVICE_FILE /\
  (tokens (self (pollOnce s).2) = tokens (self s) \/
   (pollOnce s).1 = Return Finished \/
   exists m, (pollOnce s).1 = Throw (Error ("Token polling failed: " +:+ m))).
Proof.
  destruct (pollOnce_cases s)
    as [Hd|d Hd He|d delay e rest Hd He Hp|d delay e rest Hd He Hp
        |d delay r rest key Hd He Hk Hst|d delay r rest m s2 Hd He Hst Hfr Htorn];
    try (split; [reflexivity|split; [reflexivity|left; reflexivity]]).
  - split; [reflexivity|]. split; [|by right; left].
    simpl. apply lookup_insert_ne. done.
  - split; [exact (frame_deviceCode _ _ _ Hfr)|].
    split; [|right; right; eauto].
    exact (frame_files _ _ _ Hfr _ DEVICE_FILE_not_TOKEN_FILE).
Qed.

End AuthManagerFacts.

Section RefreshFacts.

Context {crypto : Crypto}.
Context {json_blob : JSON EncryptedData}.
Context {json_tokens : JSON TokenSet.t}.
Context {json_device : JSON DeviceCode.t}.

#[local] Arguments saveEncryptedData : simpl never.

Ltac run_refresh :=
  unfold this_tokens, saveTokens, set_tokens, console_log, console_error, post_token,
    Date_now, try_catch, modify, bind, get, ret, throw.

Lemma refreshAccessToken_no_token s :
  (forall held, tokens (self s) = Some held ->
                Js.truthy (TokenSet.refresh_token held) = false) ->
  refreshAccessToken s
  = (Throw (Error "No refresh token available. Please re-authenticate."), s).
Proof.
  intros Hn. unfold refreshAccessToken, bind at 1, get.
  destruct (tokens (self s)) as [[a [[|c rt]|] ei ea ty]|]; try reflexivity.
  by specialize (Hn _ eq_refl).
Qed.

Lemma refreshAccessToken_no_reply s held c rt :
  tokens (self s) = Some held ->
  TokenSet.refresh_token held = Some (String c rt) ->
  token_endpoint (world s) = [] ->
  refreshAccessToken s
  = (Throw refresh_failed,
     cleared NetworkError
       (on_world (fun w => with_sent
          (PostToken (RefreshTokenGrant (String c rt)) :: sent w) w) s)).
Proof.
  intros Ht Hrt He. unfold refreshAccessToken, bind at 1, get. rewrite Ht.
  destruct held as [a rf ei ea ty]. simpl in Hrt. subst rf.
  run_refresh. rewrite He. reflexivity.
Qed.

Lemma refreshAccessToken_rejected s held c rt delay e rest :
  tokens (self s) = Some held ->
  TokenSet.refresh_token held = Some (String c rt) ->
  token_endpoint (world s) = (delay, Reject e) :: rest ->
  refreshAccessToken s
  = (Throw refresh_failed,
     cleared e (received (PostToken (RefreshTokenGrant (String c rt))) delay rest s)).
Proof.
  intros Ht Hrt He. unfold refreshAccessToken, bind at 1, get. rewrite Ht.
  destruct held as [a rf ei ea ty]. simpl in Hrt. subst rf.
  run_refresh. rewrite He. reflexivity.
Qed.

Lemma refreshAccessToken_resolved s held c rt delay r rest r2 s2 :
  tokens (self s) = Some held ->
  TokenSet.refresh_token held = Some (String c rt) ->
  token_endpoint (world s) = (delay, Resolve r) :: rest ->
  saveEncryptedData CONFIG.TOKEN_FILE (issued_by_refresh held r (now (world s) + delay))
    (on_self (with_tokens (Some (issued_by_refresh held r (now (world s) + delay))))
       (received (PostToken (RefreshTokenGrant (String c rt))) delay rest s))
  = (r2, s2) ->
  refreshAccessToken s
  = match r2 with
    | Return _ => (Return tt, logged [Stdout "Token refreshed successfully"] s2)
    | Throw e => (Throw refresh_failed, cleared e s2)
    end.
Proof.
  intros Ht Hrt He Hs. unfold refreshAccessToken, bind at 1, get. rewrite Ht.
  destruct held as [a rf ei ea ty]. simpl in Hrt. subst rf.
  run_refresh. rewrite He. simpl. rewrite Ht. simpl.
  match goal with
  | |- context [saveEncryptedData ?p ?t ?st] =>
      change (saveEncryptedData p t st) with
        (saveEncryptedData CONFIG.TOKEN_FILE
           (issued_by_refresh
              {| TokenSet.access_token := a; TokenSet.refresh_token := Some (String c rt);
                 TokenSet.expires_in := ei; TokenSet.expires_at := ea;
                 TokenSet.token_type := ty |} r (now (world s) + delay))
           (on_self (with_tokens (Some (issued_by_refresh
              {| TokenSet.access_token := a; TokenSet.refresh_token := Some (String c rt);
                 TokenSet.expires_in := ei; TokenSet.expires_at := ea;
                 TokenSet.token_type := ty |} r (now (world s) + delay))))
              (received (PostToken (RefreshTokenGrant (String c rt))) delay rest s)))
  end.
  rewrite Hs. destruct r2 as [[]|e]; reflexivity.
Qed.

Lemma refreshAccessToken_cases s :
  refresh_outcome s (refreshAccessToken s).1 (refreshAccessToken s).2.
Proof.
  destruct (tokens (self s)) as [held|] eqn:Ht.
  2:{ rewrite refreshAccessToken_no_token; [|intros ? ?; congruence].
      simpl. apply refresh_no_token. intros ? ?; congruence. }
  destruct (TokenSet.refresh_token held) as [[|c rt]|] eqn:Hrt.
  1,3: rewrite refreshAccessToken_no_token;
       [simpl; apply refresh_no_token|]; intros ? ?; simplify_eq; by rewrite Hrt.
  destruct (token_endpoint (world s)) as [|[delay [r|e]] rest] eqn:He.
  - rewrite (refreshAccessToken_no_reply _ _ _ _ Ht Hrt He). simpl.
    by apply (refresh_no_reply s held (String c rt)).
  - destruct (saveEncryptedData_cases
        (on_self (with_tokens (Some (issued_by_refresh held r (now (world s) + delay))))
           (received (PostToken (RefreshTokenGrant (String c rt))) delay rest s))
        CONFIG.TOKEN_FILE (issued_by_refresh held r (now (world s) + delay)))
      as [(key & Hk & Hst & Heq)|(m & s2 & Hst & Heq & Hfr & Htorn)];
      rewrite (refreshAccessToken_resolved _ _ _ _ _ _ _ _ _ Ht Hrt He Heq); simpl.
    + by apply (refresh_issued s held (String c rt) delay r rest key).
    + apply (refresh_unsaved s held (String c rt) delay r rest m s2); try done.
      intros Htn. exact (frame_same_files _ _ (Htorn Htn)).
  - rewrite (refreshAccessToken_rejected _ _ _ _ _ _ _ Ht Hrt He). simpl.
    by apply (refresh_rejected s held (String c rt) delay e rest).
Qed.

End RefreshFacts.

Section AuthenticateFacts.

Context {crypto : Crypto}.
Context {json_blob : JSON EncryptedData}.
Context {json_tokens : JSON TokenSet.t}.
Context {json_device : JSON DeviceCode.t}.

#[local] Arguments saveEncryptedData : simpl never.

Ltac run_authenticate :=
  unfold authenticate, start_pollForTokenInBackground, this_deviceCode, saveDeviceCode,
    set_deviceCode, stderr_write, post_device_code, send_token, detach, Date_now,
    try_catch, modify, bind, get, ret, throw.

Lemma authenticate_no_reply s :
  device_endpoint (world s) = [] ->
  authenticate s
  = (Throw (Error "Authentication failed: Network Error"),
     logged [auth_error_line NetworkError]
       (on_world (fun w => with_sent (PostDeviceCode :: sent w) w) (entered s))).
Proof. intros He. run_authenticate. simpl. rewrite He. reflexivity. Qed.

Lemma authenticate_rejected s delay e rest :
  device_endpoint (world s) = (delay, Reject e) :: rest ->
  authenticate s
  = (Throw (auth_failure e),
     logged [auth_error_line e] (device_received delay rest (entered s))).
Proof.
  intros He. run_authenticate. simpl. rewrite He. simpl. unfold auth_failure.
  destruct (Js.includes "authentication_required" (message e)); reflexivity.
Qed.

Lemma authenticate_resolved s delay r rest r2 s2 :
  device_endpoint (world s) = (delay, Resolve r) :: rest ->
  saveEncryptedData CONFIG.DEVICE_FILE (device_of r)
    (on_self (with_deviceCode (Some (device_of r)))
       (device_received delay rest (entered s)))
  = (r2, s2) ->
  authenticate s
  = match r2 with
    | Return _ =>
        (Throw (Error (stringify_authInstructions (instructions_of r))),
         logged [auth_error_line (Error (stringify_authInstructions (instructions_of r)))]
           (launched s2))
    | Throw e => (Throw (auth_failure e), logged [auth_error_line e] s2)
    end.
Proof.
  intros He Hs. run_authenticate. simpl. rewrite He. simpl.
  match goal with
  | |- context [saveEncryptedData ?p ?t ?st] =>
      change (saveEncryptedData p t st) with
        (saveEncryptedData CONFIG.DEVICE_FILE (device_of r)
           (on_self (with_deviceCode (Some (device_of r)))
              (device_received delay rest (entered s))))
  end.
  rewrite Hs. destruct r2 as [[]|e].
  - unfold launched.
    rewrite (frame_deviceCode _ _ _ (saveEncryptedData_frame _ _ _ _ _ Hs)). simpl.
    rewrite (frame_deviceCode _ _ _ (saveEncryptedData_frame _ _ _ _ _ Hs)). simpl.
    change (Js.includes "authentication_required"
              (stringify_authInstructions (instructions_of r)))
      with true.
    reflexivity.
  - unfold auth_failure.
    destruct (Js.includes "authentication_required" (message e)); reflexivity.
Qed.

(** [authenticate] never returns: it always throws. *)
Lemma authenticate_throws s : exists e s', authenticate s = (Throw e, s').
Proof.
  destruct (device_endpoint (world s)) as [|[delay [r|e]] rest] eqn:He.
  - rewrite (authenticate_no_reply _ He). eauto.
  - destruct (saveEncryptedData CONFIG.DEVICE_FILE (device_of r)
      (on_self (with_deviceCode (Some (device_of r)))
         (device_received delay rest (entered s)))) as [r2 s2] eqn:Hs.
    rewrite (authenticate_resolved _ _ _ _ _ _ He Hs). destruct r2; eauto.
  - rewrite (authenticate_rejected _ _ _ _ He). eauto.
Qed.

Ltac run_getValidAccessToken :=
  unfold getValidAccessToken, this_tokens, console_log, Date_now, modify, bind, get, ret,
    throw.

Lemma getValidAccessToken_no_tokens s e s' :
  tokens (self s) = None ->
  authenticate s = (Throw e, s') ->
  getValidAccessToken s = (Throw e, s').
Proof. intros Ht Ha. run_getValidAccessToken. by rewrite Ht, Ha. Qed.

Lemma getValidAccessToken_fresh s held :
  tokens (self s) = Some held ->
  now (world s) < TokenSet.expires_at held - CONFIG.TOKEN_EXPIRY_BUFFER ->
  getValidAccessToken s = (Return (TokenSet.access_token held), s).
Proof.
  intros Ht Hn. run_getValidAccessToken. rewrite Ht. simpl. rewrite Ht. simpl.
  destruct (Z.geb_spec (now (world s))
              (TokenSet.expires_at held - CONFIG.TOKEN_EXPIRY_BUFFER)); [lia|].
  by rewrite Ht.
Qed.

Lemma getValidAccessToken_stale s held res s' :
  tokens (self s) = Some held ->
  now (world s) >= TokenSet.expires_at held - CONFIG.TOKEN_EXPIRY_BUFFER ->
  refreshAccessToken
    (logged [Stdout "Token expired or about to expire, refreshing..."] s) = (res, s') ->
  getValidAccessToken s
  = match res with
    | Return _ =>
        match tokens (self s') with
        | Some t => (Return (TokenSet.access_token t), s')
        | None => (Throw (TypeError "access_token"), s')
        end
    | Throw e => (Throw e, s')
    end.
Proof.
  intros Ht Hn Hr. run_getValidAccessToken. rewrite Ht. simpl. rewrite Ht. simpl.
  destruct (Z.geb_spec (now (world s))
              (TokenSet.expires_at held - CONFIG.TOKEN_EXPIRY_BUFFER)); [|lia].
  change (on_world (λ w : World,
            with_console (Stdout "Token expired or about to expire, refreshing..."
                          :: console w) w) s)
    with (logged [Stdout "Token expired or about to expire, refreshing..."] s).
  rewrite Hr. destruct res as [[]|e]; [|reflexivity].
  destruct (tokens (self s')); reflexivity.
Qed.

End AuthenticateFacts.

Section InitializeFacts.

Context {crypto : Crypto}.
Context {json_blob : JSON EncryptedData}.
Context {json_tokens : JSON TokenSet.t}.
Context {json_device : JSON DeviceCode.t}.

#[local] Arguments loadEncryptedData : simpl never.



(** Every way a load can go, in terms of what the file holds. *)
Lemma loadEncryptedData_cases {A} `{JSON A} s path :
  exists s',
    frame [] s s' /\
    (loadEncryptedData (A:=A) path s = (Return (stored s path), s') \/
     stored (A:=A) s path = None /\
     exists m,
       loadEncryptedData (A:=A) path s
       = (Throw (Error ("Failed to load encrypted data: " +:+ m)), s')).
Proof.
  destruct (stored (A:=A) s path) as [data|] eqn:Hs.
  - exists (primed s). split; [apply frame_primed|]. left.
    by apply loadEncryptedData_ok.
  - destruct (files (world s) !! path) as [n|] eqn:Hf.
    + destruct (loadEncryptedData_fail (A:=A) s path)
        as (r & s' & Hl & Hfr & [->|[m ->]]); [congruence | done | |].
      * exists s'. split; [done|]. by left.
      * exists s'. split; [done|]. right. eauto.
    + destruct (decide (code (absent (world s) path) = Some "ENOENT")) as [Hc|Hc].
      * exists s. split; [apply frame_refl|]. left.
        by apply loadEncryptedData_absent.
      * eexists. split; [|right; split; [done|]; eexists;
                          by apply loadEncryptedData_unreachable].
        apply frame_logged.
Qed.

Lemma loadTokens_spec s :
  exists s1,
    frame [] s s1 /\
    loadTokens s = (Return tt, on_self (with_tokens (stored s CONFIG.TOKEN_FILE)) s1).
Proof.
  unfold loadTokens, try_catch, bind at 1.
  destruct (loadEncryptedData_cases (A:=TokenSet.t) s CONFIG.TOKEN_FILE)
    as (s' & Hfr & [Hl|(Hs & m & Hl)]); rewrite Hl.
  - destruct (stored s CONFIG.TOKEN_FILE) as [t|].
    + exists (logged [Stdout "Loaded existing tokens"] s'). split; [|reflexivity].
      eapply frame_trans; [exact Hfr|apply frame_logged].
    + exists s'. by split.
  - rewrite Hs.
    exists (logged [Stdout "No existing tokens found or failed to load"] s').
    split; [|reflexivity].
    eapply frame_trans; [exact Hfr|apply frame_logged].
Qed.

Lemma loadDeviceCode_spec s :
  exists s1,
    frame [] s s1 /\
    loadDeviceCode s
    = (Return tt, on_self (with_deviceCode (stored s CONFIG.DEVICE_FILE)) s1).
Proof.
  unfold loadDeviceCode, try_catch, bind at 1.
  destruct (loadEncryptedData_cases (A:=DeviceCode.t) s CONFIG.DEVICE_FILE)
    as (s' & Hfr & [Hl|(Hs & m & Hl)]); rewrite Hl.
  - destruct (stored s CONFIG.DEVICE_FILE) as [t|].
    + exists (logged [Stdout "Loaded existing device code"] s'). split; [|reflexivity].
      eapply frame_trans; [exact Hfr|apply frame_logged].
    + exists s'. by split.
  - rewrite Hs.
    exists (logged [Stdout "No existing device code found or failed to load"] s').
    split; [|reflexivity].
    eapply frame_trans; [exact Hfr|apply frame_logged].
Qed.

(** [fs.mkdir] at the data directory succeeds unless writing there fails or
    a file is in the way. *)
Lemma mkdir_ok s :
  unwritable (world s) !! CONFIG.DATA_DIR = None ->
  (forall content, files (world s) !! CONFIG.DATA_DIR <> Some (File content)) ->
  exists s1,
    mkdir CONFIG.DATA_DIR s = (Return tt, s1) /\
    frame [CONFIG.DATA_DIR] s s1 /\
    files (world s1) !! CONFIG.DATA_DIR = Some Directory.
Proof.
  intros Hw Hf. unfold mkdir. rewrite Hw.
  destruct (files (world s) !! CONFIG.DATA_DIR) as [[c|]|] eqn:Hd.
  - by destruct (Hf c).
  - exists s. split; [done|]. split; [apply frame_refl|done].
  - eexists. split; [reflexivity|]. split.
    + constructor; try reflexivity. intros p Hp. simpl.
      apply lookup_insert_ne. set_solver.
    + simpl. apply lookup_insert_eq.
Qed.

Lemma mkdir_fail s :
  (is_Some (unwritable (world s) !! CONFIG.DATA_DIR) \/
   exists content, files (world s) !! CONFIG.DATA_DIR = Some (File content)) ->
  exists e, mkdir CONFIG.DATA_DIR s = (Throw e, s).
Proof.
  intros Hf. unfold mkdir.
  destruct (unwritable (world s) !! CONFIG.DATA_DIR) as [e|]; [eauto|].
  destruct Hf as [[e He]|[c ->]]; [done|eauto].
Qed.

Lemma stored_with_tokens {A} `{JSON A} s t path :
  stored (A:=A) (on_self (with_tokens t) s) path = stored s path.
Proof. reflexivity. Qed.

End InitializeFacts.

(* ===================================================================== *)
(** * Properties of the polling loop *)
(* ===================================================================== *)

Section PollingProperties.

Context {crypto : Crypto}.
Context {json_blob : JSON EncryptedData}.
Context {json_tokens : JSON TokenSet.t}.
Context {json_device : JSON DeviceCode.t}.

Lemma pollForToken_pollLoop s : pollForToken s = pollLoop CONFIG.MAX_POLL_ATTEMPTS s.
Proof. reflexivity. Qed.

(** C4, as the code has it.  However [pollForToken] ends, the device
    authorization is what it was before, in the manager's memory and in the
    device file; and when it ends with "Authorization was declined by the
    user", "Device code expired. Please try again." or "Authentication
    timeout. Please try again.", the token set is what it was before too, so
    none is held if none was held. *)
Theorem pollForToken_keeps_device_authorization (s : State) :
  deviceCode (self (pollForToken s).2) = deviceCode (self s) /\
  files (world (pollForToken s).2) !! CONFIG.DEVICE_FILE
    = files (world s) !! CONFIG.DEVICE_FILE /\
  ((pollForToken s).1 = Throw declined \/
   (pollForToken s).1 = Throw expired \/
   (pollForToken s).1 = Throw timeout ->
   tokens (self (pollForToken s).2) = tokens (self s)).
Proof.
  rewrite pollForToken_pollLoop. generalize CONFIG.MAX_POLL_ATTEMPTS. intros n.
  revert s. induction n as [|n IH]; intros s; [by simpl|].
  destruct (pollOnce_keeps s) as (Hd & Hf & Ht).
  simpl. unfold bind. destruct (pollOnce s) as [[[]|e] s1] eqn:Ho; simpl in *.
  - (* the turn ended the loop with a token set *)
    split; [done|]. split; [done|]. intros [|[|]]; done.
  - (* the turn asks for another one *)
    destruct (IH s1) as (Hd' & Hf' & Ht').
    split; [congruence|]. split; [congruence|].
    intros Hr. rewrite (Ht' Hr). destruct Ht as [|[|[m ?]]]; done.
  - (* the turn threw *)
    split; [done|]. split; [done|].
    intros Hr. destruct Ht as [|[|[m [= ->]]]]; [done|done|].
    destruct Hr as [|[|]]; done.
Qed.

(** The turn that follows an "authorization_pending" reply. *)
Lemma pollLoop_pending n s d delay e rest :
  deviceCode (self s) = Some d ->
  token_endpoint (world s) = (delay, Reject e) :: rest ->
  error_is e "authorization_pending" = true ->
  pollLoop (S n) s
  = pollLoop n
      (on_world (fun w => with_now (now w + CONFIG.DEVICE_CODE_POLL_INTERVAL) w)
         (received (PostToken (DeviceCodeGrant (DeviceCode.device_code d))) delay rest s)).
Proof.
  intros Hd He Hp. simpl. unfold bind. by rewrite (pollOnce_pending _ _ _ _ _ Hd He Hp).
Qed.

Lemma pollLoop_rejected n s d delay e rest :
  deviceCode (self s) = Some d ->
  token_endpoint (world s) = (delay, Reject e) :: rest ->
  error_is e "authorization_pending" = false ->
  pollLoop (S n) s
  = (Throw (poll_failure e),
     received (PostToken (DeviceCodeGrant (DeviceCode.device_code d))) delay rest s).
Proof.
  intros Hd He Hp. simpl. unfold bind. by rewrite (pollOnce_rejected _ _ _ _ _ Hd He Hp).
Qed.

Lemma pollLoop_no_reply n s d :
  deviceCode (self s) = Some d ->
  token_endpoint (world s) = [] ->
  pollLoop (S n) s
  = (Throw (Error "Token polling failed: Network Error"),
     on_world (fun w => with_sent
       (PostToken (DeviceCodeGrant (DeviceCode.device_code d)) :: sent w) w) s).
Proof.
  intros Hd He. simpl. unfold bind. by rewrite (pollOnce_no_reply _ _ Hd He).
Qed.

(** As long as the replies are "authorization_pending", the loop asks again,
    and after [n] such replies out of [n] attempts it times out. *)
Lemma pollLoop_timeout n s d :
  deviceCode (self s) = Some d ->
  (n <= length (token_endpoint (world s)))%nat ->
  Forall (fun x => is_pending x = true) (take n (token_endpoint (world s))) ->
  exists s',
    pollLoop n s = (Throw timeout, s') /\
    length (sent (world s')) = (n + length (sent (world s)))%nat /\
    token_endpoint (world s') = drop n (token_endpoint (world s)) /\
    console (world s') = console (world s).
Proof.
  revert s. induction n as [|n IH]; intros s Hd Hlen Hall.
  - exists s. by rewrite drop_0.
  - destruct (token_endpoint (world s)) as [|[delay [r|e]] rest] eqn:He;
      simpl in Hlen; [lia| |].
    + apply Forall_cons in Hall as [Hp _]. done.
    + apply Forall_cons in Hall as [Hp Hall]. unfold is_pending in Hp. simpl in Hp.
      rewrite (pollLoop_pending _ _ _ _ _ _ Hd He Hp).
      edestruct IH as (s' & Hl & Hs & Ht & Hc); [| | |exists s'; split; [exact Hl|]].
      * exact Hd.
      * simpl. lia.
      * exact Hall.
      * simpl in *. split; [lia|]. by split.
Qed.

Lemma replicate_app_cons {A} (k : nat) (x : A) (l : list A) :
  replicate k x ++ x :: l = replicate (S k) x ++ l.
Proof. induction k as [|k IH]; [reflexivity|]. simpl. by rewrite IH. Qed.

(** The loop goes past the replies "authorization_pending": each costs one
    request, the time of the reply and the interval, and writes nothing. *)
Lemma pollLoop_skips_pendings pendings : forall n s d tail,
  deviceCode (self s) = Some d ->
  token_endpoint (world s) = pendings ++ tail ->
  Forall (fun x => is_pending x = true) pendings ->
  exists s1,
    pollLoop (length pendings + n) s = pollLoop n s1 /\
    deviceCode (self s1) = Some d /\
    token_endpoint (world s1) = tail /\
    sent (world s1)
    = replicate (length pendings) (PostToken (DeviceCodeGrant (DeviceCode.device_code d)))
        ++ sent (world s) /\
    now (world s1)
    = now (world s) + total_delay pendings
      + Z.of_nat (length pendings) * CONFIG.DEVICE_CODE_POLL_INTERVAL /\
    console (world s1) = console (world s).
Proof.
  induction pendings as [|[delay [r|e]] pendings IH]; intros n s d tail Hd He Hall.
  - exists s. unfold total_delay. simpl. repeat split; try done. lia.
  - apply Forall_cons in Hall as [Hp _]. done.
  - apply Forall_cons in Hall as [Hp Hall]. unfold is_pending in Hp. simpl in Hp.
    change (length ((delay, Reject e) :: pendings) + n)%nat
      with (S (length pendings + n)).
    rewrite (pollLoop_pending _ _ _ _ _ _ Hd He Hp).
    destruct (IH n
      (on_world (fun w => with_now (now w + CONFIG.DEVICE_CODE_POLL_INTERVAL) w)
         (received (PostToken (DeviceCodeGrant (DeviceCode.device_code d)))
            delay (pendings ++ tail) s)) d tail)
      as (s1 & Hl & Hd1 & He1 & Hs1 & Hn1 & Hc1); [exact Hd|reflexivity|exact Hall|].
    exists s1. split; [exact Hl|]. split; [exact Hd1|]. split; [exact He1|].
    split; [|split].
    + rewrite Hs1. simpl. by rewrite replicate_app_cons.
    + rewrite Hn1. unfold total_delay. simpl length. simpl.
      unfold CONFIG.DEVICE_CODE_POLL_INTERVAL. lia.
    + rewrite Hc1. reflexivity.
Qed.

(** C5, as the code has it.  A device authorization being held, the only
    failure of a turn that [pollForToken] swallows is the reply
    "authorization_pending": the loop then sleeps and asks again, at most
    [CONFIG.MAX_POLL_ATTEMPTS] times in all, after which it throws the
    timeout.  Every other failure, a request without reply and a transport
    error included, ends [pollForToken] where it first occurs, at the first
    request or at a later one.  So when the replies are [pendings], all of
    them "authorization_pending" and fewer than [CONFIG.MAX_POLL_ATTEMPTS],
    and then a failure [e] that is not "authorization_pending": the error
    goes to the caller, as "Authorization was declined by the user", "Device
    code expired. Please try again." or "Token polling failed: ..."; as many
    requests have been sent as there are [pendings], and one more; the
    replies after [e] are still to come; and nothing has been written to the
    console.  It is the same when after [pendings] no reply arrives.  And
    when the [pendings] are [CONFIG.MAX_POLL_ATTEMPTS], the timeout is thrown
    after as many requests. *)
Theorem pollForToken_retries_only_pending (s : State) (d : DeviceCode.t)
    (pendings tail : list (Z * reply TokenResponse.t)) :
  deviceCode (self s) = Some d ->
  token_endpoint (world s) = pendings ++ tail ->
  Forall (fun x => is_pending x = true) pendings ->
  ((length pendings < CONFIG.MAX_POLL_ATTEMPTS)%nat ->
   forall delay e rest,
     tail = (delay, Reject e) :: rest ->
     error_is e "authorization_pending" = false ->
     (pollForToken s).1
     = Throw (if error_is e "authorization_declined" then declined
              else if error_is e "expired_token" then expired
              else Error ("Token polling failed: "
                          +:+ Js.or_str (response_error_description e) (message e))) /\
     sent (world (pollForToken s).2)
     = replicate (S (length pendings))
         (PostToken (DeviceCodeGrant (DeviceCode.device_code d))) ++ sent (world s) /\
     token_endpoint (world (pollForToken s).2) = rest /\
     now (world (pollForToken s).2)
     = now (world s) + total_delay pendings
       + Z.of_nat (length pendings) * CONFIG.DEVICE_CODE_POLL_INTERVAL + delay /\
     console (world (pollForToken s).2) = console (world s)) /\
  ((length pendings < CONFIG.MAX_POLL_ATTEMPTS)%nat ->
   tail = [] ->
   (pollForToken s).1 = Throw (Error "Token polling failed: Network Error") /\
   sent (world (pollForToken s).2)
   = replicate (S (length pendings))
       (PostToken (DeviceCodeGrant (DeviceCode.device_code d))) ++ sent (world s) /\
   now (world (pollForToken s).2)
   = now (world s) + total_delay pendings
     + Z.of_nat (length pendings) * CONFIG.DEVICE_CODE_POLL_INTERVAL /\
   console (world (pollForToken s).2) = console (world s)) /\
  (length pendings = CONFIG.MAX_POLL_ATTEMPTS ->
   (pollForToken s).1 = Throw timeout /\
   sent (world (pollForToken s).2)
   = replicate CONFIG.MAX_POLL_ATTEMPTS
       (PostToken (DeviceCodeGrant (DeviceCode.device_code d))) ++ sent (world s) /\
   token_endpoint (world (pollForToken s).2) = tail /\
   console (world (pollForToken s).2) = console (world s)).
Proof.
  intros Hd He Hall. rewrite pollForToken_pollLoop.
  assert (forall m, (length pendings + S m)%nat = CONFIG.MAX_POLL_ATTEMPTS ->
            exists s1,
              pollLoop CONFIG.MAX_POLL_ATTEMPTS s = pollLoop (S m) s1 /\
              deviceCode (self s1) = Some d /\
              token_endpoint (world s1) = tail /\
              sent (world s1)
              = replicate (length pendings)
                  (PostToken (DeviceCodeGrant (DeviceCode.device_code d)))
                  ++ sent (world s) /\
              now (world s1)
              = now (world s) + total_delay pendings
                + Z.of_nat (length pendings) * CONFIG.DEVICE_CODE_POLL_INTERVAL /\
              console (world s1) = console (world s)) as Hskip.
  { intros m <-. exact (pollLoop_skips_pendings pendings (S m) s d tail Hd He Hall). }
  split; [|split].
  - intros Hlen delay e rest -> Hp.
    destruct (Hskip (Nat.pred (CONFIG.MAX_POLL_ATTEMPTS - length pendings)))
      as (s1 & -> & Hd1 & He1 & Hs1 & Hn1 & Hc1); [lia|].
    rewrite (pollLoop_rejected _ _ _ _ _ _ Hd1 He1 Hp). cbn [fst snd].
    split; [reflexivity|]. unfold received. simpl. rewrite Hs1, Hn1, Hc1.
    by repeat split.
  - intros Hlen ->.
    destruct (Hskip (Nat.pred (CONFIG.MAX_POLL_ATTEMPTS - length pendings)))
      as (s1 & -> & Hd1 & He1 & Hs1 & Hn1 & Hc1); [lia|].
    rewrite (pollLoop_no_reply _ _ _ Hd1 He1). cbn [fst snd].
    split; [reflexivity|]. unfold received. simpl. rewrite Hs1, Hn1, Hc1.
    by repeat split.
  - intros Hlen.
    destruct (pollLoop_skips_pendings pendings 0 s d tail Hd He Hall)
      as (s1 & Hl & Hd1 & He1 & Hs1 & Hn1 & Hc1).
    rewrite Nat.add_0_r, Hlen in Hl. rewrite Hl. simpl.
    rewrite Hs1, Hlen. by repeat split.
Qed.

End PollingProperties.

Section PollingWitnesses.

#[local] Existing Instance Sample.crypto.
#[local] Existing Instance Sample.json_blob.
#[local] Existing Instance Sample.json_tokens.
#[local] Existing Instance Sample.json_device.

(** C4 as stated fails.  The device flow being under way, the token endpoint
    grants the token ([Sample.granted]): [pollForToken] returns, and the
    device authorization is still held and still in the device file. *)
Lemma pollForToken_success_keeps_device_authorization :
  (pollForToken Sample.granted).1 = Return tt /\
  deviceCode (self (pollForToken Sample.granted).2) = Some Sample.held_device /\
  stored (pollForToken Sample.granted).2 CONFIG.DEVICE_FILE = Some Sample.held_device.
Proof. vm_compute. auto. Qed.

(** The user declines: [pollForToken] throws, no token set is held, and the
    device authorization is what it was. *)
Lemma pollForToken_keeps_device_authorization_witness :
  (pollForToken Sample.declining).1 = Throw declined /\
  tokens (self (pollForToken Sample.declining).2) = tokens (self Sample.declining).
Proof.
  split; [reflexivity|].
  apply (pollForToken_keeps_device_authorization Sample.declining). left. reflexivity.
Defined.

(** C5 as stated fails.  The first request of the poll meets a transport
    error and the second would be granted ([Sample.flaky]): [pollForToken]
    throws after the first request and the grant is never asked for. *)
Lemma pollForToken_network_error_not_retried :
  (pollForToken Sample.flaky).1 = Throw (Error "Token polling failed: Network Error") /\
  sent (world (pollForToken Sample.flaky).2)
  = PostToken (DeviceCodeGrant "DEV-123") :: sent (world Sample.flaky) /\
  token_endpoint (world (pollForToken Sample.flaky).2)
  = [(100, Resolve Sample.token_reply)] /\
  tokens (self (pollForToken Sample.flaky).2) = None.
Proof. vm_compute. auto. Qed.

(** A transport error on the second request, the first having been answered
    "authorization_pending", ends the poll there: two requests have been
    sent and the grant is still to come. *)
Lemma pollForToken_retries_only_pending_witness :
  (pollForToken Examples.flaky_later).1
  = Throw (Error "Token polling failed: Network Error") /\
  sent (world (pollForToken Examples.flaky_later).2)
  = [PostToken (DeviceCodeGrant "DEV-123"); PostToken (DeviceCodeGrant "DEV-123")]
      ++ sent (world Examples.flaky_later) /\
  token_endpoint (world (pollForToken Examples.flaky_later).2)
  = [(100, Resolve Sample.token_reply)] /\
  now (world (pollForToken Examples.flaky_later).2)
  = now (world Examples.flaky_later) + 100 + 5000 + 100 /\
  console (world (pollForToken Examples.flaky_later).2)
  = console (world Examples.flaky_later).
Proof.
  apply (proj1 (pollForToken_retries_only_pending
                  Examples.flaky_later Sample.held_device
                  [(100, Reject (Sample.refused "authorization_pending"))]
                  [(100, Reject NetworkError); (100, Resolve Sample.token_reply)]
                  eq_refl eq_refl
                  ltac:(repeat constructor))
           ltac:(unfold CONFIG.MAX_POLL_ATTEMPTS; simpl; lia)
           100 NetworkError [(100, Resolve Sample.token_reply)] eq_refl eq_refl).
Defined.

End PollingWitnesses.

(* ===================================================================== *)
(** * Properties of issuance *)
(* ===================================================================== *)

Section IssuanceProperties.

Context {crypto : Crypto}.
Context {json_blob : JSON EncryptedData}.
Context {json_tokens : JSON TokenSet.t}.
Context {json_device : JSON DeviceCode.t}.





(** Beyond the safe range the code rounds: a lifetime of 2^53 seconds
    granted when the clock reads 1000500 gives an expiry 52 ms short of the
    sum. *)
Lemma expires_at_rounded :
  Js.plus 1000500 (Js.times (2 ^ 53) 1000) = 1000500 + 2 ^ 53 * 1000 - 52.
Proof. vm_compute. reflexivity. Qed.


End IssuanceProperties.

Section IssuanceWitnesses.

#[local] Existing Instance Sample.crypto.
#[local] Existing Instance Sample.json_blob.
#[local] Existing Instance Sample.json_tokens.
#[local] Existing Instance Sample.json_device.



End IssuanceWitnesses.

(* ===================================================================== *)
(** * Properties of saving and of initialization *)
(* ===================================================================== *)

Section StorageProperties.

Context {crypto : Crypto}.
Context {json_blob : JSON EncryptedData}.
Context {json_tokens : JSON TokenSet.t}.
Context {json_device : JSON DeviceCode.t}.

Lemma lookup_saved {A} `{JSON A} key path (data : A) s :
  files (world (saved key path data s)) !! path
  = Some (File (stringify (sealed key s data))).
Proof. simpl. apply lookup_insert_eq. Qed.

(** C10.  [saveTokens] and [saveDeviceCode] do nothing at all when the value
    they would save is [null]: the call returns and the state, the files
    included, is what it was.  When the value is held, and the file can be
    written, they write to their file the blob that [encrypt] makes of it. *)
Theorem saves_only_what_is_held (s : State) :
  (tokens (self s) = None -> saveTokens s = (Return tt, s)) /\
  (deviceCode (self s) = None -> saveDeviceCode s = (Return tt, s)) /\
  (forall t key,
      tokens (self s) = Some t ->
      effective_key s = Some key ->
      storable s CONFIG.TOKEN_FILE ->
      exists s',
        saveTokens s = (Return tt, s') /\
        files (world s') !! CONFIG.TOKEN_FILE
        = Some (File (stringify (sealed key s t)))) /\
  (forall d key,
      deviceCode (self s) = Some d ->
      effective_key s = Some key ->
      storable s CONFIG.DEVICE_FILE ->
      exists s',
        saveDeviceCode s = (Return tt, s') /\
        files (world s') !! CONFIG.DEVICE_FILE
        = Some (File (stringify (sealed key s d)))).
Proof.
  split; [apply saveTokens_none|]. split; [apply saveDeviceCode_none|]. split.
  - intros t key Ht Hk Hst. rewrite (saveTokens_some _ _ Ht).
    rewrite (saveEncryptedData_ok _ _ _ _ Hk Hst). eexists. split; [reflexivity|].
    apply lookup_saved.
  - intros d key Hd Hk Hst. rewrite (saveDeviceCode_some _ _ Hd).
    rewrite (saveEncryptedData_ok _ _ _ _ Hk Hst). eexists. split; [reflexivity|].
    apply lookup_saved.
Qed.

Lemma TOKEN_FILE_not_DATA_DIR : CONFIG.TOKEN_FILE ∉ [CONFIG.DATA_DIR].
Proof. by intros ?%list_elem_of_singleton. Qed.

Lemma DEVICE_FILE_not_DATA_DIR : CONFIG.DEVICE_FILE ∉ [CONFIG.DATA_DIR].
Proof. by intros ?%list_elem_of_singleton. Qed.

(** [initialize] once the data directory is there. *)
Lemma initialize_ok s :
  unwritable (world s) !! CONFIG.DATA_DIR = None ->
  (forall content, files (world s) !! CONFIG.DATA_DIR <> Some (File content)) ->
  exists s3,
    frame [CONFIG.DATA_DIR] s s3 /\
    files (world s3) !! CONFIG.DATA_DIR = Some Directory /\
    initialize s
    = (Return tt,
       on_self (fun a => with_deviceCode (stored s CONFIG.DEVICE_FILE)
                           (with_tokens (stored s CONFIG.TOKEN_FILE) a)) s3).
Proof.
  intros Hw Hf. destruct (mkdir_ok s Hw Hf) as (s1 & Hm & Hfr1 & Hdir).
  destruct (loadTokens_spec s1) as (s2 & Hfr2 & Ht).
  destruct (loadDeviceCode_spec (on_self (with_tokens (stored s1 CONFIG.TOKEN_FILE)) s2))
    as (s3 & Hfr3 & Hd).
  assert (stored (A:=TokenSet.t) s1 CONFIG.TOKEN_FILE = stored s CONFIG.TOKEN_FILE) as Hst.
  { exact (frame_stored _ _ _ _ TOKEN_FILE_not_DATA_DIR Hfr1). }
  assert (stored (A:=DeviceCode.t)
            (on_self (with_tokens (stored s1 CONFIG.TOKEN_FILE)) s2) CONFIG.DEVICE_FILE
          = stored s CONFIG.DEVICE_FILE) as Hsd.
  { rewrite stored_with_tokens.
    rewrite (frame_stored [] s1 s2); [|set_solver|exact Hfr2].
    exact (frame_stored _ _ _ _ DEVICE_FILE_not_DATA_DIR Hfr1). }
  rewrite Hsd in Hd. rewrite Hst in Ht, Hd.
  exists (logged [Stdout "AuthManager initialized successfully"]
            (on_self (with_tokens (tokens (self s))) s3)).
  split; [|split].
  - eapply frame_trans; [exact Hfr1|].
    eapply frame_weaken; [apply list_subseteq_nil|].
    eapply frame_trans; [exact Hfr2|].
    destruct Hfr3 as [f1 f2 f3 f4 f5 f6 f7 f8 f9 f10 f11].
    unfold effective_key in *.
    constructor; simpl in *; try assumption.
    by rewrite (frame_tokens _ _ _ Hfr2), (frame_tokens _ _ _ Hfr1).
  - simpl. rewrite (frame_same_files _ _ Hfr3). simpl.
    by rewrite (frame_same_files _ _ Hfr2).
  - pose proof (frame_tokens _ _ _ Hfr3) as Htk. simpl in Htk. rewrite Hst in Htk.
    unfold initialize, try_catch, bind. rewrite Hm, Ht, Hd.
    unfold console_log, modify, logged, on_self, on_world, with_deviceCode, with_tokens.
    simpl. rewrite Htk. reflexivity.
Qed.

Lemma initialize_fail s e :
  mkdir CONFIG.DATA_DIR s = (Throw e, s) ->
  initialize s
  = (Throw e, logged [Stderr ("AuthManager initialization failed: " +:+ message e)] s).
Proof. intros Hm. unfold initialize, try_catch, bind. by rewrite Hm. Qed.


End StorageProperties.

Section StorageWitnesses.

#[local] Existing Instance Sample.crypto.
#[local] Existing Instance Sample.json_blob.
#[local] Existing Instance Sample.json_tokens.
#[local] Existing Instance Sample.json_device.

(** With nothing held [saveTokens] changes nothing; with a token set held it
    writes the token file. *)
Lemma saves_only_what_is_held_witness :
  saveTokens Sample.started = (Return tt, Sample.started) /\
  exists s',
    saveTokens Sample.holding_tokens = (Return tt, s') /\
    files (world s') !! CONFIG.TOKEN_FILE
    = Some (File (stringify
        (sealed (pbkdf2Sync "machine-0001") Sample.holding_tokens Sample.held_tokens))).
Proof.
  split.
  - apply (saves_only_what_is_held Sample.started). reflexivity.
  - apply (proj1 (proj2 (proj2 (saves_only_what_is_held Sample.holding_tokens))));
      [reflexivity | reflexivity |].
    split; [by eexists|]. split; [reflexivity|]. split; [reflexivity|].
    vm_compute. discriminate.
Defined.



End StorageWitnesses.

(* ===================================================================== *)
(** * Properties of getValidAccessToken *)
(* ===================================================================== *)

Section VendingProperties.

Context {crypto : Crypto}.
Context {json_blob : JSON EncryptedData}.
Context {json_tokens : JSON TokenSet.t}.
Context {json_device : JSON DeviceCode.t}.

(** A refresh sends at most one request, and that one asks for a refresh. *)
Lemma refreshAccessToken_sends_once s :
  sent (world (refreshAccessToken s).2) = sent (world s) \/
  exists held rt,
    tokens (self s) = Some held /\
    TokenSet.refresh_token held = Some rt /\
    sent (world (refreshAccessToken s).2)
    = PostToken (RefreshTokenGrant rt) :: sent (world s).
Proof.
  destruct (refreshAccessToken_cases s)
    as [Hn|held rt Ht Hrt Htr He|held rt delay e rest Ht Hrt Htr He
        |held rt delay r rest key Ht Hrt Htr He Hk Hst
        |held rt delay r rest m s2 Ht Hrt Htr He Hst Hfr];
    [by left|right; exists held, rt; split; [done|split; [done|]]..].
  - reflexivity.
  - reflexivity.
  - reflexivity.
  - simpl. by rewrite (frame_sent _ _ _ Hfr).
Qed.

(** When a refresh returns, the token endpoint has granted it at the first
    request, and the access token held is the one granted. *)
Lemma refreshAccessToken_returns s s' :
  refreshAccessToken s = (Return tt, s') ->
  exists held rt delay r rest,
    tokens (self s) = Some held /\
    TokenSet.refresh_token held = Some rt /\
    token_endpoint (world s) = (delay, Resolve r) :: rest /\
    tokens (self s') = Some (issued_by_refresh held r (now (world s) + delay)) /\
    sent (world s') = PostToken (RefreshTokenGrant rt) :: sent (world s) /\
    token_endpoint (world s') = rest.
Proof.
  intros Hr. pose proof (refreshAccessToken_cases s) as Hc.
  rewrite Hr in Hc. simpl in Hc.
  inversion Hc as [| | |held rt delay r rest key Ht Hrt Htr He Hk Hst|]; subst.
  exists held, rt, delay, r, rest. repeat split; done.
Qed.

(** C3.  A token set [held] being held:
    - outside the buffer of five minutes before its expiry,
      [getValidAccessToken] returns the access token held and changes
      nothing: no refresh, no request, no line written;
    - within the buffer, whenever [getValidAccessToken] returns a value, just
      one request has been sent, a refresh with the refresh token held, the
      token endpoint has granted it, and the value is the access token of
      that grant;
    - within the buffer no more than one request is sent, however the call
      ends;
    - within the buffer the call does return, with the granted access token,
      when the refresh token held is not empty, the token endpoint grants
      the refresh and the token file can be written. *)
Theorem getValidAccessToken_refreshes_when_due (s : State) (held : TokenSet.t) :
  tokens (self s) = Some held ->
  CONFIG.TOKEN_EXPIRY_BUFFER = 300000 /\
  (now (world s) < TokenSet.expires_at held - CONFIG.TOKEN_EXPIRY_BUFFER ->
   getValidAccessToken s = (Return (TokenSet.access_token held), s)) /\
  (now (world s) >= TokenSet.expires_at held - CONFIG.TOKEN_EXPIRY_BUFFER ->
   (forall v s',
       getValidAccessToken s = (Return v, s') ->
       exists rt delay r rest,
         TokenSet.refresh_token held = Some rt /\
         token_endpoint (world s) = (delay, Resolve r) :: rest /\
         v = TokenResponse.access_token r /\
         sent (world s') = PostToken (RefreshTokenGrant rt) :: sent (world s) /\
         token_endpoint (world s') = rest) /\
   (sent (world (getValidAccessToken s).2) = sent (world s) \/
    exists rt,
      TokenSet.refresh_token held = Some rt /\
      sent (world (getValidAccessToken s).2)
      = PostToken (RefreshTokenGrant rt) :: sent (world s)) /\
   (forall rt delay r rest,
       TokenSet.refresh_token held = Some rt ->
       Js.truthy (Some rt) = true ->
       token_endpoint (world s) = (delay, Resolve r) :: rest ->
       storable s CONFIG.TOKEN_FILE ->
       exists s',
         getValidAccessToken s = (Return (TokenResponse.access_token r), s') /\
         tokens (self s') = Some (issued_by_refresh held r (now (world s) + delay)))).
Proof.
  intros Ht. split; [reflexivity|]. split; [by apply getValidAccessToken_fresh|].
  intros Hn.
  set (s0 := logged [Stdout "Token expired or about to expire, refreshing..."] s).
  assert (tokens (self s0) = Some held) as Ht0 by exact Ht.
  destruct (refreshAccessToken s0) as [res s1] eqn:Hr.
  pose proof (getValidAccessToken_stale _ _ _ _ Ht Hn Hr) as Hg.
  split; [|split].
  - intros v s' Hv. rewrite Hg in Hv. destruct res as [[]|e]; [|done].
    destruct (refreshAccessToken_returns _ _ Hr)
      as (held' & rt & delay & r & rest & Ht' & Hrt & He & Hts & Hs & Hte).
    simpl in Ht'. rewrite Ht in Ht'. injection Ht' as <-.
    rewrite Hts in Hv. injection Hv as <- <-.
    exists rt, delay, r, rest. by repeat split.
  - rewrite Hg. pose proof (refreshAccessToken_sends_once s0) as Hso.
    rewrite Hr in Hso. simpl in Hso.
    assert ((match res with
             | Return _ =>
                 match tokens (self s1) with
                 | Some t => (Return (TokenSet.access_token t), s1)
                 | None => (Throw (TypeError "access_token"), s1)
                 end
             | Throw e => (Throw e, s1)
             end).2 = s1) as ->.
    { destruct res as [[]|e]; [|done]. by destruct (tokens (self s1)). }
    destruct Hso as [Hso|(held' & rt & Ht' & Hrt & Hso)]; [by left|].
    simpl in Ht'. rewrite Ht in Ht'. injection Ht' as <-. right. by exists rt.
  - intros rt delay r rest Hrt Htr He Hst.
    destruct (proj1 Hst) as [key Hk].
    destruct rt as [|c rt]; [done|].
    assert (refreshAccessToken s0
            = (Return tt,
               logged [Stdout "Token refreshed successfully"]
                 (saved key CONFIG.TOKEN_FILE
                    (issued_by_refresh held r (now (world s0) + delay))
                    (on_self (with_tokens
                       (Some (issued_by_refresh held r (now (world s0) + delay))))
                       (received (PostToken (RefreshTokenGrant (String c rt)))
                          delay rest s0))))) as Hr'.
    { erewrite refreshAccessToken_resolved; [| exact Ht0 | exact Hrt | exact He |].
      2:{ apply saveEncryptedData_ok; [exact Hk | exact Hst]. }
      reflexivity. }
    rewrite Hr' in Hr. injection Hr as <- <-.
    rewrite Hg. simpl. eauto.
Qed.

End VendingProperties.

(* ===================================================================== *)
(** * Properties of the device flow *)
(* ===================================================================== *)

Section DeviceFlowProperties.

Context {crypto : Crypto}.
Context {json_blob : JSON EncryptedData}.
Context {json_tokens : JSON TokenSet.t}.
Context {json_device : JSON DeviceCode.t}.

(** The detached poll never throws: it writes what became of the poll to
    standard error. *)
Lemma pollForTokenInBackground_spec s :
  pollForTokenInBackground s
  = match pollForToken (logged [Stderr "[POLL] Starting background token polling"] s) with
    | (Return _, s1) =>
        (Return tt, logged [Stderr "[POLL] Background polling completed successfully"] s1)
    | (Throw e, s1) =>
        (Return tt,
         logged [Stderr ("[POLL ERROR] Background polling failed: " +:+ message e)] s1)
    end.
Proof.
  unfold pollForTokenInBackground. unfold bind at 1. unfold stderr_write at 1, modify.
  change (on_world (λ w, with_console
            (Stderr "[POLL] Starting background token polling" :: console w) w) s)
    with (logged [Stderr "[POLL] Starting background token polling"] s).
  unfold try_catch, bind.
  destruct (pollForToken _) as [[[]|e] s1]; reflexivity.
Qed.

(** What is left of it, when it runs, does not throw either. *)
Lemma pollForTokenInBackground_resumed_spec s :
  pollForTokenInBackground_resumed s
  = match pollForToken_resumed s with
    | (Return _, s1) =>
        (Return tt, logged [Stderr "[POLL] Background polling completed successfully"] s1)
    | (Throw e, s1) =>
        (Return tt,
         logged [Stderr ("[POLL ERROR] Background polling failed: " +:+ message e)] s1)
    end.
Proof.
  unfold pollForTokenInBackground_resumed, try_catch, bind.
  destruct (pollForToken_resumed s) as [[[]|e] s1]; reflexivity.
Qed.

(** A request to the token endpoint is its two steps, one after the other. *)
Lemma post_token_in_two_steps g s :
  post_token g s = (send_token g ;; await_token) s.
Proof.
  unfold post_token, send_token, await_token, bind, modify. simpl.
  by destruct (token_endpoint (world s)) as [|[delay r] rest].
Qed.

(** A turn of the loop is the sending of its request and then what is left
    of the turn. *)
Lemma pollOnce_in_two_steps s d :
  deviceCode (self s) = Some d ->
  pollOnce s
  = pollOnce_resumed
      (on_world (fun w => with_sent
         (PostToken (DeviceCodeGrant (DeviceCode.device_code d)) :: sent w) w) s).
Proof.
  intros Hd. unfold pollOnce, pollOnce_resumed, try_catch, this_deviceCode, bind, get.
  rewrite Hd. unfold ret. rewrite post_token_in_two_steps.
  unfold bind, send_token, modify. reflexivity.
Qed.

Lemma pollForToken_in_two_steps s d :
  deviceCode (self s) = Some d ->
  pollForToken s
  = pollForToken_resumed
      (on_world (fun w => with_sent
         (PostToken (DeviceCodeGrant (DeviceCode.device_code d)) :: sent w) w) s).
Proof.
  intros Hd. rewrite pollForToken_pollLoop. unfold pollForToken_resumed.
  change (pollLoop CONFIG.MAX_POLL_ATTEMPTS)
    with (t <- pollOnce ;;
          match t with
          | Finished => ret tt
          | Continue => pollLoop (CONFIG.MAX_POLL_ATTEMPTS - 1)
          end).
  unfold bind at 1 2.
  by rewrite (pollOnce_in_two_steps _ d).
Qed.

(** [pollForTokenInBackground], awaited, is what the call without [await]
    does at once (its first line, the first request) and then what is left
    of it. *)
Lemma pollForTokenInBackground_in_two_steps s d :
  deviceCode (self s) = Some d ->
  pollForTokenInBackground s
  = pollForTokenInBackground_resumed
      (on_world (fun w => with_sent
         (PostToken (DeviceCodeGrant (DeviceCode.device_code d)) :: sent w) w)
         (logged [Stderr "[POLL] Starting background token polling"] s)).
Proof.
  intros Hd. rewrite pollForTokenInBackground_spec, pollForTokenInBackground_resumed_spec.
  by rewrite (pollForToken_in_two_steps _ d).
Qed.

(** C2, as the code has it.  No token set being held:
    - [getValidAccessToken] never returns a token: it throws;
    - when the device-code endpoint replies with a device code and the device
      file can be written, it throws the error whose message is the JSON text
      of the instructions, with the verification URI, the user code and the
      lifetime of that reply; the device authorization is held and has been
      written to the device file; the background poll has been started and
      not awaited: it has sent its first request to the token endpoint, after
      the device-code request, and what is left of it is detached; no reply
      of the token endpoint has been waited for;
    - when the device-code request gets no reply, or an error reply whose
      message does not contain "authentication_required", it throws
      "Authentication failed: ..." instead, and no poll is started;
    - what is left of the background poll, when it runs, never throws: a
      failure of the poll ends as a line on standard error;
    - what the call has done at once and what is left of it are together
      [pollForTokenInBackground]. *)
Theorem getValidAccessToken_starts_device_flow (s : State) :
  tokens (self s) = None ->
  (exists e s', getValidAccessToken s = (Throw e, s')) /\
  (forall delay r rest key,
      device_endpoint (world s) = (delay, Resolve r) :: rest ->
      effective_key s = Some key ->
      storable s CONFIG.DEVICE_FILE ->
      exists s',
        getValidAccessToken s
        = (Throw (Error (stringify_authInstructions {|
             AuthInstructions.verification_uri := DeviceCodeResponse.verification_uri r;
             AuthInstructions.user_code := DeviceCodeResponse.user_code r;
             AuthInstructions.expires_in := DeviceCodeResponse.expires_in r |})), s') /\
        deviceCode (self s') = Some (device_of r) /\
        files (world s') !! CONFIG.DEVICE_FILE
        = Some (File (stringify (sealed key s (device_of r)))) /\
        detached (world s') = BackgroundPoll :: detached (world s) /\
        sent (world s')
        = PostToken (DeviceCodeGrant (DeviceCodeResponse.device_code r))
            :: PostDeviceCode :: sent (world s) /\
        token_endpoint (world s') = token_endpoint (world s) /\
        now (world s') = now (world s) + delay /\
        tokens (self s') = None) /\
  (device_endpoint (world s) = [] ->
   exists s',
     getValidAccessToken s = (Throw (Error "Authentication failed: Network Error"), s') /\
     detached (world s') = detached (world s) /\
     sent (world s') = PostDeviceCode :: sent (world s) /\
     deviceCode (self s') = deviceCode (self s) /\
     files (world s') = files (world s)) /\
  (forall delay e rest,
      device_endpoint (world s) = (delay, Reject e) :: rest ->
      Js.includes "authentication_required" (message e) = false ->
      exists s',
        getValidAccessToken s
        = (Throw (Error ("Authentication failed: "
                         +:+ Js.or_str (response_error_description e) (message e))), s') /\
        detached (world s') = detached (world s) /\
        sent (world s') = PostDeviceCode :: sent (world s) /\
        deviceCode (self s') = deviceCode (self s) /\
        files (world s') = files (world s)) /\
  (forall s0, exists s', run BackgroundPoll s0 = (Return tt, s')) /\
  (forall s0 e s1,
      pollForToken_resumed s0 = (Throw e, s1) ->
      run BackgroundPoll s0
      = (Return tt,
         logged [Stderr ("[POLL ERROR] Background polling failed: " +:+ message e)] s1)) /\
  (forall s0 d,
      deviceCode (self s0) = Some d ->
      pollForTokenInBackground s0
      = run BackgroundPoll
          (on_world (fun w => with_sent
             (PostToken (DeviceCodeGrant (DeviceCode.device_code d)) :: sent w) w)
             (logged [Stderr "[POLL] Starting background token polling"] s0))).
Proof.
  intros Ht. split; [|split; [|split; [|split; [|split; [|split]]]]].
  - destruct (authenticate_throws s) as (e & s' & Ha).
    exists e, s'. by apply getValidAccessToken_no_tokens.
  - intros delay r rest key He Hk Hst.
    eexists. split.
    + apply (getValidAccessToken_no_tokens _ _ _ Ht).
      erewrite authenticate_resolved; [| exact He |].
      2:{ apply saveEncryptedData_ok; [exact Hk | exact Hst]. }
      reflexivity.
    + split; [reflexivity|]. split; [apply lookup_insert_eq|].
      repeat split; exact Ht.
  - intros He. eexists. split.
    + apply (getValidAccessToken_no_tokens _ _ _ Ht), (authenticate_no_reply _ He).
    + by repeat split.
  - intros delay e rest He Hi. eexists. split.
    + apply (getValidAccessToken_no_tokens _ _ _ Ht).
      rewrite (authenticate_rejected _ _ _ _ He). unfold auth_failure. rewrite Hi.
      reflexivity.
    + by repeat split.
  - intros s0. simpl. rewrite pollForTokenInBackground_resumed_spec.
    destruct (pollForToken_resumed _) as [[[]|e] s1]; eauto.
  - intros s0 e s1 Hp. simpl. by rewrite pollForTokenInBackground_resumed_spec, Hp.
  - intros s0 d Hd. by apply pollForTokenInBackground_in_two_steps.
Qed.

(** A refresh that the token endpoint does not grant clears the token set
    held and leaves every file as it was. *)
Lemma refreshAccessToken_failure_keeps_files s held rt :
  tokens (self s) = Some held ->
  TokenSet.refresh_token held = Some rt ->
  Js.truthy (Some rt) = true ->
  (forall delay r rest, token_endpoint (world s) <> (delay, Resolve r) :: rest) ->
  (refreshAccessToken s).1 = Throw refresh_failed /\
  tokens (self (refreshAccessToken s).2) = None /\
  files (world (refreshAccessToken s).2) = files (world s).
Proof.
  intros Ht Hrt Htr Hne.
  destruct (refreshAccessToken_cases s)
    as [Hn|held' rt' Ht' Hrt' Htr' He|held' rt' delay e rest Ht' Hrt' Htr' He
        |held' rt' delay r rest key Ht' Hrt' Htr' He Hk Hst
        |held' rt' delay r rest m s2 Ht' Hrt' Htr' He Hst Hfr].
  - specialize (Hn _ Ht). rewrite Hrt in Hn. congruence.
  - done.
  - done.
  - by destruct (Hne _ _ _ He).
  - by destruct (Hne _ _ _ He).
Qed.

End DeviceFlowProperties.

Section VendingWitnesses.

#[local] Existing Instance Sample.crypto.
#[local] Existing Instance Sample.json_blob.
#[local] Existing Instance Sample.json_tokens.
#[local] Existing Instance Sample.json_device.

(** Right after the grant the token set is fresh and its access token is
    returned as it is; two hours later it is refreshed first and the access
    token of the new grant is returned. *)
Lemma getValidAccessToken_refreshes_when_due_witness :
  getValidAccessToken Sample.signed_in = (Return "access-2", Sample.signed_in) /\
  exists s',
    getValidAccessToken Sample.refreshing = (Return "access-3", s') /\
    sent (world s')
    = PostToken (RefreshTokenGrant "refresh-2") :: sent (world Sample.refreshing).
Proof.
  split.
  - apply (proj1 (proj2 (getValidAccessToken_refreshes_when_due Sample.signed_in
             (issued_by_poll Sample.token_reply 1000500) eq_refl))).
    vm_compute. reflexivity.
  - destruct (getValidAccessToken Sample.refreshing) as [res s'] eqn:Hg.
    assert (res = Return "access-3") as -> by (by vm_compute in Hg; injection Hg as <- _).
    exists s'. split; [reflexivity|].
    destruct (proj1 (proj2 (proj2 (getValidAccessToken_refreshes_when_due Sample.refreshing
                (issued_by_poll Sample.token_reply 1000500) eq_refl))
                ltac:(vm_compute; discriminate)) "access-3" s' Hg)
      as (rt & delay & r & rest & Hrt & _ & _ & Hs & _).
    injection Hrt as <-. exact Hs.
Defined.

(** C2 as stated fails.  No token set is held and the device-code request
    gets no reply ([Sample.started]): [getValidAccessToken] throws
    "Authentication failed: Network Error", which carries no instructions;
    no device authorization is held or stored and no poll has been started. *)
Lemma getValidAccessToken_without_reply_gives_no_instructions :
  tokens (self Sample.started) = None /\
  (getValidAccessToken Sample.started).1
  = Throw (Error "Authentication failed: Network Error") /\
  Js.includes "authentication_required" "Authentication failed: Network Error" = false /\
  detached (world (getValidAccessToken Sample.started).2) = [] /\
  deviceCode (self (getValidAccessToken Sample.started).2) = None /\
  files (world (getValidAccessToken Sample.started).2) !! CONFIG.DEVICE_FILE = None.
Proof. vm_compute. auto 10. Qed.

(** On a first run on which the device-code endpoint replies, the call throws
    the instructions and the poll is detached. *)
Lemma getValidAccessToken_starts_device_flow_witness :
  exists s',
    getValidAccessToken Sample.first_contact
    = (Throw (Error (stringify_authInstructions {|
         AuthInstructions.verification_uri := "https://microsoft.com/devicelogin";
         AuthInstructions.user_code := "ABCD-EFGH";
         AuthInstructions.expires_in := 900 |})), s') /\
    detached (world s') = [BackgroundPoll] /\
    deviceCode (self s') = Some Sample.held_device.
Proof.
  destruct (proj1 (proj2 (getValidAccessToken_starts_device_flow Sample.first_contact
              eq_refl)) 200 Sample.device_reply [] (pbkdf2Sync "machine-0001"))
    as (s' & Hg & Hd & _ & Hdet & _); [reflexivity | reflexivity | |].
  - split; [by eexists|]. split; [reflexivity|]. split; [reflexivity|].
    vm_compute. discriminate.
  - exists s'. split; [exact Hg|]. split; [exact Hdet|exact Hd].
Defined.

(** C1 on [Sample.refused_refresh]: a token set is held and stored, it has
    expired, and the token endpoint refuses the refresh with "invalid_grant".
    [getValidAccessToken] throws "Token refresh failed. Please
    re-authenticate." and the manager holds no token set; the next call
    starts the device flow.  But the token file has not been touched: it
    still holds the token set that was cleared, and a manager that starts
    again on these files holds it again. *)
Lemma refresh_failure_leaves_stale_token_file :
  (getValidAccessToken Sample.refused_refresh).1 = Throw refresh_failed /\
  tokens (self (getValidAccessToken Sample.refused_refresh).2) = None /\
  (getValidAccessToken (getValidAccessToken Sample.refused_refresh).2).1
  = Throw (Error (stringify_authInstructions (instructions_of Sample.device_reply))) /\
  files (world (getValidAccessToken Sample.refused_refresh).2) !! CONFIG.TOKEN_FILE
  = files (world Sample.refused_refresh) !! CONFIG.TOKEN_FILE /\
  stored (getValidAccessToken Sample.refused_refresh).2 CONFIG.TOKEN_FILE
  = Some (issued_by_poll Sample.token_reply 1000500) /\
  tokens (self (initialize
                  (Sample.restarted (getValidAccessToken Sample.refused_refresh).2)).2)
  = Some (issued_by_poll Sample.token_reply 1000500).
Proof. vm_compute. auto 10. Qed.

End VendingWitnesses.

(* ===================================================================== *)
(** * The sample codec decodes what it encodes *)
(* ===================================================================== *)

Module SampleLaws.

Lemma split_no_comma (s : string) : Examples.no_comma s = true -> Sample.split s = [s].
Proof.
  induction s as [|c s IH]; [done|]. simpl.
  intros [Hc Hs]%andb_true_iff. apply negb_true_iff in Hc. rewrite Hc.
  by rewrite (IH Hs).
Qed.

Lemma split_app_comma (h rest : string) :
  Examples.no_comma h = true ->
  Sample.split (h +:+ String "," rest) = h :: Sample.split rest.
Proof.
  induction h as [|c h IH]; [done|]. simpl.
  intros [Hc Hs]%andb_true_iff. apply negb_true_iff in Hc. rewrite Hc.
  by rewrite (IH Hs).
Qed.

Lemma no_comma_hex (buf : list byte) : Examples.no_comma (Buffer.toString_hex buf) = true.
Proof.
  induction buf as [|b buf IH]; [done|].
  cbn [Buffer.toString_hex Examples.no_comma]. rewrite IH. by destruct b.
Qed.

Lemma unhex_hex (f : string) :
  Sample.unhex (Buffer.toString_hex (Buffer.from_utf8 f)) = Some f.
Proof.
  unfold Sample.unhex. rewrite BufferFacts.from_hex_toString_hex, String.eqb_refl.
  by rewrite BufferFacts.toString_utf8_from_utf8.
Qed.

Lemma join_cons {A} (h : A -> string) (a : string) (b : A) (l : list A) :
  Sample.join (a :: map h (b :: l)) = a +:+ String "," (Sample.join (map h (b :: l))).
Proof. reflexivity. Qed.

Lemma unpack_pack (f : string) (fields : list string) :
  Sample.unpack (Sample.pack (f :: fields)) = Some (f :: fields).
Proof.
  unfold Sample.unpack, Sample.pack. revert f.
  induction fields as [|g fields IH]; intros f.
  - simpl. rewrite split_no_comma by apply no_comma_hex. simpl.
    by rewrite unhex_hex.
  - rewrite (map_cons _ f), join_cons, split_app_comma by apply no_comma_hex.
    cbn [mapM]. rewrite unhex_hex, (IH g). reflexivity.
Qed.

Lemma read_digits_app (s1 s2 : string) (a : N) :
  Sample.read_digits (s1 +:+ s2) a = Sample.read_digits s1 a ≫= Sample.read_digits s2.
Proof.
  revert a. induction s1 as [|c s1 IH]; intros a; [done|]. simpl.
  destruct (_ && _); [apply IH|done].
Qed.

Lemma append_assoc (a b c : string) : (a +:+ b) +:+ c = a +:+ (b +:+ c).
Proof.
  induction a as [|x a IH]; [done|].
  change (String x ((a +:+ b) +:+ c) = String x (a +:+ (b +:+ c))). by rewrite IH.
Qed.

Lemma digits_acc (fuel : nat) (n : N) (acc : string) :
  Js.digits fuel n acc = Js.digits fuel n EmptyString +:+ acc.
Proof.
  revert n acc. induction fuel as [|fuel IH]; intros n acc; [done|]. simpl.
  destruct (n <? 10)%N; [done|].
  rewrite (IH _ (String _ acc)), (IH _ (String _ EmptyString)).
  by rewrite append_assoc.
Qed.

Lemma read_digit (d a : N) :
  (d < 10)%N ->
  Sample.read_digits (String (ascii_of_N (48 + d)) EmptyString) a = Some (10 * a + d)%N.
Proof.
  intros Hd. simpl. rewrite N_ascii_embedding by lia.
  replace ((48 <=? 48 + d)%N && (48 + d <=? 57)%N) with true.
  - f_equal. lia.
  - symmetry. apply andb_true_iff. split; apply N.leb_le; lia.
Qed.

Lemma read_digits_digits (fuel : nat) (n : N) :
  (n < 10 ^ N.of_nat fuel)%N ->
  Sample.read_digits (Js.digits fuel n EmptyString) 0 = Some n.
Proof.
  revert n. induction fuel as [|fuel IH]; intros n Hn.
  - simpl in *. f_equal. lia.
  - cbn [Js.digits]. destruct (N.ltb_spec n 10) as [Hlt|Hge].
    + rewrite read_digit by (apply N.mod_lt; lia).
      f_equal. rewrite N.mod_small by done. lia.
    + rewrite digits_acc, read_digits_app, IH.
      * cbn [mbind option_bind]. rewrite read_digit by (apply N.mod_lt; lia).
        f_equal. pose proof (N.div_mod n 10). lia.
      * rewrite Nat2N.inj_succ, N.pow_succ_r' in Hn.
        apply N.Div0.div_lt_upper_bound; lia.
Qed.

Lemma pos_lt_pow_size (p : positive) :
  (Npos p < 2 ^ N.of_nat (Pos.size_nat p))%N.
Proof.
  induction p as [p IH|p IH|]; cbn [Pos.size_nat];
    rewrite ?Nat2N.inj_succ, ?N.pow_succ_r'; [| |done].
  - change (Npos p~1) with (2 * Npos p + 1)%N. lia.
  - change (Npos p~0) with (2 * Npos p)%N. lia.
Qed.

Lemma pos_lt_pow_fuel (p : positive) :
  (Npos p < 10 ^ N.of_nat (S (Pos.size_nat p)))%N.
Proof.
  pose proof (pos_lt_pow_size p) as H2.
  assert (2 ^ N.of_nat (Pos.size_nat p) <= 10 ^ N.of_nat (Pos.size_nat p))%N as H10
    by (apply N.pow_le_mono_l; lia).
  rewrite Nat2N.inj_succ, N.pow_succ_r'. lia.
Qed.

Lemma digits_nonempty (fuel : nat) (n : N) (acc : string) :
  Js.digits (S fuel) n acc <> EmptyString.
Proof.
  cbn [Js.digits]. destruct (n <? 10)%N; [done|].
  rewrite digits_acc. by destruct (Js.digits fuel _ _).
Qed.

Lemma read_number_unsigned (s : string) (v : N) :
  s <> EmptyString ->
  Sample.read_digits s 0 = Some v ->
  Sample.read_number s = Some (Z.of_N v).
Proof.
  destruct s as [|c rest]; [done|]. intros _ Hr.
  destruct (Ascii.ascii_dec c "-") as [->|Hne]; [done|].
  unfold Sample.read_number.
  destruct c as [[] [] [] [] [] [] [] []]; try (by rewrite Hr); congruence.
Qed.

Lemma read_number_number (z : Z) : Sample.read_number (Js.number z) = Some z.
Proof.
  destruct z as [|p|p]; [done| |].
  - unfold Js.number.
    rewrite (read_number_unsigned _ (Npos p));
      [done | apply digits_nonempty | apply read_digits_digits, pos_lt_pow_fuel].
  - unfold Js.number.
    change (Sample.read_number ("-" +:+ ?s)) with
      ((fun n : N => (- Z.of_N n)%Z) <$> Sample.read_digits s 0).
    by rewrite read_digits_digits by apply pos_lt_pow_fuel.
Qed.

Lemma read_optional_show (o : option string) :
  Sample.read_optional (Sample.show_optional o) = o.
Proof. by destruct o. Qed.

(** The three sample codecs decode what they encode. *)
Lemma json_blob_correct (b : EncryptedData) :
  parse (JSON:=Sample.json_blob) (stringify (JSON:=Sample.json_blob) b) = Some b.
Proof.
  destruct b as [e i t]. cbn [parse stringify Sample.json_blob].
  rewrite unpack_pack. cbn [encrypted iv tag]. by rewrite !read_optional_show.
Qed.

Lemma json_tokens_correct (t : TokenSet.t) :
  parse (JSON:=Sample.json_tokens) (stringify (JSON:=Sample.json_tokens) t) = Some t.
Proof.
  destruct t as [a r ei ea ty]. cbn [parse stringify Sample.json_tokens].
  rewrite unpack_pack.
  cbn [TokenSet.access_token TokenSet.refresh_token TokenSet.expires_in
       TokenSet.expires_at TokenSet.token_type].
  by rewrite !read_number_number, read_optional_show.
Qed.

Lemma json_device_correct (d : DeviceCode.t) :
  parse (JSON:=Sample.json_device) (stringify (JSON:=Sample.json_device) d) = Some d.
Proof.
  destruct d as [dc uc uri ei iv]. cbn [parse stringify Sample.json_device].
  rewrite unpack_pack.
  cbn [DeviceCode.device_code DeviceCode.user_code DeviceCode.verification_uri
       DeviceCode.expires_in DeviceCode.interval].
  by rewrite !read_number_number.
Qed.

End SampleLaws.

(* ===================================================================== *)
(** * Further properties of EncryptionManager *)
(* ===================================================================== *)

Section KeyAndStorage.

Context {crypto : Crypto}.
Context {json_blob : JSON EncryptedData}.

(** Every way [getMachineKey] can go, in terms of the key at hand. *)
Lemma getMachineKey_cases s :
  (exists key, effective_key s = Some key /\ getMachineKey s = (Return key, cache key s)) \/
  (effective_key s = None /\
   getMachineKey s
   = (Throw (Error "Failed to generate machine key: Unable to read the machine id"), s)).
Proof.
  destruct (effective_key s) as [key|] eqn:Hk.
  - left. exists key. split; [reflexivity|]. by apply getMachineKey_ok.
  - right. split; [reflexivity|]. by apply getMachineKey_fail.
Qed.

(** X1.  [getMachineKey] derives the key once.  When it returns a key, the
    key is kept in [_machineKey], and from then on every call returns that
    key and changes nothing, whatever has become of the environment (the
    machine identity may have changed or be unreadable: it is not read
    again).  When it throws, it is because no key was kept and the machine
    identity could not be read; the error is "Failed to generate machine
    key: ..." and nothing is kept, so the next call reads the identity
    again. *)
Theorem getMachineKey_derives_key_once (s : State) :
  (forall key s1,
      getMachineKey s = (Return key, s1) ->
      _machineKey (encryptionManager (self s1)) = Some key /\
      world s1 = world s /\
      forall w, getMachineKey {| world := w; self := self s1 |}
                = (Return key, {| world := w; self := self s1 |})) /\
  (forall e s1,
      getMachineKey s = (Throw e, s1) ->
      s1 = s /\
      _machineKey (encryptionManager (self s)) = None /\
      machine (world s) = None /\
      exists m, e = Error ("Failed to generate machine key: " +:+ m)).
Proof.
  split.
  - intros key s1 Hg.
    destruct (getMachineKey_cases s) as [(key' & Hk & Heq)|(Hk & Heq)];
      rewrite Heq in Hg; [|done].
    injection Hg as -> <-. split; [reflexivity|]. split; [reflexivity|].
    intros w. by apply getMachineKey_ok.
  - intros e s1 Hg.
    destruct (getMachineKey_cases s) as [(key' & Hk & Heq)|(Hk & Heq)];
      rewrite Heq in Hg; [done|].
    injection Hg as <- <-. split; [reflexivity|].
    unfold effective_key in Hk.
    destruct (_machineKey (encryptionManager (self s))); [done|].
    destruct (machine (world s)); [done|].
    split; [reflexivity|]. split; [reflexivity|]. eauto.
Qed.


(** X3.  When no key is at hand (none is kept and the machine identity
    cannot be read), [encrypt] throws "Encryption failed: ..." after writing
    the payload itself, as JSON text and not encrypted, to standard error;
    [saveEncryptedData] then throws "Failed to save encrypted data:
    Encryption failed: ..." and has written no file, the payload being on
    standard error all the same. *)
Theorem encrypt_failure_writes_plaintext {A} `{JSON A}
    (s : State) (path : string) (data : A) :
  effective_key s = None ->
  exists m,
    encrypt data s
    = (Throw (Error ("Encryption failed: " +:+ m)),
       logged [Stderr ("[ENCRYPTION ERROR] Data: " +:+ stringify data);
               Stderr ("[ENCRYPTION ERROR] Failed to encrypt data: " +:+ m)] s) /\
    saveEncryptedData path data s
    = (Throw (Error ("Failed to save encrypted data: Encryption failed: " +:+ m)),
       logged [Stderr ("[SAVE ERROR] Failed to save encrypted data to " +:+ path
                       +:+ ": Encryption failed: " +:+ m);
               Stderr ("[ENCRYPTION ERROR] Data: " +:+ stringify data);
               Stderr ("[ENCRYPTION ERROR] Failed to encrypt data: " +:+ m)] s) /\
    files (world (saveEncryptedData path data s).2) = files (world s).
Proof.
  intros Hk.
  assert (encrypt data s
          = (Throw (Error ("Encryption failed: "
                           +:+ "Failed to generate machine key: Unable to read the machine id")),
             logged [Stderr ("[ENCRYPTION ERROR] Data: " +:+ stringify data);
                     Stderr ("[ENCRYPTION ERROR] Failed to encrypt data: "
                             +:+ "Failed to generate machine key: Unable to read the machine id")]
               s)) as He.
  { unfold encrypt, try_catch, bind at 1. rewrite (getMachineKey_fail _ Hk). reflexivity. }
  eexists. split; [exact He|].
  assert (saveEncryptedData path data s
          = (Throw (Error ("Failed to save encrypted data: Encryption failed: "
                           +:+ "Failed to generate machine key: Unable to read the machine id")),
             logged [Stderr ("[SAVE ERROR] Failed to save encrypted data to " +:+ path
                             +:+ ": Encryption failed: "
                             +:+ "Failed to generate machine key: Unable to read the machine id");
                     Stderr ("[ENCRYPTION ERROR] Data: " +:+ stringify data);
                     Stderr ("[ENCRYPTION ERROR] Failed to encrypt data: "
                             +:+ "Failed to generate machine key: Unable to read the machine id")]
               s)) as Hs.
  { unfold saveEncryptedData, try_catch, bind. rewrite He. reflexivity. }
  split; [exact Hs|]. by rewrite Hs.
Qed.

(** The file that a save has written holds the value saved. *)
Lemma stored_saved {A} `{JSON A} key path (data : A) s :
  (forall k nonce plaintext c t,
      gcm_encrypt k nonce plaintext = (c, t) ->
      gcm_decrypt k nonce t c = Some plaintext) ->
  (forall blob : EncryptedData, parse (stringify blob) = Some blob) ->
  parse (stringify data) = Some data ->
  stored (saved key path data s) path = Some data.
Proof.
  intros Hgcm Hblob Hjson. unfold stored. rewrite lookup_saved, Hblob.
  change (effective_key (saved key path data s)) with (Some key).
  by apply unsealed_sealed.
Qed.

(** X4.  What [saveEncryptedData] has written, [loadEncryptedData] reads
    back: when the file can be written, the save returns, and loading the
    same path right after returns the value saved and changes nothing.  The
    primitives are assumed correct: AES-256-GCM decrypts what it encrypted,
    and [JSON.parse] inverts [JSON.stringify] on blobs and on the value. *)
Theorem loadEncryptedData_reads_what_was_saved {A} `{JSON A}
    (s : State) (path : string) (data : A) :
  (forall k nonce plaintext c t,
      gcm_encrypt k nonce plaintext = (c, t) ->
      gcm_decrypt k nonce t c = Some plaintext) ->
  (forall blob : EncryptedData, parse (stringify blob) = Some blob) ->
  parse (stringify data) = Some data ->
  storable s path ->
  exists s1,
    saveEncryptedData path data s = (Return tt, s1) /\
    loadEncryptedData path s1 = (Return (Some data), s1).
Proof.
  intros Hgcm Hblob Hjson Hst. destruct (proj1 Hst) as [key Hk].
  exists (saved key path data s). split; [by apply saveEncryptedData_ok|].
  rewrite (loadEncryptedData_ok _ _ data); [reflexivity|].
  by apply stored_saved.
Qed.

(** A write that fails after the file has been opened leaves in the file
    what the failed write left. *)
Lemma saveEncryptedData_torn {A} `{JSON A} s path (data : A) key e remains :
  effective_key s = Some key ->
  unwritable (world s) !! path = Some e ->
  torn (world s) !! path = Some remains ->
  has_parent (world s) path = true ->
  files (world s) !! path <> Some Directory ->
  saveEncryptedData path data s
  = (Throw (Error ("Failed to save encrypted data: " +:+ message e)),
     logged [Stderr ("[SAVE ERROR] Failed to save encrypted data to " +:+ path
                     +:+ ": " +:+ message e)]
       (on_world (with_files (<[path := File remains]> (files (world s))))
          (on_world (fun w => with_entropy (drop 16 (entropy w)) w) (cache key s)))).
Proof.
  intros Hk Hw Ht Hp Hd. unfold saveEncryptedData, try_catch, bind.
  rewrite (encrypt_ok _ _ _ Hk). unfold writeFile. simpl.
  change (has_parent _ path) with (has_parent (world s) path). rewrite Hw, Ht, Hp.
  destruct (files (world s) !! path) as [[c|]|]; try done.
Qed.

(** A save that throws has left the files as they were or has torn its
    file. *)
Lemma saveEncryptedData_throws_files {A} `{JSON A} s path (data : A) e s' :
  saveEncryptedData path data s = (Throw e, s') ->
  files (world s') = files (world s) \/
  exists remains,
    torn (world s) !! path = Some remains /\
    is_Some (unwritable (world s) !! path) /\
    files (world s') = <[path := File remains]> (files (world s)).
Proof.
  intros Hs.
  destruct (torn (world s) !! path) as [remains|] eqn:Ht.
  2:{ left. destruct (saveEncryptedData_cases s path data)
        as [(key & _ & _ & Heq)|(m & s'' & _ & Heq & _ & Hfr)];
        rewrite Heq in Hs; [done|].
      injection Hs as _ <-. by apply frame_same_files, Hfr. }
  destruct (effective_key s) as [key|] eqn:Hk.
  2:{ left. revert Hs. unfold saveEncryptedData, try_catch, bind.
      destruct (encrypt_fail s data Hk) as (m & ls & ->). by intros [= _ <-]. }
  destruct (unwritable (world s) !! path) as [e'|] eqn:Hw.
  - destruct (has_parent (world s) path) eqn:Hp.
    + assert (files (world s) !! path = Some Directory
              \/ files (world s) !! path <> Some Directory) as [Hd|Hd].
      { destruct (files (world s) !! path) as [[c|]|]; auto. }
      * left. revert Hs. unfold saveEncryptedData, try_catch, bind.
        rewrite (encrypt_ok _ _ _ Hk). unfold writeFile. simpl.
        change (has_parent _ path) with (has_parent (world s) path).
        rewrite Hw, Ht, Hp, Hd. by intros [= _ <-].
      * right. exists remains. split; [done|]. split; [by eexists|].
        rewrite (saveEncryptedData_torn s path data key e' remains) in Hs by done.
        by injection Hs as _ <-.
    + left. revert Hs. unfold saveEncryptedData, try_catch, bind.
      rewrite (encrypt_ok _ _ _ Hk). unfold writeFile. simpl.
      change (has_parent _ path) with (has_parent (world s) path).
      rewrite Hw, Ht, Hp. by intros [= _ <-].
  - left. revert Hs. unfold saveEncryptedData, try_catch, bind.
    rewrite (encrypt_ok _ _ _ Hk). unfold writeFile. simpl.
    change (has_parent _ path) with (has_parent (world s) path). rewrite Hw.
    destruct (has_parent (world s) path); [|by intros [= _ <-]].
    destruct (files (world s) !! path) as [[c|]|]; by intros [= _ <-].
Qed.

(** X5.  The storage layer touches nothing but its file.  A save leaves
    every other file, the clock, the two endpoints, the requests sent, the
    detached calls and the credentials held as they were.  When it throws it
    has left every file as it was, with one exception: a failure that comes
    while the file is being written, after [fs.writeFile] has opened and
    emptied it, leaves in the file what the failed write left (the code
    writes in place and undoes nothing); that is what happens when a key is
    at hand, the directory is there and the write fails in that way.  A
    load leaves all of these and every file as they were. *)
Theorem storage_touches_only_its_file {A} `{JSON A}
    (s : State) (path : string) (data : A) :
  (forall r s',
      saveEncryptedData path data s = (r, s') ->
      (forall p, p <> path -> files (world s') !! p = files (world s) !! p) /\
      ((exists e, r = Throw e) ->
       files (world s') = files (world s) \/
       exists remains,
         torn (world s) !! path = Some remains /\
         is_Some (unwritable (world s) !! path) /\
         files (world s') = <[path := File remains]> (files (world s))) /\
      ((exists e, r = Throw e) ->
       torn (world s) !! path = None ->
       files (world s') = files (world s)) /\
      now (world s') = now (world s) /\
      sent (world s') = sent (world s) /\
      detached (world s') = detached (world s) /\
      device_endpoint (world s') = device_endpoint (world s) /\
      token_endpoint (world s') = token_endpoint (world s) /\
      tokens (self s') = tokens (self s) /\
      deviceCode (self s') = deviceCode (self s)) /\
  (forall key e remains,
      effective_key s = Some key ->
      unwritable (world s) !! path = Some e ->
      torn (world s) !! path = Some remains ->
      has_parent (world s) path = true ->
      files (world s) !! path <> Some Directory ->
      exists s',
        saveEncryptedData path data s
        = (Throw (Error ("Failed to save encrypted data: " +:+ message e)), s') /\
        files (world s') = <[path := File remains]> (files (world s))) /\
  (forall (r : completion (option A)) s',
      loadEncryptedData path s = (r, s') ->
      files (world s') = files (world s) /\
      now (world s') = now (world s) /\
      sent (world s') = sent (world s) /\
      detached (world s') = detached (world s) /\
      device_endpoint (world s') = device_endpoint (world s) /\
      token_endpoint (world s') = token_endpoint (world s) /\
      tokens (self s') = tokens (self s) /\
      deviceCode (self s') = deviceCode (self s)).
Proof.
  split; [|split].
  - intros r s' Hs. pose proof (saveEncryptedData_frame _ _ _ _ _ Hs) as Hfr.
    split; [intros p Hp; apply (frame_files _ _ _ Hfr);
            by intros ?%list_elem_of_singleton|].
    split.
    { intros [e ->]. by apply (saveEncryptedData_throws_files _ _ _ _ _ Hs). }
    split.
    { intros [e ->] Ht.
      destruct (saveEncryptedData_throws_files _ _ _ _ _ Hs)
        as [Hf|(remains & Ht' & _)]; [exact Hf|congruence]. }
    destruct Hfr. by repeat split.
  - intros key e remains Hk Hw Ht Hp Hd. eexists. split.
    + by apply (saveEncryptedData_torn s path data key e remains).
    + reflexivity.
  - intros r s' Hl. pose proof (loadEncryptedData_frame _ _ _ _ Hl) as Hfr.
    split; [by apply frame_same_files|]. destruct Hfr. by repeat split.
Qed.

(** X6.  [validateMachineId] compares with the machine identity as it is at
    the call: it returns whether the two are the same and changes nothing,
    and it throws "Machine ID validation failed: ..." when the identity
    cannot be read, even when [getMachineKey] still returns the key it kept
    from an earlier reading. *)
Theorem validateMachineId_reads_identity_anew (s : State) (storedMachineId : string) :
  (forall id,
      machine (world s) = Some id ->
      exists b,
        validateMachineId storedMachineId s = (Return b, s) /\
        (b = true <-> storedMachineId = id)) /\
  (machine (world s) = None ->
   (exists m,
       validateMachineId storedMachineId s
       = (Throw (Error ("Machine ID validation failed: " +:+ m)), s)) /\
   forall key,
     _machineKey (encryptionManager (self s)) = Some key ->
     getMachineKey s = (Return key, s)).
Proof.
  split.
  - intros id Hm. exists (String.eqb storedMachineId id). split.
    + unfold validateMachineId, try_catch, bind, machineId. by rewrite Hm.
    + apply String.eqb_eq.
  - intros Hm. split.
    + unfold validateMachineId, try_catch, bind, machineId. rewrite Hm. eauto.
    + intros key Hk. unfold getMachineKey, bind, get. by rewrite Hk.
Qed.

End KeyAndStorage.

(* ===================================================================== *)
(** * Further properties of refreshing *)
(* ===================================================================== *)

Section RefreshEdges.

Context {crypto : Crypto}.
Context {json_blob : JSON EncryptedData}.
Context {json_tokens : JSON TokenSet.t}.
Context {json_device : JSON DeviceCode.t}.

Lemma getValidAccessToken_no_refresh_token s held :
  tokens (self s) = Some held ->
  Js.truthy (TokenSet.refresh_token held) = false ->
  now (world s) >= TokenSet.expires_at held - CONFIG.TOKEN_EXPIRY_BUFFER ->
  getValidAccessToken s
  = (Throw (Error "No refresh token available. Please re-authenticate."),
     logged [Stdout "Token expired or about to expire, refreshing..."] s).
Proof.
  intros Ht Hrt Hn.
  rewrite (getValidAccessToken_stale s held
             (Throw (Error "No refresh token available. Please re-authenticate."))
             (logged [Stdout "Token expired or about to expire, refreshing..."] s) Ht Hn);
    [reflexivity|].
  apply refreshAccessToken_no_token. intros held' Ht'. simpl in Ht'. congruence.
Qed.

(** X7.  A token set that has no refresh token (the grant carried none, or
    an empty one) cannot be refreshed, and the manager does not get out of
    that by itself.  [refreshAccessToken] throws "No refresh token available.
    Please re-authenticate." and changes nothing: unlike after a refresh that
    failed, the token set stays held.  So once such a token set is within the
    buffer before its expiry, every call of [getValidAccessToken] throws that
    error, however often it is called: no request is sent, no device flow is
    started, and the token set is still held. *)
Theorem getValidAccessToken_stuck_without_refresh_token
    (s : State) (held : TokenSet.t) (n : nat) :
  tokens (self s) = Some held ->
  Js.truthy (TokenSet.refresh_token held) = false ->
  now (world s) >= TokenSet.expires_at held - CONFIG.TOKEN_EXPIRY_BUFFER ->
  refreshAccessToken s
  = (Throw (Error "No refresh token available. Please re-authenticate."), s) /\
  (getValidAccessToken (after_calls n s)).1
  = Throw (Error "No refresh token available. Please re-authenticate.") /\
  tokens (self (after_calls n s)) = Some held /\
  sent (world (after_calls n s)) = sent (world s) /\
  detached (world (after_calls n s)) = detached (world s) /\
  files (world (after_calls n s)) = files (world s).
Proof.
  intros Ht Hrt Hn. split.
  { apply refreshAccessToken_no_token. intros held' Ht'. congruence. }
  revert s Ht Hn. induction n as [|n IH]; intros s Ht Hn.
  - simpl. rewrite (getValidAccessToken_no_refresh_token s held Ht Hrt Hn). by repeat split.
  - simpl. rewrite (getValidAccessToken_no_refresh_token s held Ht Hrt Hn). simpl.
    apply (IH (logged [Stdout "Token expired or about to expire, refreshing..."] s));
      [exact Ht|exact Hn].
Qed.

(** X8.  A refresh that returns leaves the manager able to refresh again:
    the token set held has a refresh token that is not empty, the one of the
    grant when the grant carries one and else the one held before. *)
Theorem refreshAccessToken_keeps_a_refresh_token (s s' : State) :
  refreshAccessToken s = (Return tt, s') ->
  exists held held' r delay rest,
    tokens (self s) = Some held /\
    token_endpoint (world s) = (delay, Resolve r) :: rest /\
    tokens (self s') = Some held' /\
    Js.truthy (TokenSet.refresh_token held') = true /\
    TokenSet.refresh_token held'
    = (if Js.truthy (TokenResponse.refresh_token r)
       then TokenResponse.refresh_token r
       else TokenSet.refresh_token held).
Proof.
  intros Hr. pose proof (refreshAccessToken_cases s) as Hc.
  rewrite Hr in Hc. simpl in Hc.
  inversion Hc as [| | |held rt delay r rest key Ht Hrt Htr He Hk Hst|]; subst.
  exists held, (issued_by_refresh held r (now (world s) + delay)), r, delay, rest.
  split; [exact Ht|]. split; [exact He|]. split; [reflexivity|]. split; [|reflexivity].
  simpl. unfold Js.or_else.
  destruct (Js.truthy (TokenResponse.refresh_token r)) eqn:Hg; [exact Hg|].
  by rewrite Hrt.
Qed.

(** X9.  The grant of a refresh is lost when it cannot be saved.  The token
    endpoint grants the refresh but the token file cannot be written: the
    request has been sent and the reply used up, yet [refreshAccessToken]
    throws "Token refresh failed. Please re-authenticate." and the manager
    holds no token set any more, neither the new one nor the old.  Every
    other file is as it was; the token file is as it was too, unless the
    write failed after the file had been opened and emptied: then it holds
    what the failed write left, which is neither token set. *)
Theorem refreshAccessToken_unsaved_grant_is_lost
    (s : State) (held : TokenSet.t) (rt : string) (delay : Z)
    (r : TokenResponse.t) (rest : list (Z * reply TokenResponse.t)) :
  tokens (self s) = Some held ->
  TokenSet.refresh_token held = Some rt ->
  Js.truthy (Some rt) = true ->
  token_endpoint (world s) = (delay, Resolve r) :: rest ->
  ~ storable s CONFIG.TOKEN_FILE ->
  (refreshAccessToken s).1 = Throw refresh_failed /\
  tokens (self (refreshAccessToken s).2) = None /\
  (forall p, p <> CONFIG.TOKEN_FILE ->
             files (world (refreshAccessToken s).2) !! p = files (world s) !! p) /\
  (files (world (refreshAccessToken s).2) = files (world s) \/
   exists remains,
     torn (world s) !! CONFIG.TOKEN_FILE = Some remains /\
     is_Some (unwritable (world s) !! CONFIG.TOKEN_FILE) /\
     files (world (refreshAccessToken s).2)
     = <[CONFIG.TOKEN_FILE := File remains]> (files (world s))) /\
  (torn (world s) !! CONFIG.TOKEN_FILE = None ->
   files (world (refreshAccessToken s).2) = files (world s)) /\
  sent (world (refreshAccessToken s).2) = PostToken (RefreshTokenGrant rt) :: sent (world s) /\
  token_endpoint (world (refreshAccessToken s).2) = rest.
Proof.
  intros Ht Hrt Htr He Hst.
  destruct rt as [|c rt]; [done|].
  set (s0 := on_self (with_tokens (Some (issued_by_refresh held r (now (world s) + delay))))
               (received (PostToken (RefreshTokenGrant (String c rt))) delay rest s)).
  destruct (saveEncryptedData_cases s0 CONFIG.TOKEN_FILE
              (issued_by_refresh held r (now (world s) + delay)))
    as [(key & Hk & Hst0 & Heq)|(m & s2 & _ & Heq & Hfr & Htorn)].
  { by destruct Hst. }
  rewrite (refreshAccessToken_resolved _ _ _ _ _ _ _ _ _ Ht Hrt He Heq). simpl.
  pose proof (saveEncryptedData_throws_files _ _ _ _ _ Heq) as Hfiles.
  split; [reflexivity|]. split; [reflexivity|].
  split; [intros p Hp; apply (frame_files _ _ _ Hfr); by intros ?%list_elem_of_singleton|].
  split; [exact Hfiles|].
  split; [intros Htn; exact (frame_same_files _ _ (Htorn Htn))|].
  split; [exact (frame_sent _ _ _ Hfr)|exact (frame_token_endpoint _ _ _ Hfr)].
Qed.

End RefreshEdges.

(* ===================================================================== *)
(** * Further properties of the polling loop *)
(* ===================================================================== *)

Section PollingBounds.

Context {crypto : Crypto}.
Context {json_blob : JSON EncryptedData}.
Context {json_tokens : JSON TokenSet.t}.
Context {json_device : JSON DeviceCode.t}.

Lemma replicate_snoc_cons {A} (k : nat) (x : A) (l : list A) :
  replicate k x ++ x :: l = x :: replicate k x ++ l.
Proof. induction k as [|k IH]; [done|]. simpl. by rewrite IH. Qed.

(** What a turn sends and what it uses up. *)
Lemma pollOnce_sends s :
  deviceCode (self (pollOnce s).2) = deviceCode (self s) /\
  ((deviceCode (self s) = None /\ (pollOnce s).2 = s /\
    (pollOnce s).1 = Throw (poll_failure (TypeError "device_code"))) \/
   (exists d,
       deviceCode (self s) = Some d /\
       sent (world (pollOnce s).2)
       = PostToken (DeviceCodeGrant (DeviceCode.device_code d)) :: sent (world s) /\
       token_endpoint (world (pollOnce s).2) = drop 1 (token_endpoint (world s)))).
Proof.
  destruct (pollOnce_cases s)
    as [Hd|d Hd He|d delay e rest Hd He Hp|d delay e rest Hd He Hp
        |d delay r rest key Hd He Hk Hst|d delay r rest m s2 Hd He Hst Hfr].
  - split; [reflexivity|]. by left.
  - split; [reflexivity|]. right. exists d. rewrite He. by repeat split.
  - split; [reflexivity|]. right. exists d. rewrite He. by repeat split.
  - split; [reflexivity|]. right. exists d. rewrite He. by repeat split.
  - split; [reflexivity|]. right. exists d. rewrite He. by repeat split.
  - split; [exact (frame_deviceCode _ _ _ Hfr)|]. right. exists d. rewrite He.
    split; [exact Hd|].
    split; [by rewrite (frame_sent _ _ _ Hfr)|by rewrite (frame_token_endpoint _ _ _ Hfr)].
Qed.

Lemma pollLoop_sends n s :
  exists k,
    (k <= n)%nat /\
    sent (world (pollLoop n s).2) = poll_requests k s ++ sent (world s) /\
    token_endpoint (world (pollLoop n s).2) = drop k (token_endpoint (world s)) /\
    (deviceCode (self s) = None -> (pollLoop n s).2 = s).
Proof.
  revert s. induction n as [|n IH]; intros s.
  - exists 0%nat. unfold poll_requests. simpl.
    split; [lia|]. split; [by destruct (deviceCode (self s))|]. by split.
  - destruct (pollOnce_sends s) as (Hkeep & [(Hd & Hs & Hr)|(d & Hd & Hs & He)]).
    + exists 0%nat. unfold poll_requests. rewrite Hd.
      assert (pollLoop (S n) s = (Throw (poll_failure (TypeError "device_code")), s)) as ->.
      { simpl. unfold bind. destruct (pollOnce s) as [r s1]. simpl in *. by subst. }
      split; [lia|]. by repeat split.
    + destruct (IH (pollOnce s).2) as (k & Hk & Hs' & He' & _).
      unfold poll_requests in *. rewrite Hkeep, Hd in Hs'. rewrite Hd.
      simpl. unfold bind. destruct (pollOnce s) as [[[]|e] s1]; simpl in *.
      * exists 1%nat. split; [lia|]. split; [by rewrite Hs|]. split; [exact He|congruence].
      * exists (S k). split; [lia|]. split.
        -- rewrite Hs', Hs. by rewrite replicate_snoc_cons.
        -- split; [|congruence]. rewrite He', He. by rewrite drop_drop.
      * exists 1%nat. split; [lia|]. split; [by rewrite Hs|]. split; [exact He|congruence].
Qed.

(** X10.  [pollForToken] asks the token endpoint at most
    [CONFIG.MAX_POLL_ATTEMPTS] times, each time with the device-code grant
    for the device authorization held, and sends nothing else; each request
    uses up one reply.  With no device authorization held it sends nothing
    and changes nothing: it throws "Token polling failed: Cannot read
    properties of null (reading 'device_code')". *)
Theorem pollForToken_sends_at_most_180_requests (s : State) :
  CONFIG.MAX_POLL_ATTEMPTS = 180%nat /\
  (exists k,
      (k <= CONFIG.MAX_POLL_ATTEMPTS)%nat /\
      sent (world (pollForToken s).2) = poll_requests k s ++ sent (world s) /\
      token_endpoint (world (pollForToken s).2) = drop k (token_endpoint (world s))) /\
  (deviceCode (self s) = None ->
   pollForToken s
   = (Throw (Error ("Token polling failed: "
                    +:+ "Cannot read properties of null (reading 'device_code')")), s)).
Proof.
  split; [reflexivity|]. rewrite pollForToken_pollLoop. split.
  - destruct (pollLoop_sends CONFIG.MAX_POLL_ATTEMPTS s) as (k & Hk & Hs & He & _).
    exists k. by repeat split.
  - intros Hd. change CONFIG.MAX_POLL_ATTEMPTS with (S 179). simpl. unfold bind.
    by rewrite (pollOnce_no_device _ Hd).
Qed.

(** The clock after [n] turns that all met "authorization_pending". *)
Lemma pollLoop_timeout_clock n s d :
  deviceCode (self s) = Some d ->
  (n <= length (token_endpoint (world s)))%nat ->
  Forall (fun x => is_pending x = true) (take n (token_endpoint (world s))) ->
  (pollLoop n s).1 = Throw timeout /\
  now (world (pollLoop n s).2)
  = now (world s) + Z.of_nat n * CONFIG.DEVICE_CODE_POLL_INTERVAL
    + total_delay (take n (token_endpoint (world s))) /\
  tokens (self (pollLoop n s).2) = tokens (self s) /\
  files (world (pollLoop n s).2) = files (world s).
Proof.
  revert s. induction n as [|n IH]; intros s Hd Hlen Hall.
  - simpl. unfold total_delay. simpl. repeat split; lia.
  - destruct (token_endpoint (world s)) as [|[delay [r|e]] rest] eqn:He;
      simpl in Hlen; [lia| |].
    + apply Forall_cons in Hall as [Hp _]. done.
    + apply Forall_cons in Hall as [Hp Hall]. unfold is_pending in Hp. simpl in Hp.
      rewrite (pollLoop_pending _ _ _ _ _ _ Hd He Hp).
      edestruct IH as (Hr & Hn & Ht & Hf); [| | |rewrite Hr, Hn, Ht, Hf].
      * exact Hd.
      * simpl. lia.
      * exact Hall.
      * simpl. unfold total_delay. simpl. repeat split.
        unfold CONFIG.DEVICE_CODE_POLL_INTERVAL. lia.
Qed.

(** X11.  A poll that times out has waited a quarter of an hour and more.
    When the first [CONFIG.MAX_POLL_ATTEMPTS] replies all say
    "authorization_pending", [pollForToken] throws the timeout, and the
    clock has then advanced by 180 times the polling interval of 5000 ms,
    that is 900000 ms, plus the time the 180 replies took; the token set held
    and the files are what they were. *)
Theorem pollForToken_timeout_after_fifteen_minutes (s : State) (d : DeviceCode.t) :
  deviceCode (self s) = Some d ->
  (CONFIG.MAX_POLL_ATTEMPTS <= length (token_endpoint (world s)))%nat ->
  Forall (fun x => is_pending x = true)
    (take CONFIG.MAX_POLL_ATTEMPTS (token_endpoint (world s))) ->
  (pollForToken s).1 = Throw timeout /\
  now (world (pollForToken s).2)
  = now (world s) + 900000
    + total_delay (take CONFIG.MAX_POLL_ATTEMPTS (token_endpoint (world s))) /\
  tokens (self (pollForToken s).2) = tokens (self s) /\
  files (world (pollForToken s).2) = files (world s).
Proof.
  intros Hd Hlen Hall. rewrite pollForToken_pollLoop.
  destruct (pollLoop_timeout_clock _ _ _ Hd Hlen Hall) as (Hr & Hn & Ht & Hf).
  split; [exact Hr|]. split; [|by split]. rewrite Hn. reflexivity.
Qed.

(** X12.  A grant that cannot be saved is kept in memory all the same.  The
    token endpoint grants the token at the first request but the token file
    cannot be written: [pollForToken] throws "Token polling failed: Failed to
    save encrypted data: ...", and yet the manager holds the new token set,
    so that the next [getValidAccessToken] returns its access token (the
    granted lifetime being longer than the buffer).  Every other file is as
    it was; the token file is as it was too, unless the write failed after
    the file had been opened and emptied: then it holds what the failed
    write left. *)
Theorem pollForToken_unsaved_grant_is_held
    (s : State) (d : DeviceCode.t) (delay : Z) (r : TokenResponse.t)
    (rest : list (Z * reply TokenResponse.t)) :
  deviceCode (self s) = Some d ->
  token_endpoint (world s) = (delay, Resolve r) :: rest ->
  ~ storable s CONFIG.TOKEN_FILE ->
  (exists m,
      (pollForToken s).1
      = Throw (Error ("Token polling failed: Failed to save encrypted data: " +:+ m))) /\
  tokens (self (pollForToken s).2) = Some (issued_by_poll r (now (world s) + delay)) /\
  (forall p, p <> CONFIG.TOKEN_FILE ->
             files (world (pollForToken s).2) !! p = files (world s) !! p) /\
  (files (world (pollForToken s).2) = files (world s) \/
   exists remains,
     torn (world s) !! CONFIG.TOKEN_FILE = Some remains /\
     is_Some (unwritable (world s) !! CONFIG.TOKEN_FILE) /\
     files (world (pollForToken s).2)
     = <[CONFIG.TOKEN_FILE := File remains]> (files (world s))) /\
  (torn (world s) !! CONFIG.TOKEN_FILE = None ->
   files (world (pollForToken s).2) = files (world s)) /\
  (TokenResponse.expires_in r * 1000 > CONFIG.TOKEN_EXPIRY_BUFFER ->
   getValidAccessToken (pollForToken s).2
   = (Return (TokenResponse.access_token r), (pollForToken s).2)).
Proof.
  intros Hd He Hst. rewrite pollForToken_pollLoop.
  change CONFIG.MAX_POLL_ATTEMPTS with (S 179). cbn [pollLoop]. unfold bind.
  destruct (saveEncryptedData_cases
      (on_self (with_tokens (Some (issued_by_poll r (now (world s) + delay))))
         (received (PostToken (DeviceCodeGrant (DeviceCode.device_code d))) delay rest s))
      CONFIG.TOKEN_FILE (issued_by_poll r (now (world s) + delay)))
    as [(key & Hk & Hst' & Heq)|(m & s2 & Hst' & Heq & Hfr & Htorn)];
    [by destruct Hst|].
  rewrite (pollOnce_resolved _ _ _ _ _ _ _ Hd He Heq). cbn [fst snd].
  pose proof (frame_tokens _ _ _ Hfr) as Ht. simpl in Ht.
  pose proof (saveEncryptedData_throws_files _ _ _ _ _ Heq) as Hfiles.
  split; [by exists m|]. split; [exact Ht|].
  split; [intros p Hp; apply (frame_files _ _ _ Hfr); by intros ?%list_elem_of_singleton|].
  split; [exact Hfiles|].
  split; [intros Htn; exact (frame_same_files _ _ (Htorn Htn))|].
  intros Hlife. apply (getValidAccessToken_fresh _ _ Ht).
  rewrite (frame_now _ _ _ Hfr). simpl. unfold CONFIG.TOKEN_EXPIRY_BUFFER in *. lia.
Qed.

End PollingBounds.

(* ===================================================================== *)
(** * Further properties of getValidAccessToken and of initialization *)
(* ===================================================================== *)

Section Lifecycle.

Context {crypto : Crypto}.
Context {json_blob : JSON EncryptedData}.
Context {json_tokens : JSON TokenSet.t}.
Context {json_device : JSON DeviceCode.t}.

(** X13.  Whether a refreshed token is served again without a request
    depends on the lifetime granted.  A call of [getValidAccessToken] found
    the token set within the buffer and returned, so it has refreshed it from
    the first reply [r] of the token endpoint.  If the lifetime of [r] is
    longer than the buffer of 300 seconds, calling again right away returns
    the same access token and changes nothing.  If it is not, the token set
    is within the buffer as soon as it is issued, and calling again sends
    one more refresh request, with the refresh token now held, however that
    call ends. *)
Theorem refreshed_token_is_cached_iff_long_lived
    (s : State) (held : TokenSet.t) (v : string) (s' : State) :
  tokens (self s) = Some held ->
  now (world s) >= TokenSet.expires_at held - CONFIG.TOKEN_EXPIRY_BUFFER ->
  getValidAccessToken s = (Return v, s') ->
  exists delay r rest held',
    token_endpoint (world s) = (delay, Resolve r) :: rest /\
    tokens (self s') = Some held' /\
    TokenSet.access_token held' = v /\
    (TokenResponse.expires_in r > 300 ->
     getValidAccessToken s' = (Return v, s')) /\
    (TokenResponse.expires_in r <= 300 ->
     exists rt,
       TokenSet.refresh_token held' = Some rt /\
       sent (world (getValidAccessToken s').2)
       = PostToken (RefreshTokenGrant rt) :: sent (world s')).
Proof.
  intros Ht Hn Hg.
  set (s0 := logged [Stdout "Token expired or about to expire, refreshing..."] s).
  assert (tokens (self s0) = Some held) as Ht0 by exact Ht.
  destruct (refreshAccessToken s0) as [res s1] eqn:Hr.
  rewrite (getValidAccessToken_stale _ _ _ _ Ht Hn Hr) in Hg.
  destruct res as [[]|e]; [|done].
  pose proof (refreshAccessToken_cases s0) as Hc. rewrite Hr in Hc. simpl in Hc.
  inversion Hc as [| | |held0 rt delay r rest key Ht' Hrt Htr He Hk Hst|]; subst.
  rewrite Ht0 in Ht'. injection Ht' as <-.
  simpl in Hg. injection Hg as <- <-.
  set (t' := issued_by_refresh held r (now (world s0) + delay)).
  set (s' := logged [Stdout "Token refreshed successfully"]
               (saved key CONFIG.TOKEN_FILE t'
                  (on_self (with_tokens (Some t'))
                     (received (PostToken (RefreshTokenGrant rt)) delay rest s0)))).
  assert (tokens (self s') = Some t') as Ht' by reflexivity.
  assert (now (world s') = now (world s0) + delay) as Hnow by reflexivity.
  exists delay, r, rest, t'. split; [exact He|]. split; [exact Ht'|].
  split; [reflexivity|]. split.
  - intros Hlife. apply (getValidAccessToken_fresh _ _ Ht').
    rewrite Hnow. unfold t', CONFIG.TOKEN_EXPIRY_BUFFER. simpl. lia.
  - intros Hlife.
    assert (Js.truthy (TokenSet.refresh_token t') = true) as Htr'.
    { unfold t'. simpl. unfold Js.or_else.
      destruct (Js.truthy (TokenResponse.refresh_token r)) eqn:Hx; [exact Hx|].
      by rewrite Hrt. }
    destruct (TokenSet.refresh_token t') as [rt'|] eqn:Hrt'; [|done].
    exists rt'. split; [reflexivity|].
    set (s0' := logged [Stdout "Token expired or about to expire, refreshing..."] s').
    destruct (refreshAccessToken s0') as [res' s1'] eqn:Hr'.
    assert (now (world s') >= TokenSet.expires_at t' - CONFIG.TOKEN_EXPIRY_BUFFER) as Hstale.
    { rewrite Hnow. unfold t', CONFIG.TOKEN_EXPIRY_BUFFER. simpl. lia. }
    rewrite (getValidAccessToken_stale _ _ _ _ Ht' Hstale Hr').
    assert (sent (world s1') = PostToken (RefreshTokenGrant rt') :: sent (world s')) as Hs.
    { pose proof (refreshAccessToken_cases s0') as Hc'. rewrite Hr' in Hc'. simpl in Hc'.
      assert (tokens (self s0') = Some t') as Ht0' by reflexivity.
      inversion Hc' as [Hno|h1 r1 Ht1 Hrt1 Htr1 He1|h1 r1 d1 e1 rest1 Ht1 Hrt1 Htr1 He1
                        |h1 r1 d1 g1 rest1 k1 Ht1 Hrt1 Htr1 He1 Hk1 Hst1
                        |h1 r1 d1 g1 rest1 m1 s2 Ht1 Hrt1 Htr1 He1 Hst1 Hfr1]; subst.
      - specialize (Hno _ Ht0'). rewrite Hrt' in Hno. congruence.
      - rewrite Ht0' in Ht1. injection Ht1 as <-. rewrite Hrt' in Hrt1.
        injection Hrt1 as <-. reflexivity.
      - rewrite Ht0' in Ht1. injection Ht1 as <-. rewrite Hrt' in Hrt1.
        injection Hrt1 as <-. reflexivity.
      - rewrite Ht0' in Ht1. injection Ht1 as <-. rewrite Hrt' in Hrt1.
        injection Hrt1 as <-. reflexivity.
      - rewrite Ht0' in Ht1. injection Ht1 as <-. rewrite Hrt' in Hrt1.
        injection Hrt1 as <-. simpl. by rewrite (frame_sent _ _ _ Hfr1). }
    destruct res' as [[]|e']; [|exact Hs].
    destruct (tokens (self s1')); exact Hs.
Qed.

Lemma DATA_DIR_not_File_of_Directory s :
  files (world s) !! CONFIG.DATA_DIR = Some Directory ->
  forall content, files (world s) !! CONFIG.DATA_DIR <> Some (File content).
Proof. intros -> content. done. Qed.

(** When [initialize] returns, the data directory could be made. *)
Lemma initialize_returns s s1 :
  initialize s = (Return tt, s1) ->
  unwritable (world s) !! CONFIG.DATA_DIR = None /\
  forall content, files (world s) !! CONFIG.DATA_DIR <> Some (File content).
Proof.
  intros Hi.
  destruct (unwritable (world s) !! CONFIG.DATA_DIR) as [e'|] eqn:Hw.
  - destruct (mkdir_fail s) as [e'' Hm]; [left; by rewrite Hw|].
    rewrite (initialize_fail _ _ Hm) in Hi. done.
  - split; [reflexivity|]. intros content Hf.
    destruct (mkdir_fail s) as [e'' Hm]; [right; eauto|].
    rewrite (initialize_fail _ _ Hm) in Hi. done.
Qed.

(** X14.  [initialize] can be called again: a second call right after the
    first returns too, the manager then holds the same token set and the same
    device authorization, and no file has changed. *)
Theorem initialize_twice (s s1 : State) :
  initialize s = (Return tt, s1) ->
  exists s2,
    initialize s1 = (Return tt, s2) /\
    tokens (self s2) = tokens (self s1) /\
    deviceCode (self s2) = deviceCode (self s1) /\
    files (world s2) = files (world s1).
Proof.
  intros Hi. destruct (initialize_returns _ _ Hi) as [Hw Hf].
  destruct (initialize_ok s Hw Hf) as (s3 & Hfr & Hdir & Hi').
  rewrite Hi' in Hi. injection Hi as <-.
  set (s1 := on_self (fun a => with_deviceCode (stored s CONFIG.DEVICE_FILE)
                                 (with_tokens (stored s CONFIG.TOKEN_FILE) a)) s3).
  assert (files (world s1) !! CONFIG.DATA_DIR = Some Directory) as Hdir1 by exact Hdir.
  destruct (initialize_ok s1) as (s4 & Hfr' & Hdir' & Hi'').
  { change (unwritable (world s3) !! CONFIG.DATA_DIR = None).
    by rewrite (frame_unwritable _ _ _ Hfr). }
  { by apply DATA_DIR_not_File_of_Directory. }
  eexists. split; [exact Hi''|].
  assert (forall A (H : JSON A) path, path ∉ [CONFIG.DATA_DIR] ->
            stored (A:=A) s1 path = stored s path) as Hst.
  { intros A H path Hp. change (stored (A:=A) s3 path = stored s path).
    by apply (frame_stored [CONFIG.DATA_DIR]). }
  split; [exact (Hst _ _ _ TOKEN_FILE_not_DATA_DIR)|].
  split; [exact (Hst _ _ _ DEVICE_FILE_not_DATA_DIR)|].
  change (files (world s4) = files (world s1)).
  apply map_eq. intros p.
  destruct (decide (p = CONFIG.DATA_DIR)) as [->|Hp].
  - etransitivity; [exact Hdir'|symmetry; exact Hdir1].
  - apply (frame_files _ _ _ Hfr'). by intros ?%list_elem_of_singleton.
Qed.

(** The directory of the two files is the data directory. *)
Lemma has_parent_TOKEN_FILE w :
  has_parent w CONFIG.TOKEN_FILE = true -> files w !! CONFIG.DATA_DIR = Some Directory.
Proof.
  unfold has_parent. change (dirname CONFIG.TOKEN_FILE) with CONFIG.DATA_DIR.
  change (String.eqb CONFIG.DATA_DIR "." || String.eqb CONFIG.DATA_DIR "/") with false.
  cbv iota. by destruct (files w !! CONFIG.DATA_DIR) as [[c|]|].
Qed.

Lemma has_parent_DEVICE_FILE w :
  has_parent w CONFIG.DEVICE_FILE = true -> files w !! CONFIG.DATA_DIR = Some Directory.
Proof.
  unfold has_parent. change (dirname CONFIG.DEVICE_FILE) with CONFIG.DATA_DIR.
  change (String.eqb CONFIG.DATA_DIR "." || String.eqb CONFIG.DATA_DIR "/") with false.
  cbv iota. by destruct (files w !! CONFIG.DATA_DIR) as [[c|]|].
Qed.

(** A file of the data directory can be written in [s'] if it can in [s] and
    nothing that matters for it has changed. *)
Lemma storable_same s s' path :
  effective_key s' = effective_key s ->
  unwritable (world s') = unwritable (world s) ->
  files (world s') !! path = files (world s) !! path ->
  files (world s') !! dirname path = files (world s) !! dirname path ->
  storable s path -> storable s' path.
Proof.
  intros Hk Hw Hf Hd (Hkey & Hunw & Hpar & Hdir). unfold storable, has_parent in *.
  by rewrite Hk, Hw, Hf, Hd.
Qed.

(** A new process that initializes on files in which [data] has just been
    saved at [path] finds [data] there, when the key is the one of the
    machine. *)
Lemma stored_new_process {A} `{JSON A} key path (data : A) s ls :
  (forall k nonce plaintext c t,
      gcm_encrypt k nonce plaintext = (c, t) ->
      gcm_decrypt k nonce t c = Some plaintext) ->
  (forall blob : EncryptedData, parse (stringify blob) = Some blob) ->
  parse (stringify data) = Some data ->
  pbkdf2Sync <$> machine (world s) = Some key ->
  stored (new_process (logged ls (saved key path data s))) path = Some data.
Proof.
  intros Hgcm Hblob Hjson Hk. unfold stored.
  change (files (world (new_process (logged ls (saved key path data s)))))
    with (files (world (saved key path data s))).
  rewrite lookup_saved, Hblob.
  change (effective_key (new_process (logged ls (saved key path data s))))
    with (pbkdf2Sync <$> machine (world s)).
  rewrite Hk. by apply unsealed_sealed.
Qed.

(** When the loop returns, the last turn has saved the token set held. *)
Lemma pollLoop_returns_saved n s s1 :
  pollLoop n s = (Return tt, s1) ->
  exists key t s0,
    effective_key s = Some key /\
    machine (world s0) = machine (world s) /\
    unwritable (world s0) = unwritable (world s) /\
    has_parent (world s0) CONFIG.TOKEN_FILE = true /\
    s1 = logged [Stdout "Authentication successful!"]
           (saved key CONFIG.TOKEN_FILE t (on_self (with_tokens (Some t)) s0)).
Proof.
  revert s. induction n as [|n IH]; intros s; [done|].
  simpl. unfold bind. pose proof (pollOnce_cases s) as Hc.
  destruct (pollOnce s) as [[[]|e] s'] eqn:Ho; simpl in Hc; [| |done].
  - intros [= <-]. inversion Hc as [| | | |d delay r rest key Hd He Hk Hst|]; subst.
    eexists key, _, _. split; [exact Hk|].
    split; [|split; [|split; [|reflexivity]]]; [reflexivity|reflexivity|].
    exact (proj1 (proj2 (proj2 Hst))).
  - intros Hl. destruct (IH _ Hl) as (key & t & s0 & Hk & Hm & Hw & Hp & ->).
    inversion Hc as [| |d delay e rest Hd He Hp'| | |]; subst.
    by exists key, t, s0.
Qed.

(** X15.  A token set obtained by the poll survives a restart.
    [pollForToken] has returned; a new process that starts on the files it
    left and calls [initialize] holds the same token set.  The primitives
    are assumed correct (AES-256-GCM decrypts what it encrypted, [JSON.parse]
    inverts [JSON.stringify] on blobs and token sets); the key in use is the
    one derived from the machine identity, and the data directory is not
    barred. *)
Theorem tokens_survive_restart (s s1 : State) :
  (forall k nonce plaintext c t,
      gcm_encrypt k nonce plaintext = (c, t) ->
      gcm_decrypt k nonce t c = Some plaintext) ->
  (forall blob : EncryptedData, parse (stringify blob) = Some blob) ->
  (forall t : TokenSet.t, parse (stringify t) = Some t) ->
  effective_key s = pbkdf2Sync <$> machine (world s) ->
  unwritable (world s) !! CONFIG.DATA_DIR = None ->
  pollForToken s = (Return tt, s1) ->
  exists t s2,
    tokens (self s1) = Some t /\
    initialize (new_process s1) = (Return tt, s2) /\
    tokens (self s2) = Some t.
Proof.
  intros Hgcm Hblob Hjson Hkey Hunw Hp. rewrite pollForToken_pollLoop in Hp.
  destruct (pollLoop_returns_saved _ _ _ Hp) as (key & t & s0 & Hk & Hm & Hw & Hpar & ->).
  set (s1 := logged [Stdout "Authentication successful!"]
               (saved key CONFIG.TOKEN_FILE t (on_self (with_tokens (Some t)) s0))).
  assert (stored (new_process s1) CONFIG.TOKEN_FILE = Some t) as Hst.
  { apply stored_new_process; [exact Hgcm|exact Hblob|apply Hjson|].
    change (pbkdf2Sync <$> machine (world s0) = Some key). by rewrite Hm, <- Hkey. }
  destruct (initialize_ok (new_process s1)) as (s3 & _ & _ & Hi).
  { change (unwritable (world s0) !! CONFIG.DATA_DIR = None). by rewrite Hw. }
  { apply DATA_DIR_not_File_of_Directory.
    change (<[CONFIG.TOKEN_FILE := File (stringify (sealed key
              (on_self (with_tokens (Some t)) s0) t))]> (files (world s0))
            !! CONFIG.DATA_DIR = Some Directory).
    rewrite lookup_insert_ne by done. by apply has_parent_TOKEN_FILE. }
  exists t. eexists. split; [reflexivity|]. split; [exact Hi|]. exact Hst.
Qed.

(** X16.  The device authorization survives a restart too.  No token set
    being held, [getValidAccessToken] has got a device code from the
    device-code endpoint and saved it; a new process that starts on the
    files it left and calls [initialize] holds that device authorization,
    and none of the polls of the process before: nothing is detached in it.
    The primitives are assumed correct, the key in use is the one derived
    from the machine identity, and the data directory is not barred. *)
Theorem device_authorization_survives_restart
    (s : State) (delay : Z) (r : DeviceCodeResponse.t)
    (rest : list (Z * reply DeviceCodeResponse.t)) :
  (forall k nonce plaintext c t,
      gcm_encrypt k nonce plaintext = (c, t) ->
      gcm_decrypt k nonce t c = Some plaintext) ->
  (forall blob : EncryptedData, parse (stringify blob) = Some blob) ->
  (forall d : DeviceCode.t, parse (stringify d) = Some d) ->
  effective_key s = pbkdf2Sync <$> machine (world s) ->
  unwritable (world s) !! CONFIG.DATA_DIR = None ->
  tokens (self s) = None ->
  device_endpoint (world s) = (delay, Resolve r) :: rest ->
  storable s CONFIG.DEVICE_FILE ->
  exists s2,
    deviceCode (self (getValidAccessToken s).2) = Some (device_of r) /\
    initialize (new_process (getValidAccessToken s).2) = (Return tt, s2) /\
    deviceCode (self s2) = Some (device_of r) /\
    detached (world s2) = [].
Proof.
  intros Hgcm Hblob Hjson Hkey Hunw Ht He Hst.
  destruct (proj1 Hst) as [key Hk].
  assert (getValidAccessToken s
          = (Throw (Error (stringify_authInstructions (instructions_of r))),
             logged [auth_error_line (Error (stringify_authInstructions (instructions_of r)))]
               (launched (saved key CONFIG.DEVICE_FILE (device_of r)
                  (on_self (with_deviceCode (Some (device_of r)))
                     (device_received delay rest (entered s))))))) as Hg.
  { apply (getValidAccessToken_no_tokens _ _ _ Ht).
    erewrite authenticate_resolved; [| exact He |].
    2:{ apply saveEncryptedData_ok; [exact Hk | exact Hst]. }
    reflexivity. }
  rewrite Hg. cbn [snd].
  set (s0 := on_self (with_deviceCode (Some (device_of r)))
               (device_received delay rest (entered s))).
  set (s1 := logged [auth_error_line (Error (stringify_authInstructions (instructions_of r)))]
               (launched (saved key CONFIG.DEVICE_FILE (device_of r) s0))).
  assert (stored (new_process s1) CONFIG.DEVICE_FILE = Some (device_of r)) as Hsd.
  { unfold stored.
    change (files (world (new_process s1)))
      with (files (world (saved key CONFIG.DEVICE_FILE (device_of r) s0))).
    rewrite lookup_saved, Hblob.
    change (effective_key (new_process s1)) with (pbkdf2Sync <$> machine (world s)).
    rewrite <- Hkey, Hk. by apply unsealed_sealed. }
  destruct (initialize_ok (new_process s1)) as (s3 & Hfr & _ & Hi).
  { exact Hunw. }
  { apply DATA_DIR_not_File_of_Directory.
    change (<[CONFIG.DEVICE_FILE := File (stringify (sealed key s0 (device_of r)))]>
              (files (world s)) !! CONFIG.DATA_DIR = Some Directory).
    rewrite lookup_insert_ne by done.
    apply has_parent_DEVICE_FILE. exact (proj1 (proj2 (proj2 Hst))). }
  eexists. split; [reflexivity|]. split; [exact Hi|]. split; [exact Hsd|].
  exact (frame_detached _ _ _ Hfr).
Qed.

(** The loop returns with the token set of the first grant when it follows
    fewer "authorization_pending" replies than there are attempts and the
    token file can be written. *)
Lemma pollLoop_granted_tokens pendings : forall n s d delay r rest,
  deviceCode (self s) = Some d ->
  token_endpoint (world s) = pendings ++ (delay, Resolve r) :: rest ->
  Forall (fun x => is_pending x = true) pendings ->
  (length pendings < n)%nat ->
  storable s CONFIG.TOKEN_FILE ->
  exists s',
    pollLoop n s = (Return tt, s') /\
    tokens (self s') = Some (issued_by_poll r (now (world s'))) /\
    token_endpoint (world s') = rest.
Proof.
  induction pendings as [|[delay' [r'|e]] pendings IH];
    intros n s d delay r rest Hd He Hall Hlen Hst.
  - destruct n as [|n]; [simpl in Hlen; lia|].
    destruct Hst as ([key Hk] & Hst').
    assert (storable s CONFIG.TOKEN_FILE) as Hst by (split; [by eexists|exact Hst']).
    simpl. unfold bind.
    erewrite pollOnce_resolved; [| exact Hd | exact He |].
    2:{ apply saveEncryptedData_ok; [exact Hk | exact Hst]. }
    eexists. split; [reflexivity|]. by split.
  - apply Forall_cons in Hall as [Hp _]. done.
  - apply Forall_cons in Hall as [Hp Hall]. unfold is_pending in Hp. simpl in Hp.
    destruct n as [|n]; [simpl in Hlen; lia|].
    rewrite (pollLoop_pending _ _ _ _ _ _ Hd He Hp).
    eapply (IH n _ d delay r rest); [exact Hd | reflexivity | exact Hall | | exact Hst].
    simpl in Hlen. lia.
Qed.

(** X17.  The device flow from end to end.  No token set is held; the
    device-code endpoint replies with a device code; the token endpoint says
    "authorization_pending" fewer than [CONFIG.MAX_POLL_ATTEMPTS] times and
    then grants a token whose lifetime is longer than the buffer; the two
    files can be written.  Then the first [getValidAccessToken] throws the
    instructions and leaves the poll detached; the poll, when the event loop
    runs it, returns; and the next [getValidAccessToken] returns the access
    token granted, without any further request. *)
Theorem device_flow_ends_with_the_granted_token
    (s : State) (delay : Z) (r : DeviceCodeResponse.t)
    (rest : list (Z * reply DeviceCodeResponse.t))
    (pendings : list (Z * reply TokenResponse.t)) (delay' : Z) (g : TokenResponse.t)
    (rest' : list (Z * reply TokenResponse.t)) :
  tokens (self s) = None ->
  device_endpoint (world s) = (delay, Resolve r) :: rest ->
  token_endpoint (world s) = pendings ++ (delay', Resolve g) :: rest' ->
  Forall (fun x => is_pending x = true) pendings ->
  (length pendings < CONFIG.MAX_POLL_ATTEMPTS)%nat ->
  TokenResponse.expires_in g * 1000 > CONFIG.TOKEN_EXPIRY_BUFFER ->
  storable s CONFIG.DEVICE_FILE ->
  storable s CONFIG.TOKEN_FILE ->
  exists s1 s2,
    getValidAccessToken s
    = (Throw (Error (stringify_authInstructions (instructions_of r))), s1) /\
    detached (world s1) = BackgroundPoll :: detached (world s) /\
    run BackgroundPoll s1 = (Return tt, s2) /\
    getValidAccessToken s2 = (Return (TokenResponse.access_token g), s2) /\
    token_endpoint (world s2) = rest'.
Proof.
  intros Ht He Hte Hall Hlen Hlife Hsd Hst.
  destruct (proj1 Hsd) as [key Hk].
  set (s0 := on_self (with_deviceCode (Some (device_of r)))
               (device_received delay rest (entered s))).
  set (s1 := logged [auth_error_line (Error (stringify_authInstructions (instructions_of r)))]
               (launched (saved key CONFIG.DEVICE_FILE (device_of r) s0))).
  assert (getValidAccessToken s
          = (Throw (Error (stringify_authInstructions (instructions_of r))), s1)) as Hg.
  { apply (getValidAccessToken_no_tokens _ _ _ Ht).
    erewrite authenticate_resolved; [| exact He |].
    2:{ apply saveEncryptedData_ok; [exact Hk | exact Hsd]. }
    reflexivity. }
  set (s1' := logged [auth_error_line (Error (stringify_authInstructions (instructions_of r)))]
                (on_world (fun w => with_detached (BackgroundPoll :: detached w) w)
                   (logged [Stderr "[POLL] Starting background token polling";
                            Stderr "[AUTH] Returning authentication instructions from AuthManager.authenticate()"]
                      (saved key CONFIG.DEVICE_FILE (device_of r) s0)))).
  assert (s1 = on_world (fun w => with_sent
                  (PostToken (DeviceCodeGrant (DeviceCode.device_code (device_of r)))
                   :: sent w) w) s1') as Hs1 by reflexivity.
  assert (storable s1' CONFIG.TOKEN_FILE) as Hst1.
  { apply (storable_same s).
    - change (Some key = effective_key s). by rewrite Hk.
    - reflexivity.
    - change (<[CONFIG.DEVICE_FILE := File (stringify (sealed key s0 (device_of r)))]>
                (files (world s)) !! CONFIG.TOKEN_FILE = files (world s) !! CONFIG.TOKEN_FILE).
      by rewrite lookup_insert_ne.
    - change (<[CONFIG.DEVICE_FILE := File (stringify (sealed key s0 (device_of r)))]>
                (files (world s)) !! dirname CONFIG.TOKEN_FILE
              = files (world s) !! dirname CONFIG.TOKEN_FILE).
      by rewrite lookup_insert_ne.
    - exact Hst. }
  destruct (pollLoop_granted_tokens pendings CONFIG.MAX_POLL_ATTEMPTS s1' (device_of r)
              delay' g rest') as (s2 & Hp & Htk & Hrest);
    [reflexivity | exact Hte | exact Hall | exact Hlen | exact Hst1 |].
  exists s1, (logged [Stderr "[POLL] Background polling completed successfully"] s2).
  split; [exact Hg|]. split; [reflexivity|]. split; [|split; [|exact Hrest]].
  - simpl. rewrite pollForTokenInBackground_resumed_spec, Hs1.
    rewrite <- (pollForToken_in_two_steps s1' (device_of r) eq_refl).
    rewrite pollForToken_pollLoop, Hp. reflexivity.
  - apply (getValidAccessToken_fresh _ (issued_by_poll g (now (world s2)))); [exact Htk|].
    simpl. unfold CONFIG.TOKEN_EXPIRY_BUFFER in *. lia.
Qed.

End Lifecycle.

(* ===================================================================== *)
(** * Properties of the tools that call AuthManager *)
(* ===================================================================== *)

Section ToolsProperties.

Context {crypto : Crypto}.
Context {json_blob : JSON EncryptedData}.
Context {json_tokens : JSON TokenSet.t}.
Context {json_device : JSON DeviceCode.t}.
Context {json_value : JSON json}.

(** What [handleError] is in terms of the refresh it may try. *)
Lemma handleError_spec operation error s :
  EmailTools.handleError operation error s
  = if bool_decide (ToolError.status error = Some 401) then
      match refreshAccessToken (logged [email_failure_line operation error] s) with
      | (Return _, s1) =>
          (Return {| ToolResult.success := false;
                     ToolResult.authentication_required := None;
                     ToolResult.message := None;
                     ToolResult.instructions := None;
                     ToolResult.error :=
                       Some "Authentication refreshed. Please retry the operation.";
                     ToolResult.details := None;
                     ToolResult.retryable := Some true;
                     ToolResult.hasValidToken := None;
                     ToolResult.data := None |}, s1)
      | (Throw refreshError, s1) =>
          (Return {| ToolResult.success := false;
                     ToolResult.authentication_required := None;
                     ToolResult.message := None;
                     ToolResult.instructions := None;
                     ToolResult.error :=
                       Some "Authentication failed. Please re-authorize the application.";
                     ToolResult.details := Some (message refreshError);
                     ToolResult.retryable := None;
                     ToolResult.hasValidToken := None;
                     ToolResult.data := None |}, s1)
      end
    else
      (Return {| ToolResult.success := false;
                 ToolResult.authentication_required := None;
                 ToolResult.message := None;
                 ToolResult.instructions := None;
                 ToolResult.error := Some ("Failed to " +:+ operation);
                 ToolResult.details :=
                   Some (Js.or_str (ToolError.data_error_message error)
                           (ToolError.message error));
                 ToolResult.retryable := None;
                 ToolResult.hasValidToken := None;
                 ToolResult.data := None |},
       logged [email_failure_line operation error] s).
Proof.
  unfold EmailTools.handleError. unfold bind at 1. unfold console_error, modify.
  change (on_world (λ w, with_console
            (Stderr ("Email " +:+ operation +:+ " failed: " +:+ ToolError.message error)
             :: console w) w) s)
    with (logged [email_failure_line operation error] s).
  destruct (bool_decide (ToolError.status error = Some 401)); [|reflexivity].
  unfold try_catch, bind.
  destruct (refreshAccessToken _) as [[[]|e] s1]; reflexivity.
Qed.

(** X18.  [handleError] of [EmailTools] never throws and never reports
    success.  For an error whose status is not 401 it only writes a line: no
    request is sent and the credentials held are untouched.  For a 401 it
    tries one refresh, and the result is marked [retryable] exactly when
    that refresh returned; when the refresh threw, the result says
    "Authentication failed. Please re-authorize the application." with the
    message of the refresh as details, and the manager is left as the
    refresh left it: holding no token set unless the refresh threw for want
    of a refresh token. *)
Theorem handleError_retryable_iff_refreshed
    (operation : string) (error : ToolError.t) (s : State) :
  exists result s',
    EmailTools.handleError operation error s = (Return result, s') /\
    ToolResult.success result = false /\
    (ToolError.status error <> Some 401 ->
     s' = logged [email_failure_line operation error] s /\
     ToolResult.error result = Some ("Failed to " +:+ operation) /\
     ToolResult.retryable result = None) /\
    (ToolResult.retryable result = Some true <->
     ToolError.status error = Some 401 /\
     (refreshAccessToken (logged [email_failure_line operation error] s)).1 = Return tt) /\
    (ToolError.status error = Some 401 ->
     s' = (refreshAccessToken (logged [email_failure_line operation error] s)).2 /\
     (ToolResult.retryable result = None ->
      ToolResult.error result
      = Some "Authentication failed. Please re-authorize the application." /\
      (ToolResult.details result = Some "Token refresh failed. Please re-authenticate." /\
       tokens (self s') = None \/
       ToolResult.details result
       = Some "No refresh token available. Please re-authenticate." /\
       tokens (self s') = tokens (self s)))).
Proof.
  rewrite handleError_spec.
  destruct (bool_decide_reflect (ToolError.status error = Some 401)) as [H401|H401].
  - pose proof (refreshAccessToken_cases (logged [email_failure_line operation error] s)) as Hc.
    destruct (refreshAccessToken _) as [[[]|e] s1]; simpl in Hc.
    + eexists _, _. split; [reflexivity|]. split; [reflexivity|].
      split; [done|]. split; [by split|]. split; [reflexivity|]. done.
    + eexists _, _. split; [reflexivity|]. split; [reflexivity|].
      split; [done|]. split; [split; [done|by intros [_ ?]]|].
      split; [reflexivity|]. intros _. split; [reflexivity|]. simpl.
      inversion Hc as [Hn|held rt Ht Hrt Htr He|held rt delay e' rest Ht Hrt Htr He
                       | |held rt delay r rest m s2 Ht Hrt Htr He Hst Hfr]; subst.
      * right. by split.
      * left. by split.
      * left. by split.
      * left. by split.
  - eexists _, _. split; [reflexivity|]. split; [reflexivity|].
    split; [by intros _|]. split; [split; [done|by intros [? _]]|]. done.
Qed.

(** Whatever becomes of it, [authenticate] sends one device-code request,
    and the first request of the poll when it starts the poll; it leaves the
    token set alone.  It starts the poll exactly when the device code has
    come and has been saved. *)
Lemma authenticate_sends s :
  flow_started s (authenticate s).2 /\
  tokens (self (authenticate s).2) = tokens (self s) /\
  (detached (world (authenticate s).2) = BackgroundPoll :: detached (world s) <->
   exists delay r rest,
     device_endpoint (world s) = (delay, Resolve r) :: rest /\
     storable s CONFIG.DEVICE_FILE).
Proof.
  assert (forall l : list task, l <> BackgroundPoll :: l) as Hneq.
  { intros l Hl. apply (f_equal length) in Hl. simpl in Hl. lia. }
  destruct (device_endpoint (world s)) as [|[delay [r|e]] rest] eqn:He.
  - rewrite (authenticate_no_reply _ He). split; [by left|]. split; [done|].
    split; [intros Hd; simpl in Hd; by destruct (Hneq _ Hd)|by intros (? & ? & ? & ? & _)].
  - destruct (saveEncryptedData_cases
      (on_self (with_deviceCode (Some (device_of r)))
         (device_received delay rest (entered s)))
      CONFIG.DEVICE_FILE (device_of r))
      as [(key & Hk & Hst & Hs)|(m & s2 & Hst & Hs & Hfr & _)];
      rewrite (authenticate_resolved _ _ _ _ _ _ He Hs).
    + split; [right; by exists (device_of r)|]. split; [done|].
      split; [intros _; by exists delay, r, rest|done].
    + cbn [snd]. split.
      { left. split; [exact (frame_sent _ _ _ Hfr)|exact (frame_detached _ _ _ Hfr)]. }
      split; [exact (frame_tokens _ _ _ Hfr)|].
      split.
      * intros Hd. simpl in Hd. rewrite (frame_detached _ _ _ Hfr) in Hd.
        by destruct (Hneq _ Hd).
      * intros (? & ? & ? & _ & Hst'). by destruct Hst.
  - rewrite (authenticate_rejected _ _ _ _ He). split; [by left|]. split; [done|].
    split; [intros Hd; simpl in Hd; by destruct (Hneq _ Hd)|by intros (? & ? & ? & ? & _)].
Qed.

(** [checkAuthStatus] in terms of [getValidAccessToken]. *)
Lemma checkAuthStatus_spec s :
  ProfileTools.checkAuthStatus s
  = match getValidAccessToken s with
    | (Return accessToken, s1) =>
        (Return {| ToolResult.success := Js.truthy (Some accessToken);
                   ToolResult.authentication_required := None;
                   ToolResult.message :=
                     Some (JString (if Js.truthy (Some accessToken)
                                    then "Authentication is valid and ready to use."
                                    else "No valid authentication token found."));
                   ToolResult.instructions := None;
                   ToolResult.error := None;
                   ToolResult.details := None;
                   ToolResult.retryable := None;
                   ToolResult.hasValidToken := Some (Js.truthy (Some accessToken));
                   ToolResult.data := None |}, s1)
    | (Throw e, s1) => status_of_failure e s1
    end.
Proof.
  unfold ProfileTools.checkAuthStatus, try_catch. unfold bind at 1.
  destruct (getValidAccessToken s) as [[[|c a]|e] s1]; reflexivity.
Qed.

(** The [catch] of [checkAuthStatus] never throws, never reports success and
    changes nothing; it reports that authentication is required when the
    message of the error parses to a value other than [null], of which it
    passes on the members [message] and [instructions]. *)
Lemma status_of_failure_spec e s :
  exists result,
    status_of_failure e s = (Return result, s) /\
    ToolResult.success result = false /\
    ToolResult.hasValidToken result = Some false /\
    (forall authData,
        Js.includes "authentication_required" (message e) = true ->
        parse (message e) = Some authData ->
        authData <> JNull ->
        ToolResult.authentication_required result = Some true /\
        ToolResult.message result = authData_of authData "message" /\
        ToolResult.instructions result = authData_of authData "instructions").
Proof.
  unfold status_of_failure.
  destruct (Js.includes "authentication_required" (message e)); [|by eexists].
  unfold try_catch, bind, JSON_parse.
  destruct (parse (message e)) as [authData|]; [|by eexists].
  destruct authData; simpl; eexists;
    (split; [reflexivity|]); (split; [reflexivity|]); (split; [reflexivity|]);
    intros authData' _ [= <-] Hnull; done.
Qed.

(** X19.  [checkAuthStatus] never throws, and it has no effect of its own:
    the state it leaves is the one [getValidAccessToken] leaves.  It reports
    success exactly when [getValidAccessToken] returned a token that is not
    empty, and [hasValidToken] says the same.  So with no token set held,
    checking the status is not a mere look: each check sends a device-code
    request, that is, starts a device flow anew; and when the device code
    comes and is saved, the check has also started a background poll, whose
    first request to the token endpoint is sent before the check ends. *)
Theorem checkAuthStatus_is_getValidAccessToken (s : State) :
  exists result,
    ProfileTools.checkAuthStatus s = (Return result, (getValidAccessToken s).2) /\
    (ToolResult.success result = true <->
     exists accessToken,
       (getValidAccessToken s).1 = Return accessToken /\ accessToken <> EmptyString) /\
    ToolResult.hasValidToken result = Some (ToolResult.success result) /\
    (tokens (self s) = None ->
     ToolResult.success result = false /\
     flow_started s (getValidAccessToken s).2 /\
     (detached (world (getValidAccessToken s).2) = BackgroundPoll :: detached (world s) <->
      exists delay r rest,
        device_endpoint (world s) = (delay, Resolve r) :: rest /\
        storable s CONFIG.DEVICE_FILE)).
Proof.
  rewrite checkAuthStatus_spec.
  assert (tokens (self s) = None ->
          (exists e, (getValidAccessToken s).1 = Throw e) /\
          flow_started s (getValidAccessToken s).2 /\
          (detached (world (getValidAccessToken s).2)
           = BackgroundPoll :: detached (world s) <->
           exists delay r rest,
             device_endpoint (world s) = (delay, Resolve r) :: rest /\
             storable s CONFIG.DEVICE_FILE)) as Hnone.
  { intros Ht. destruct (authenticate_throws s) as (e & s' & Ha).
    pose proof (authenticate_sends s) as (Hs & _ & Hd). rewrite Ha in Hs, Hd.
    rewrite (getValidAccessToken_no_tokens _ _ _ Ht Ha). eauto. }
  destruct (getValidAccessToken s) as [[accessToken|e] s1]; cbn [fst snd] in *.
  - eexists. split; [reflexivity|]. cbn [ToolResult.success ToolResult.hasValidToken].
    split; [|split; [reflexivity|]].
    + destruct accessToken as [|c a]; simpl.
      * split; [done|]. by intros (a & [= <-] & ?).
      * split; [by eexists|done].
    + intros Ht. by destruct (Hnone Ht) as [[e ?] _].
  - destruct (status_of_failure_spec e s1) as (result & -> & Hsucc & Hvalid & _).
    exists result. split; [reflexivity|]. rewrite Hsucc.
    split; [split; [done|by intros (a & ? & _)]|].
    split; [exact Hvalid|]. intros Ht. split; [reflexivity|].
    by destruct (Hnone Ht) as (_ & ? & ?).
Qed.

(** [authenticate] of [ProfileTools] in terms of [authenticate] of
    [AuthManager]. *)
Lemma ProfileTools_authenticate_spec s :
  ProfileTools.authenticate s
  = match authenticate (logged [Stderr "[TOOL] Entered ProfileTools.authenticate()"] s) with
    | (Return _, s1) =>
        (Return {| ToolResult.success := true;
                   ToolResult.authentication_required := None;
                   ToolResult.message :=
                     Some (JString "Authentication successful! You can now use other tools.");
                   ToolResult.instructions := None;
                   ToolResult.error := None;
                   ToolResult.details := None;
                   ToolResult.retryable := None;
                   ToolResult.hasValidToken := None;
                   ToolResult.data := None |},
         logged [Stderr "[TOOL] AuthManager.authenticate() completed successfully"] s1)
    | (Throw e, s1) =>
        instructions_of_failure e
          (logged [Stderr ("[TOOL ERROR] ProfileTools.authenticate() failed: " +:+ message e)]
             s1)
    end.
Proof.
  unfold ProfileTools.authenticate. unfold bind at 1. unfold stderr_write at 1, modify.
  change (on_world (λ w, with_console
            (Stderr "[TOOL] Entered ProfileTools.authenticate()" :: console w) w) s)
    with (logged [Stderr "[TOOL] Entered ProfileTools.authenticate()"] s).
  unfold try_catch. unfold bind at 1.
  destruct (authenticate _) as [[[]|e] s1]; reflexivity.
Qed.

(** The [catch] of [authenticate] of [ProfileTools] never throws, never
    reports success and only writes to standard error. *)
Lemma instructions_of_failure_spec e s :
  exists result ls,
    instructions_of_failure e s = (Return result, logged ls s) /\
    ToolResult.success result = false /\
    (forall authData,
        Js.includes "authentication_required" (message e) = true ->
        parse (message e) = Some authData ->
        authData <> JNull ->
        ToolResult.authentication_required result = Some true /\
        ToolResult.message result = authData_of authData "message" /\
        ToolResult.instructions result = authData_of authData "instructions").
Proof.
  unfold instructions_of_failure.
  destruct (Js.includes "authentication_required" (message e)).
  2:{ eexists _, []. destruct s as [[] a]. by repeat split. }
  unfold try_catch, bind, JSON_parse.
  destruct (parse (message e)) as [authData|]; [|by eexists _, [_]].
  destruct authData; simpl;
    first [eexists _, [_]; (split; [reflexivity|])
          |eexists _, [_; _]; (split; [reflexivity|])];
    (split; [reflexivity|]);
    intros authData' _ [= <-] Hnull; done.
Qed.

(** X20.  The tool [authenticate_graph_mcp] never reports success and never
    throws.  Its code has a branch that returns "Authentication successful!",
    but [authenticate] of [AuthManager] always throws, so the branch is never
    taken.  Whatever the manager holds, a valid token set included, each
    call sends one device-code request and leaves the token set as it was;
    and when the device code comes and is saved, the call has also started a
    background poll, whose first request to the token endpoint is sent
    before the call ends. *)
Theorem ProfileTools_authenticate_never_succeeds (s : State) :
  exists result s',
    ProfileTools.authenticate s = (Return result, s') /\
    ToolResult.success result = false /\
    flow_started s s' /\
    (detached (world s') = BackgroundPoll :: detached (world s) <->
     exists delay r rest,
       device_endpoint (world s) = (delay, Resolve r) :: rest /\
       storable s CONFIG.DEVICE_FILE) /\
    tokens (self s') = tokens (self s).
Proof.
  rewrite ProfileTools_authenticate_spec.
  set (s0 := logged [Stderr "[TOOL] Entered ProfileTools.authenticate()"] s).
  destruct (authenticate_throws s0) as (e & s1 & Ha).
  pose proof (authenticate_sends s0) as (Hs & Ht & Hd). rewrite Ha in Hs, Ht, Hd.
  rewrite Ha.
  destruct (instructions_of_failure_spec e
              (logged [Stderr ("[TOOL ERROR] ProfileTools.authenticate() failed: "
                               +:+ message e)] s1))
    as (result & ls & -> & Hsucc & _).
  exists result. eexists. split; [reflexivity|]. split; [exact Hsucc|].
  split; [exact Hs|]. split; [exact Hd|exact Ht].
Qed.

(** X21.  Both tools pass the instructions on.  The device-code endpoint
    replies with a device code and the device file can be written;
    [JSON.parse] reads the message that [authenticate] of [AuthManager]
    throws as the value [authData].  Then [authenticate] of [ProfileTools],
    and [checkAuthStatus] when no token set is held, return a result marked
    [authentication_required] whose [message] and [instructions] are those
    members of [authData], and the poll has been started. *)
Theorem tools_return_the_instructions
    (s : State) (delay : Z) (r : DeviceCodeResponse.t)
    (rest : list (Z * reply DeviceCodeResponse.t)) (authData : json) :
  device_endpoint (world s) = (delay, Resolve r) :: rest ->
  storable s CONFIG.DEVICE_FILE ->
  parse (stringify_authInstructions (instructions_of r)) = Some authData ->
  authData <> JNull ->
  (exists result s',
      ProfileTools.authenticate s = (Return result, s') /\
      ToolResult.success result = false /\
      ToolResult.authentication_required result = Some true /\
      ToolResult.message result = authData_of authData "message" /\
      ToolResult.instructions result = authData_of authData "instructions" /\
      detached (world s') = BackgroundPoll :: detached (world s)) /\
  (tokens (self s) = None ->
   exists result s',
     ProfileTools.checkAuthStatus s = (Return result, s') /\
     ToolResult.success result = false /\
     ToolResult.authentication_required result = Some true /\
     ToolResult.message result = authData_of authData "message" /\
     ToolResult.instructions result = authData_of authData "instructions" /\
     detached (world s') = BackgroundPoll :: detached (world s)).
Proof.
  intros He Hst Hparse Hnull.
  assert (forall s0, device_endpoint (world s0) = (delay, Resolve r) :: rest ->
            storable s0 CONFIG.DEVICE_FILE ->
            exists s1,
              authenticate s0
              = (Throw (Error (stringify_authInstructions (instructions_of r))), s1) /\
              detached (world s1) = BackgroundPoll :: detached (world s0)) as Hauth.
  { intros s0 He0 Hst0. destruct (proj1 Hst0) as [key Hk]. eexists. split.
    - erewrite authenticate_resolved; [| exact He0 |].
      2:{ apply saveEncryptedData_ok; [exact Hk | exact Hst0]. }
      reflexivity.
    - reflexivity. }
  split.
  - rewrite ProfileTools_authenticate_spec.
    destruct (Hauth (logged [Stderr "[TOOL] Entered ProfileTools.authenticate()"] s))
      as (s1 & -> & Hdet); [exact He|exact Hst|].
    destruct (instructions_of_failure_spec
                (Error (stringify_authInstructions (instructions_of r)))
                (logged [Stderr ("[TOOL ERROR] ProfileTools.authenticate() failed: "
                                 +:+ message (Error (stringify_authInstructions
                                                       (instructions_of r))))] s1))
      as (result & ls & -> & Hsucc & Hinstr).
    destruct (Hinstr authData) as (Hreq & Hm & Hi);
      [apply authInstructions_recognized|exact Hparse|exact Hnull|].
    exists result. eexists. split; [reflexivity|]. by repeat split.
  - intros Ht. rewrite checkAuthStatus_spec.
    destruct (Hauth s He Hst) as (s1 & Ha & Hdet).
    rewrite (getValidAccessToken_no_tokens _ _ _ Ht Ha).
    destruct (status_of_failure_spec
                (Error (stringify_authInstructions (instructions_of r))) s1)
      as (result & -> & Hsucc & _ & Hinstr).
    destruct (Hinstr authData) as (Hreq & Hm & Hi);
      [apply authInstructions_recognized|exact Hparse|exact Hnull|].
    exists result, s1. by repeat split.
Qed.

End ToolsProperties.

(* ===================================================================== *)
(** * Properties of the security check script *)
(* ===================================================================== *)

Section SecurityCheckProperties.

Import SecurityCheck Verdict.

Lemma endsWith_refl s : endsWith s s = true.
Proof. destruct s; simpl; by rewrite ?Ascii.eqb_refl, ?String.eqb_refl. Qed.

(** A string that ends with [String c t] ends with [t]. *)
Lemma endsWith_tail s c t : endsWith s (String c t) = true -> endsWith s t = true.
Proof.
  induction s as [|x s IH]; [done|]. cbn [endsWith].
  intros [Heq|Hrest]%orb_true_iff; apply orb_true_iff.
  - apply String.eqb_eq in Heq. injection Heq as -> ->. right. apply endsWith_refl.
  - right. by apply IH.
Qed.

Lemma includes_tail needle c s :
  Js.includes needle s = true -> Js.includes needle (String c s) = true.
Proof. intros H. cbn [Js.includes]. rewrite H. apply orb_true_r. Qed.

(** What a string ends with is in it. *)
Lemma endsWith_includes needle s t :
  endsWith s t = true -> Js.includes needle t = true -> Js.includes needle s = true.
Proof.
  induction s as [|x s IH]; cbn [endsWith].
  - rewrite orb_false_r. by intros ->%String.eqb_eq.
  - intros [->%String.eqb_eq|Hrest]%orb_true_iff Hin; [done|].
    apply includes_tail. by apply IH.
Qed.

Lemma substring_0 s : substring 0 s = s.
Proof.
  unfold substring. change (Z.to_nat 0) with 0%nat. rewrite Nat.sub_0_r.
  induction s as [|c s IH]; [done|]. simpl. by rewrite IH.
Qed.

Lemma found_log text st : foundSensitiveFiles (set_found (log text st)) = true.
Proof. reflexivity. Qed.

(** The patterns with an asterisk report a file only if its name has the
    asterisk in it, and then the extensions report it too. *)
Lemma checkPattern_wildcard name fullPath st pattern ext :
  pattern = String "*" ext ->
  (Js.includes "*" name = false -> checkPattern name fullPath st pattern = st) /\
  (checkPattern name fullPath st pattern <> st -> endsWith name ext = true).
Proof.
  intros ->. unfold checkPattern.
  assert (Js.includes "*" (String "*" ext) = true) as -> by (simpl; by destruct ext).
  assert (indexOf "*" (String "*" ext) = 0) as -> by (simpl; by destruct ext).
  rewrite substring_0.
  destruct (endsWith name (String "*" ext)) eqn:He.
  - split.
    + intros Hn. rewrite (endsWith_includes "*" _ _ He) in Hn;
        [done|simpl; by destruct ext].
    + intros _. by apply (endsWith_tail _ "*").
  - by split.
Qed.

Lemma found_checkPattern_plain name fullPath st pattern :
  Js.includes "*" pattern = false ->
  foundSensitiveFiles (checkPattern name fullPath st pattern)
  = foundSensitiveFiles st || Js.includes pattern fullPath.
Proof.
  intros Hp. unfold checkPattern. rewrite Hp.
  destruct (Js.includes pattern fullPath); simpl; [by rewrite orb_true_r|by rewrite orb_false_r].
Qed.

Lemma found_checkPattern_wildcard name fullPath st ext :
  foundSensitiveFiles (checkPattern name fullPath st (String "*" ext))
  = foundSensitiveFiles st || endsWith name (String "*" ext).
Proof.
  unfold checkPattern.
  assert (Js.includes "*" (String "*" ext) = true) as -> by (simpl; by destruct ext).
  assert (indexOf "*" (String "*" ext) = 0) as -> by (simpl; by destruct ext).
  rewrite substring_0.
  destruct (endsWith name (String "*" ext)); simpl;
    [by rewrite orb_true_r|by rewrite orb_false_r].
Qed.

Lemma found_checkExtension name fullPath st ext :
  foundSensitiveFiles (checkExtension name fullPath st ext)
  = foundSensitiveFiles st || endsWith name ext.
Proof.
  unfold checkExtension.
  destruct (endsWith name ext); simpl; [by rewrite orb_true_r|by rewrite orb_false_r].
Qed.

(** After [checkFile] the variable is set when it was, or the file counts
    as sensitive. *)
Lemma found_checkFile name fullPath st :
  foundSensitiveFiles (checkFile name fullPath st)
  = foundSensitiveFiles st || sensitive name fullPath.
Proof.
  unfold checkFile, sensitive, sensitivePatterns, sensitiveExtensions, plainPatterns.
  cbn [fold_left existsb].
  rewrite !found_checkExtension.
  rewrite !found_checkPattern_plain by reflexivity.
  rewrite !found_checkPattern_wildcard.
  rewrite !found_checkPattern_plain by reflexivity.
  pose proof (endsWith_tail name "*" ".key") as Hkey.
  pose proof (endsWith_tail name "*" ".pem") as Hpem.
  pose proof (endsWith_tail name "*" ".crt") as Hcrt.
  pose proof (endsWith_tail name "*" ".cert") as Hcert.
  apply Bool.eq_iff_eq_true. rewrite !orb_true_iff.
  intuition (auto; congruence).
Qed.

(** X22.  The four patterns with an asterisk add nothing to the verdict.
    For such a pattern the script takes the pattern from its asterisk on,
    asterisk included, and asks whether the name of the file ends with that:
    so ["*.key"] matches only a name that ends with an asterisk followed by
    [".key"], and such a name ends with the extension [".key"], which the
    loop over [sensitiveExtensions] reports anyway.  After [checkFile] the
    variable [foundSensitiveFiles] is set exactly when it was set before, or
    the path contains one of the six patterns without asterisk, or the name
    ends with one of the six extensions; and for a name that has no asterisk
    in it, [checkFile] is what it would be with the six patterns without
    asterisk alone. *)
Theorem checkFile_wildcards_add_nothing (name fullPath : string) (st : Script) :
  foundSensitiveFiles (checkFile name fullPath st)
  = foundSensitiveFiles st || sensitive name fullPath /\
  (Js.includes "*" name = false ->
   checkFile name fullPath st
   = fold_left (checkExtension name fullPath) sensitiveExtensions
       (fold_left (checkPattern name fullPath) plainPatterns st)).
Proof.
  split; [apply found_checkFile|].
  intros Hn. unfold checkFile, sensitivePatterns, plainPatterns. cbn [fold_left].
  rewrite (proj1 (checkPattern_wildcard name fullPath _ "*.key" ".key" eq_refl) Hn).
  rewrite (proj1 (checkPattern_wildcard name fullPath _ "*.pem" ".pem" eq_refl) Hn).
  rewrite (proj1 (checkPattern_wildcard name fullPath _ "*.crt" ".crt" eq_refl) Hn).
  rewrite (proj1 (checkPattern_wildcard name fullPath _ "*.cert" ".cert" eq_refl) Hn).
  reflexivity.
Qed.

(** The scan of a directory that is not skipped is the scan of its
    entries. *)
Lemma checkEntry_directory os dir name entries st :
  checkEntry os dir (DirectoryEntry name entries) st
  = if skipped name then (Return tt, st)
    else checkDirectory os (path_join os dir name) entries st.
Proof.
  cbn [checkEntry]. destruct (skipped name); [reflexivity|].
  revert st. induction entries as [|file rest IH]; intros st; [reflexivity|].
  cbn [checkDirectory].
  destruct (checkEntry os (path_join os dir name) file st) as [[u|e] st'];
    [apply IH|reflexivity].
Qed.

(** Induction on a listing and on the listings below it. *)
Lemma Dirent_nested_ind (P : Dirent -> Prop) :
  (forall name, P (FileEntry name)) ->
  (forall name entries, Forall P entries -> P (DirectoryEntry name entries)) ->
  (forall name e, P (UnreadableDirectory name e)) ->
  forall file, P file.
Proof.
  intros Hfile Hdir Hunreadable.
  fix IH 1. intros [name|name entries|name e].
  - apply Hfile.
  - apply Hdir. induction entries as [|file rest IHrest]; constructor; [apply IH|exact IHrest].
  - apply Hunreadable.
Qed.

Lemma clean_FileEntry os dir name :
  clean os dir (FileEntry name) <-> sensitive name (path_join os dir name) = false.
Proof.
  split.
  - intros Hc. exact (Hc dir (FileEntry name) (within_self _ _ _)).
  - intros Hs d f Hw. by inversion Hw; subst.
Qed.

Lemma clean_UnreadableDirectory os dir name e :
  clean os dir (UnreadableDirectory name e) <-> skipped name = true.
Proof.
  split.
  - intros Hc. exact (Hc dir (UnreadableDirectory name e) (within_self _ _ _)).
  - intros Hs d f Hw. by inversion Hw; subst.
Qed.

Lemma clean_DirectoryEntry os dir name entries :
  clean os dir (DirectoryEntry name entries) <->
  (skipped name = true \/
   forall child, child ∈ entries -> clean os (path_join os dir name) child).
Proof.
  split.
  - intros Hc. destruct (skipped name) eqn:Hs; [by left|right].
    intros child Hin d f Hw. apply (Hc d f). by eapply within_child.
  - intros Hc d f Hw. inversion Hw as [|? ? ? child ? ? Hs Hin Hw']; subst; [done|].
    destruct Hc as [Hc|Hc]; [congruence|]. by apply (Hc child Hin d f).
Qed.

Lemma checkDirectory_passed os dir entries :
  Forall (fun file => forall dir st,
            passed (checkEntry os dir file st)
            <-> foundSensitiveFiles st = false /\ clean os dir file) entries ->
  forall st,
    passed (checkDirectory os dir entries st)
    <-> foundSensitiveFiles st = false /\
        forall file, file ∈ entries -> clean os dir file.
Proof.
  induction 1 as [|file rest Hfile Hrest IH]; intros st.
  - unfold passed. simpl. split; [intros [_ Hf]|intros [Hf _]]; [|done].
    split; [done|]. by intros file ?%elem_of_nil.
  - cbn [checkDirectory]. specialize (Hfile dir st).
    destruct (checkEntry os dir file st) as [[[]|e] st'].
    + rewrite IH. unfold passed in Hfile. simpl in Hfile. split.
      * intros [Hf Hc]. destruct (proj1 Hfile (conj eq_refl Hf)) as [Hst Hcf].
        split; [exact Hst|]. intros f [->|Hin]%elem_of_cons; [exact Hcf|by apply Hc].
      * intros [Hst Hc].
        destruct (proj2 Hfile (conj Hst (Hc file (list_elem_of_here _ _)))) as [_ Hf].
        split; [exact Hf|]. intros f Hin. apply Hc. by apply list_elem_of_further.
    + unfold passed in *. simpl in *. split; [by intros [? _]|].
      intros [Hst Hc].
      by destruct (proj2 Hfile (conj Hst (Hc file (list_elem_of_here _ _)))).
Qed.

Lemma checkEntry_passed os file : forall dir st,
  passed (checkEntry os dir file st)
  <-> foundSensitiveFiles st = false /\ clean os dir file.
Proof.
  induction file as [name|name entries IH|name e] using Dirent_nested_ind; intros dir st.
  - rewrite clean_FileEntry. unfold passed. cbn [checkEntry fst snd].
    rewrite found_checkFile, orb_false_iff. tauto.
  - rewrite clean_DirectoryEntry, checkEntry_directory.
    destruct (skipped name) eqn:Hs.
    + unfold passed. simpl. split; [intros [_ ?]; auto|intros [? _]; auto].
    + rewrite (checkDirectory_passed _ _ _ IH). split.
      * intros [? ?]. auto.
      * intros [? [?|?]]; [done|auto].
  - rewrite clean_UnreadableDirectory. unfold passed. cbn [checkEntry].
    destruct (skipped name); simpl; split; try tauto; intros [? ?]; done.
Qed.

Lemma prefix_trans (a b c : string) :
  String.prefix a b = true -> String.prefix b c = true -> String.prefix a c = true.
Proof.
  revert b c. induction a as [|x a IH]; intros b c; [by destruct c|].
  destruct b as [|y b]; [done|]. destruct c as [|z c]; [done|]. simpl.
  destruct (ascii_dec x y) as [->|]; [|done].
  destruct (ascii_dec y z) as [->|]; [|done].
  apply IH.
Qed.

Lemma prefix_tail (x y : ascii) (a b : string) :
  String.prefix (String x a) (String y b) = true -> String.prefix a b = true.
Proof. simpl. by destruct (ascii_dec x y). Qed.

(** What is in the start of a string is in the string. *)
Lemma includes_prefix (needle : string) : forall start hay,
  String.prefix start hay = true ->
  Js.includes needle start = true ->
  Js.includes needle hay = true.
Proof.
  induction start as [|x start IH]; intros hay Hp Hi.
  - destruct needle; [by destruct hay|done].
  - destruct hay as [|y hay]; [done|].
    cbn [Js.includes] in Hi |- *. apply orb_true_iff in Hi as [Hi|Hi].
    + by rewrite (prefix_trans _ _ _ Hi Hp).
    + rewrite (IH hay (prefix_tail _ _ _ _ Hp) Hi). apply orb_true_r.
Qed.

(** What is in a part of a string is in the string. *)
Lemma includes_trans (needle part : string) : forall hay,
  Js.includes part hay = true ->
  Js.includes needle part = true ->
  Js.includes needle hay = true.
Proof.
  induction hay as [|y hay IH]; intros Hp Hi.
  - cbn [Js.includes] in Hp. rewrite orb_false_r in Hp.
    by apply (includes_prefix needle part).
  - cbn [Js.includes] in Hp. apply orb_true_iff in Hp as [Hp|Hp].
    + by apply (includes_prefix needle part).
    + cbn [Js.includes]. rewrite (IH Hp Hi). apply orb_true_r.
Qed.

(** In a path without a slash the two patterns with a slash are not
    found. *)
Lemma sensitive_without_slash name fullPath :
  Js.includes "/" fullPath = false ->
  sensitive name fullPath
  = existsb (fun pattern => Js.includes pattern fullPath) slashlessPatterns
    || existsb (endsWith name) sensitiveExtensions.
Proof.
  intros Hs. unfold sensitive, plainPatterns, slashlessPatterns. cbn [existsb].
  destruct (Js.includes "config/config.js" fullPath) eqn:Hc.
  { rewrite (includes_trans "/" _ _ Hc eq_refl) in Hs. done. }
  destruct (Js.includes "data/" fullPath) eqn:Hd.
  { rewrite (includes_trans "/" _ _ Hd eq_refl) in Hs. done. }
  reflexivity.
Qed.

(** X23.  What the verdict of the script means, on either platform.  The
    script ends with exit status 0, after the line "Your repository is safe
    to commit and share.", exactly when nothing it comes to is sensitive:
    every file that is not under a directory named [node_modules] or [.git]
    has a path, as [path.join] of the platform makes it, that contains none
    of the six patterns without asterisk and a name that ends with none of
    the six extensions, and every directory that is not under these could
    be listed.  In every other case, the directory it is started in being
    unreadable included, the exit status is 1.  On [win32] the paths are
    made with backslashes: in a path without a slash the patterns
    "config/config.js" and "data/" are never found, so that there a file is
    sensitive by the four other patterns and the extensions alone. *)
Theorem main_exit_status (os : platform) (root : list Dirent) :
  ((main os (inr root)).2 = 0 <-> forall file, file ∈ root -> clean os "." file) /\
  ((main os (inr root)).2 = 0 ->
   head (output (main os (inr root)).1)
   = Some (Stdout "✅ Your repository is safe to commit and share.")) /\
  ((main os (inr root)).2 <> 0 -> (main os (inr root)).2 = 1) /\
  (forall e, (main os (inl e)).2 = 1) /\
  (forall dir name,
      Js.includes "/" (path_join win32 dir name) = false ->
      sensitive name (path_join win32 dir name)
      = existsb (fun pattern => Js.includes pattern (path_join win32 dir name))
          slashlessPatterns
        || existsb (endsWith name) sensitiveExtensions).
Proof.
  assert (((main os (inr root)).2 = 0 <-> forall file, file ∈ root -> clean os "." file) /\
          ((main os (inr root)).2 = 0 ->
           head (output (main os (inr root)).1)
           = Some (Stdout "✅ Your repository is safe to commit and share.")) /\
          ((main os (inr root)).2 <> 0 -> (main os (inr root)).2 = 1) /\
          (forall e, (main os (inl e)).2 = 1)) as (Hzero & Hline & Hone & Hroot).
  { unfold main.
    set (st0 := log "Checking for sensitive files..." _).
    pose proof (checkDirectory_passed os "." root
                  (proj2 (Forall_forall _ _) (fun file _ => checkEntry_passed os file)) st0)
      as Hp.
    unfold passed in Hp.
    destruct (checkDirectory os "." root st0) as [[[]|e] st]; simpl in Hp.
    - destruct (foundSensitiveFiles st) eqn:Hf; simpl.
      + split; [|by repeat split]. split; [done|]. intros Hc.
        by destruct (proj2 Hp (conj eq_refl Hc)).
      + split; [|by repeat split]. split; [|done]. intros _.
        by destruct (proj1 Hp (conj eq_refl eq_refl)).
    - split; [|by repeat split]. split; [done|]. intros Hc.
      by destruct (proj2 Hp (conj eq_refl Hc)). }
  split; [exact Hzero|]. split; [exact Hline|]. split; [exact Hone|].
  split; [exact Hroot|].
  intros dir name. apply sensitive_without_slash.
Qed.

End SecurityCheckProperties.

(* ===================================================================== *)
(** * Properties of the tools that call the Graph API *)
(* ===================================================================== *)

Section GraphToolsProperties.

Context {crypto : Crypto}.
Context {json_blob : JSON EncryptedData}.
Context {json_tokens : JSON TokenSet.t}.
Context {json_device : JSON DeviceCode.t}.
Context {http : Http}.

Lemma await_returns {A} (m : M A) p a s :
  m (manager p) = (Return a, s) -> await m p = (Returned a, with_manager s p).
Proof. intros Hm. unfold await. by rewrite Hm. Qed.

Lemma await_throws {A} (m : M A) p e s :
  m (manager p) = (Throw e, s) -> await m p = (Thrown (of_JsError e), with_manager s p).
Proof. intros Hm. unfold await. by rewrite Hm. Qed.

Lemma template_returns v p :
  can_be_text v = true -> template v p = (Returned (template_text v), p).
Proof. intros Hv. destruct v as [value|]; [|done]. simpl in *. by rewrite Hv. Qed.

Lemma axios_replied r p delay data rest :
  graph_endpoint p = (delay, Replied data) :: rest ->
  axios r p = (Returned data, graph_received r delay rest p).
Proof. intros He. unfold axios. by rewrite He. Qed.

Lemma axios_failed r p delay e rest :
  graph_endpoint p = (delay, Failed e) :: rest ->
  axios r p = (Thrown e, graph_received r delay rest p).
Proof. intros He. unfold axios. by rewrite He. Qed.

(** [handleError] for an error whose status is not 401. *)
Lemma handleError_other operation error s :
  ToolError.status error <> Some 401 ->
  EmailTools.handleError operation error s
  = (Return (failure ("Failed to " +:+ operation)
               (Js.or_str (ToolError.data_error_message error) (ToolError.message error))),
     logged [email_failure_line operation error] s).
Proof.
  intros Hs. rewrite handleError_spec. by rewrite bool_decide_eq_false_2.
Qed.

(** [handleError] never throws. *)
Lemma handleError_returns operation error s :
  exists result s', EmailTools.handleError operation error s = (Return result, s').
Proof.
  rewrite handleError_spec. destruct (bool_decide _); [|by eexists _, _].
  destruct (refreshAccessToken _) as [[[]|e] s1]; by eexists _, _.
Qed.


(** X25.  [getEmail] does not fetch the message again after a refresh.  A
    token set is held and not within the buffer, the message id can be made
    a string, and the Graph API answers 401: the request has been sent with the access token held, a refresh
    has been tried, and the result is a failure whatever became of the
    refresh, marked [retryable] exactly when the refresh returned; no second
    request has gone to the Graph API. *)
Theorem getEmail_does_not_fetch_again
    (messageId : option json) (p : Process) (held : TokenSet.t)
    (delay : Z) (e : ToolError.t) (rest : list (Z * graph_reply)) :
  truthy_value messageId = true ->
  can_be_text messageId = true ->
  tokens (self (manager p)) = Some held ->
  now (world (manager p)) < TokenSet.expires_at held - CONFIG.TOKEN_EXPIRY_BUFFER ->
  graph_endpoint p = (delay, Failed e) :: rest ->
  ToolError.status e = Some 401 ->
  exists result refreshed,
    refreshAccessToken
      (logged [email_failure_line "get email" e]
         (on_world (fun w => with_now (now w + delay) w) (manager p)))
    = refreshed /\
    EmailTools.getEmail messageId p
    = (Returned result,
       {| manager := refreshed.2;
          graph_endpoint := rest;
          graph_sent :=
            get_email_request messageId (TokenSet.access_token held) :: graph_sent p |}) /\
    ToolResult.success result = false /\
    ToolResult.data result = None /\
    (ToolResult.retryable result = Some true <-> refreshed.1 = Return tt).
Proof.
  intros Hid Htext Ht Hfresh He H401.
  unfold EmailTools.getEmail, Tool.try_catch. unfold Tool.bind at 1.
  rewrite Hid. cbn [Tool.ret]. unfold Tool.bind at 1.
  rewrite (await_returns _ _ _ _ (getValidAccessToken_fresh _ _ Ht Hfresh)).
  unfold Tool.bind at 1. rewrite (template_returns _ _ Htext).
  unfold Tool.bind at 1.
  rewrite (axios_failed _ (with_manager (manager p) p) _ _ _ He).
  cbn [graph_received with_manager manager graph_endpoint graph_sent].
  unfold await. cbn [manager]. rewrite handleError_spec.
  rewrite (bool_decide_eq_true_2 _ H401).
  destruct (refreshAccessToken _) as [[[]|e'] s1]; eexists _, _;
    (split; [reflexivity|]); (split; [reflexivity|]); (split; [reflexivity|]);
    (split; [reflexivity|]); simpl; by split.
Qed.

(** The token file can still be written once it has been. *)
Lemma storable_TOKEN_FILE_saved s s0 key (data : TokenSet.t) ls :
  storable s CONFIG.TOKEN_FILE ->
  unwritable (world s0) = unwritable (world s) ->
  files (world s0) = files (world s) ->
  storable (logged ls (saved key CONFIG.TOKEN_FILE data s0)) CONFIG.TOKEN_FILE.
Proof.
  intros (_ & Hw & Hp & _) Hw0 Hf0.
  split; [by eexists|]. split; [simpl; by rewrite Hw0|]. split.
  - unfold has_parent in *. change (dirname CONFIG.TOKEN_FILE) with CONFIG.DATA_DIR in *.
    change (String.eqb CONFIG.DATA_DIR "." || String.eqb CONFIG.DATA_DIR "/") with false in *.
    cbv iota in *. simpl. rewrite lookup_insert_ne by done. by rewrite Hf0.
  - simpl. by rewrite lookup_insert_eq.
Qed.

(** [getMyProfile] never throws. *)
Lemma getMyProfile_never_throws fuel : forall p e p',
  ProfileTools.getMyProfile fuel p <> (Thrown e, p').
Proof.
  assert (forall (recursive : Tool.T ToolResult.t),
            (forall p e p', recursive p <> (Thrown e, p')) ->
            forall p e p',
              Tool.try_catch
                (accessToken <- await getValidAccessToken ;;
                 response <- axios (profile_request accessToken) ;;
                 Tool.ret (succeeded response))%tool
                (fun error =>
                   (await (console_error ("Get profile failed: "
                                          +:+ ToolError.message error)) ;;
                    if bool_decide (ToolError.status error = Some 401) then
                      Tool.try_catch
                        (await refreshAccessToken ;; recursive)
                        (fun refreshError =>
                           Tool.ret (failure
                             "Authentication failed. Please re-authorize the application."
                             (ToolError.message refreshError)))
                    else
                      Tool.ret (failure "Failed to retrieve profile information"
                                  (Js.or_str (ToolError.data_error_message error)
                                     (ToolError.message error))))%tool) p
              <> (Thrown e, p')) as Hbody.
  { intros recursive Hrec p e p'. unfold Tool.try_catch at 1.
    destruct (Tool.bind _ _ p) as [[a|e0|] p0]; [done| |done].
    unfold Tool.bind at 1. unfold await at 1, console_error, modify.
    destruct (bool_decide _); [|done].
    unfold Tool.try_catch, Tool.bind, await.
    destruct (refreshAccessToken _) as [[[]|e1] s1]; [|done].
    destruct (recursive _) as [[a|e2|] p2] eqn:Hr; [done| |done].
    by destruct (Hrec _ _ _ Hr). }
  induction fuel as [|fuel IH]; intros p e p'.
  - apply (Hbody Tool.unfinished). done.
  - apply (Hbody (ProfileTools.getMyProfile fuel)). exact IH.
Qed.

(** [getMyProfile] when the token set is not within the buffer and the
    Graph API replies. *)
Lemma getMyProfile_replied fuel p held delay data rest :
  tokens (self (manager p)) = Some held ->
  now (world (manager p)) < TokenSet.expires_at held - CONFIG.TOKEN_EXPIRY_BUFFER ->
  graph_endpoint p = (delay, Replied data) :: rest ->
  ProfileTools.getMyProfile fuel p
  = (Returned (succeeded data),
     graph_received (profile_request (TokenSet.access_token held)) delay rest p).
Proof.
  intros Ht Hfresh He. destruct fuel; cbn [ProfileTools.getMyProfile];
    unfold Tool.try_catch; unfold Tool.bind at 1;
    rewrite (await_returns _ _ _ _ (getValidAccessToken_fresh _ _ Ht Hfresh));
    unfold Tool.bind at 1;
    rewrite (axios_replied _ (with_manager (manager p) p) _ _ _ He); reflexivity.
Qed.

(** [getMyProfile] when the Graph API answers 401 and the refresh is
    granted: it calls itself. *)
Lemma getMyProfile_unauthorized fuel p held delay e rest c rt delay' r rest' key :
  tokens (self (manager p)) = Some held ->
  now (world (manager p)) < TokenSet.expires_at held - CONFIG.TOKEN_EXPIRY_BUFFER ->
  graph_endpoint p = (delay, Failed e) :: rest ->
  ToolError.status e = Some 401 ->
  TokenSet.refresh_token held = Some (String c rt) ->
  token_endpoint (world (manager p)) = (delay', Resolve r) :: rest' ->
  effective_key (manager p) = Some key ->
  storable (manager p) CONFIG.TOKEN_FILE ->
  ProfileTools.getMyProfile (S fuel) p
  = ProfileTools.getMyProfile fuel
      {| manager :=
           logged [Stdout "Token refreshed successfully"]
             (saved key CONFIG.TOKEN_FILE
                (issued_by_refresh held r (now (world (manager p)) + delay + delay'))
                (on_self (with_tokens
                   (Some (issued_by_refresh held r (now (world (manager p)) + delay + delay'))))
                   (received (PostToken (RefreshTokenGrant (String c rt))) delay' rest'
                      (logged [Stderr ("Get profile failed: " +:+ ToolError.message e)]
                         (on_world (fun w => with_now (now w + delay) w) (manager p))))));
         graph_endpoint := rest;
         graph_sent := profile_request (TokenSet.access_token held) :: graph_sent p |}.
Proof.
  intros Ht Hfresh He H401 Hrt Hte Hk Hst.
  cbn [ProfileTools.getMyProfile]. unfold Tool.try_catch at 1. unfold Tool.bind at 1.
  rewrite (await_returns _ _ _ _ (getValidAccessToken_fresh _ _ Ht Hfresh)).
  unfold Tool.bind at 1.
  rewrite (axios_failed _ (with_manager (manager p) p) _ _ _ He).
  cbn [graph_received with_manager manager graph_endpoint graph_sent].
  unfold Tool.bind at 1. unfold await at 1. cbn [manager].
  unfold console_error, modify. cbn [with_manager graph_endpoint graph_sent].
  rewrite (bool_decide_eq_true_2 _ H401).
  unfold Tool.try_catch at 1. unfold Tool.bind at 1. unfold await at 1. cbn [manager].
  set (s0 := on_world (fun w => with_console
               (Stderr ("Get profile failed: " +:+ ToolError.message e) :: console w) w)
               (on_world (fun w => with_now (now w + delay) w) (manager p))).
  assert (refreshAccessToken s0
          = (Return tt,
             logged [Stdout "Token refreshed successfully"]
               (saved key CONFIG.TOKEN_FILE
                  (issued_by_refresh held r (now (world s0) + delay'))
                  (on_self (with_tokens
                     (Some (issued_by_refresh held r (now (world s0) + delay'))))
                     (received (PostToken (RefreshTokenGrant (String c rt))) delay' rest'
                        s0))))) as Hr.
  { rewrite (refreshAccessToken_resolved s0 held c rt delay' r rest' (Return tt)
               (saved key CONFIG.TOKEN_FILE
                  (issued_by_refresh held r (now (world s0) + delay'))
                  (on_self (with_tokens
                     (Some (issued_by_refresh held r (now (world s0) + delay'))))
                     (received (PostToken (RefreshTokenGrant (String c rt))) delay' rest'
                        s0))) Ht Hrt Hte);
      [reflexivity|].
    apply saveEncryptedData_ok; [exact Hk|exact Hst]. }
  match goal with
  | |- context [refreshAccessToken ?st] => change st with s0
  end.
  rewrite Hr.
  match goal with
  | |- _ = ProfileTools.getMyProfile fuel ?st => set (p1 := st)
  end.
  match goal with
  | |- context [ProfileTools.getMyProfile fuel (with_manager ?a ?b)] =>
      change (with_manager a b) with p1
  end.
  pose proof (getMyProfile_never_throws fuel p1) as Hnever.
  destruct (ProfileTools.getMyProfile fuel p1) as [[a|e0|] p0] eqn:Hg.
  - reflexivity.
  - by destruct (Hnever _ _ eq_refl).
  - reflexivity.
Qed.

(** X26.  [getMyProfile] does not retry once: it retries as often as the
    Graph API answers 401 and the refresh is granted.  A token set with a
    refresh token is held and not within the buffer, and the token file can
    be written; the Graph API answers 401 to the first [n] requests and then
    replies, and the token endpoint grants [n] refreshes, each for longer
    than the buffer.  Then [getMyProfile] returns the data of that reply: it
    has sent [n + 1] requests to the Graph API and [n] refresh requests.
    (The calls are nested in one another, [n] deep.) *)
Theorem getMyProfile_retries_after_every_refresh
    (fails : list (Z * graph_reply)) (grants : list (Z * reply TokenResponse.t))
    (p : Process) (held : TokenSet.t) (data : json) (delay : Z)
    (rest : list (Z * graph_reply)) (rest' : list (Z * reply TokenResponse.t)) :
  tokens (self (manager p)) = Some held ->
  Js.truthy (TokenSet.refresh_token held) = true ->
  now (world (manager p)) < TokenSet.expires_at held - CONFIG.TOKEN_EXPIRY_BUFFER ->
  storable (manager p) CONFIG.TOKEN_FILE ->
  graph_endpoint p = fails ++ (delay, Replied data) :: rest ->
  Forall (fun x => is_unauthorized x = true) fails ->
  token_endpoint (world (manager p)) = grants ++ rest' ->
  Forall (fun x => is_lasting_grant x = true) grants ->
  length grants = length fails ->
  exists p',
    (forall fuel, (length fails <= fuel)%nat ->
                  ProfileTools.getMyProfile fuel p = (Returned (succeeded data), p')) /\
    length (graph_sent p') = (S (length fails) + length (graph_sent p))%nat /\
    length (sent (world (manager p')))
    = (length fails + length (sent (world (manager p))))%nat /\
    graph_endpoint p' = rest /\
    token_endpoint (world (manager p')) = rest'.
Proof.
  revert grants p held.
  induction fails as [|[d [x|e]] fails IH];
    intros grants p held Ht Htr Hfresh Hst He Hall Hte Hgr Hlen.
  - destruct grants; [|done]. simpl in He, Hte.
    eexists. split.
    + intros fuel _. exact (getMyProfile_replied fuel _ _ _ _ _ Ht Hfresh He).
    + by repeat split.
  - apply Forall_cons in Hall as [Hx _]. done.
  - apply Forall_cons in Hall as [H401 Hall].
    unfold is_unauthorized in H401. simpl in H401. apply bool_decide_eq_true_1 in H401.
    destruct grants as [|[d' [r|e']] grants]; [done| |].
    2:{ apply Forall_cons in Hgr as [Hx _]. done. }
    apply Forall_cons in Hgr as [Hlast Hgr].
    unfold is_lasting_grant in Hlast. simpl in Hlast. apply Z.ltb_lt in Hlast.
    destruct (TokenSet.refresh_token held) as [[|c rt]|] eqn:Hrt; try done.
    destruct (proj1 Hst) as [key Hk].
    pose proof (fun fuel =>
      getMyProfile_unauthorized fuel p held d e (fails ++ (delay, Replied data) :: rest)
        c rt d' r (grants ++ rest') key Ht Hfresh He H401 Hrt Hte Hk Hst) as Hstep.
    match type of Hstep with
    | forall fuel, _ = ProfileTools.getMyProfile fuel ?st => set (p1 := st) in Hstep
    end.
    destruct (IH grants p1
                (issued_by_refresh held r (now (world (manager p)) + d + d')))
      as (p' & Hg & Hsent & Htok & Hge & Hte').
    + reflexivity.
    + simpl. unfold Js.or_else.
      destruct (Js.truthy (TokenResponse.refresh_token r)) eqn:Hx; [exact Hx|].
      by rewrite Hrt.
    + simpl. lia.
    + cbn [manager p1]. by apply (storable_TOKEN_FILE_saved (manager p)).
    + reflexivity.
    + exact Hall.
    + reflexivity.
    + exact Hgr.
    + simpl in Hlen. lia.
    + exists p'. split.
      * intros [|fuel] Hfuel; [simpl in Hfuel; lia|].
        rewrite Hstep. apply Hg. simpl in Hfuel. lia.
      * simpl in *. split; [lia|]. split; [lia|]. by split.
Qed.

(** X27.  When the update of the draft fails, [createReplyEmail] reports a
    failure although the draft has been made.  A token set is held and not
    within the buffer; the Graph API replies to the first request with the
    draft and fails the second; the message id and the id of the draft can
    be made strings.  Then both requests have been sent, the
    first to [createReply] (or [createReplyAll] when [replyAll] is truthy),
    the second a PATCH of the draft; the result is a failure without
    [data], so the id of the draft that now exists does not reach the
    caller. *)
Theorem createReplyEmail_update_failure_hides_the_draft
    (messageId body replyAll : option json) (p : Process) (held : TokenSet.t)
    (delay : Z) (draftMessage : json) (delay' : Z) (e : ToolError.t)
    (rest : list (Z * graph_reply)) :
  truthy_value messageId && truthy_value body = true ->
  can_be_text messageId = true ->
  tokens (self (manager p)) = Some held ->
  now (world (manager p)) < TokenSet.expires_at held - CONFIG.TOKEN_EXPIRY_BUFFER ->
  graph_endpoint p = (delay, Replied draftMessage) :: (delay', Failed e) :: rest ->
  draftMessage <> JNull ->
  can_be_text (id_of draftMessage) = true ->
  exists result p',
    EmailTools.createReplyEmail messageId body replyAll p = (Returned result, p') /\
    ToolResult.success result = false /\
    ToolResult.data result = None /\
    graph_endpoint p' = rest /\
    graph_sent p'
    = update_draft_request draftMessage body (TokenSet.access_token held)
        :: create_reply_request messageId replyAll (TokenSet.access_token held)
        :: graph_sent p.
Proof.
  intros Hargs Htext Ht Hfresh He Hnull Htext'.
  assert (property draftMessage "id" = ret (id_of draftMessage)) as Hid.
  { by destruct draftMessage. }
  unfold EmailTools.createReplyEmail, Tool.try_catch. unfold Tool.bind at 1.
  rewrite Hargs. cbn [Tool.ret]. unfold Tool.bind at 1.
  rewrite (await_returns _ _ _ _ (getValidAccessToken_fresh _ _ Ht Hfresh)).
  unfold Tool.bind at 1. rewrite (template_returns _ _ Htext).
  unfold Tool.bind at 1.
  rewrite (axios_replied _ (with_manager (manager p) p) _ _ _ He).
  unfold Tool.bind at 1. rewrite Hid. unfold await at 1, ret.
  unfold Tool.bind at 1. rewrite (template_returns _ _ Htext').
  unfold Tool.bind at 1.
  erewrite axios_failed by reflexivity.
  cbn [graph_received with_manager manager graph_endpoint graph_sent].
  unfold await. cbn [manager].
  match goal with
  | |- context [EmailTools.handleError ?op ?er ?st] =>
      destruct (handleError_returns op er st) as (result & s' & Hh);
      pose proof (handleError_spec op er st) as Hspec
  end.
  rewrite Hh in *.
  exists result. eexists. split; [reflexivity|].
  assert (ToolResult.success result = false /\ ToolResult.data result = None) as [Hs Hd].
  { destruct (bool_decide _) in Hspec.
    - destruct (refreshAccessToken _) as [[[]|e'] s1] in Hspec;
        injection Hspec as -> _; by split.
    - injection Hspec as -> _; by split. }
  split; [exact Hs|]. split; [exact Hd|]. split; [reflexivity|].
  cbn [with_manager graph_sent].
  destruct replyAll as [v|]; reflexivity.
Qed.

(** The device flow that [getValidAccessToken] starts when no token set is
    held. *)
Lemma getValidAccessToken_instructions s delay r rest :
  tokens (self s) = None ->
  device_endpoint (world s) = (delay, Resolve r) :: rest ->
  storable s CONFIG.DEVICE_FILE ->
  exists s',
    getValidAccessToken s
    = (Throw (Error (stringify_authInstructions (instructions_of r))), s') /\
    detached (world s') = BackgroundPoll :: detached (world s) /\
    deviceCode (self s') = Some (device_of r).
Proof.
  intros Ht He Hst. destruct (proj1 Hst) as [key Hk]. eexists. split.
  - apply (getValidAccessToken_no_tokens _ _ _ Ht).
    erewrite authenticate_resolved; [| exact He |].
    2:{ apply saveEncryptedData_ok; [exact Hk | exact Hst]. }
    reflexivity.
  - by split.
Qed.

(** X28.  A tool that needs a token and finds none hands the instructions
    on as text.  No token set is held, the device-code endpoint replies with
    a device code and the device file can be written.  Then [getEmail] and
    [getMyProfile] return an ordinary failure ("Failed to get email",
    "Failed to retrieve profile information") that is not marked
    [authentication_required]; its [details] are the instructions as the
    JSON text that [authenticate] threw.  The poll has been started, the
    device code is held, and nothing has been sent to the Graph API. *)
Theorem tools_without_token_report_instructions_as_details
    (messageId : option json) (fuel : nat) (p : Process)
    (delay : Z) (r : DeviceCodeResponse.t)
    (rest : list (Z * reply DeviceCodeResponse.t)) :
  truthy_value messageId = true ->
  tokens (self (manager p)) = None ->
  device_endpoint (world (manager p)) = (delay, Resolve r) :: rest ->
  storable (manager p) CONFIG.DEVICE_FILE ->
  (exists p',
      EmailTools.getEmail messageId p
      = (Returned (failure "Failed to get email"
                     (stringify_authInstructions (instructions_of r))), p') /\
      graph_sent p' = graph_sent p /\
      detached (world (manager p')) = BackgroundPoll :: detached (world (manager p)) /\
      deviceCode (self (manager p')) = Some (device_of r)) /\
  (exists p',
      ProfileTools.getMyProfile fuel p
      = (Returned (failure "Failed to retrieve profile information"
                     (stringify_authInstructions (instructions_of r))), p') /\
      graph_sent p' = graph_sent p /\
      detached (world (manager p')) = BackgroundPoll :: detached (world (manager p)) /\
      deviceCode (self (manager p')) = Some (device_of r)).
Proof.
  intros Hid Ht He Hst.
  destruct (getValidAccessToken_instructions _ _ _ _ Ht He Hst) as (s' & Hg & Hdet & Hdev).
  split.
  - unfold EmailTools.getEmail, Tool.try_catch. unfold Tool.bind at 1.
    rewrite Hid. cbn [Tool.ret]. unfold Tool.bind at 1.
    rewrite (await_throws _ _ _ _ Hg).
    erewrite await_returns by (by apply handleError_other).
    eexists. split; [reflexivity|]. by repeat split.
  - destruct fuel; cbn [ProfileTools.getMyProfile];
      unfold Tool.try_catch at 1; unfold Tool.bind at 1;
      rewrite (await_throws _ _ _ _ Hg);
      unfold Tool.bind at 1; unfold await at 1, console_error, modify;
      (eexists; split; [reflexivity|]; by repeat split).
Qed.



End GraphToolsProperties.

(* ===================================================================== *)
(** * The further properties on sample states *)
(* ===================================================================== *)

Section Instances.

#[local] Existing Instance Sample.crypto.
#[local] Existing Instance Sample.json_blob.
#[local] Existing Instance Sample.json_tokens.
#[local] Existing Instance Sample.json_device.
#[local] Existing Instance Examples.json_value.

(** On a first run the first call derives the key of the machine and keeps
    it. *)
Lemma getMachineKey_derives_key_once_witness :
  _machineKey (encryptionManager
                 (self (cache (pbkdf2Sync "machine-0001") Sample.first_run)))
  = Some (pbkdf2Sync "machine-0001") /\
  world (cache (pbkdf2Sync "machine-0001") Sample.first_run) = world Sample.first_run.
Proof.
  destruct (proj1 (getMachineKey_derives_key_once Sample.first_run)
              (pbkdf2Sync "machine-0001")
              (cache (pbkdf2Sync "machine-0001") Sample.first_run) eq_refl)
    as (Hkept & Hworld & _).
  exact (conj Hkept Hworld).
Defined.


(** On a machine whose identity cannot be read, saving the token set held
    throws, and the token set is on standard error in clear. *)
Lemma encrypt_failure_writes_plaintext_witness :
  exists m,
    encrypt Sample.held_tokens Examples.unidentified
    = (Throw (Error ("Encryption failed: " +:+ m)),
       logged [Stderr ("[ENCRYPTION ERROR] Data: " +:+ stringify Sample.held_tokens);
               Stderr ("[ENCRYPTION ERROR] Failed to encrypt data: " +:+ m)]
         Examples.unidentified) /\
    saveEncryptedData CONFIG.TOKEN_FILE Sample.held_tokens Examples.unidentified
    = (Throw (Error ("Failed to save encrypted data: Encryption failed: " +:+ m)),
       logged [Stderr ("[SAVE ERROR] Failed to save encrypted data to " +:+ CONFIG.TOKEN_FILE
                       +:+ ": Encryption failed: " +:+ m);
               Stderr ("[ENCRYPTION ERROR] Data: " +:+ stringify Sample.held_tokens);
               Stderr ("[ENCRYPTION ERROR] Failed to encrypt data: " +:+ m)]
         Examples.unidentified) /\
    files (world (saveEncryptedData CONFIG.TOKEN_FILE Sample.held_tokens
                    Examples.unidentified).2)
    = files (world Examples.unidentified).
Proof.
  apply (encrypt_failure_writes_plaintext Examples.unidentified CONFIG.TOKEN_FILE
           Sample.held_tokens).
  reflexivity.
Defined.

Lemma storable_started_TOKEN_FILE : storable Sample.started CONFIG.TOKEN_FILE.
Proof.
  split; [by eexists|]. split; [reflexivity|]. split; [reflexivity|].
  vm_compute. discriminate.
Qed.

(** A token set saved once the manager has started is read back. *)
Lemma loadEncryptedData_reads_what_was_saved_witness :
  exists s1,
    saveEncryptedData CONFIG.TOKEN_FILE Sample.held_tokens Sample.started = (Return tt, s1) /\
    loadEncryptedData CONFIG.TOKEN_FILE s1 = (Return (Some Sample.held_tokens), s1).
Proof.
  apply (loadEncryptedData_reads_what_was_saved Sample.started CONFIG.TOKEN_FILE
           Sample.held_tokens SampleFacts.crypto_correct SampleLaws.json_blob_correct
           (SampleLaws.json_tokens_correct Sample.held_tokens)
           storable_started_TOKEN_FILE).
Defined.

(** Saving the token set leaves the device file and the requests sent as
    they were; on a full disk the save fails and leaves the token file
    empty. *)
Lemma storage_touches_only_its_file_witness :
  (files (world (saveEncryptedData CONFIG.TOKEN_FILE Sample.held_tokens Sample.awaiting).2)
     !! CONFIG.DEVICE_FILE
   = files (world Sample.awaiting) !! CONFIG.DEVICE_FILE /\
   sent (world (saveEncryptedData CONFIG.TOKEN_FILE Sample.held_tokens Sample.awaiting).2)
   = sent (world Sample.awaiting)) /\
  exists s',
    saveEncryptedData CONFIG.TOKEN_FILE Sample.held_tokens
      (Examples.disk_full CONFIG.TOKEN_FILE Sample.started)
    = (Throw (Error ("Failed to save encrypted data: " +:+ message Examples.ENOSPC)), s') /\
    files (world s')
    = <[CONFIG.TOKEN_FILE := File EmptyString]>
        (files (world (Examples.disk_full CONFIG.TOKEN_FILE Sample.started))).
Proof.
  split.
  - destruct (proj1 (storage_touches_only_its_file Sample.awaiting CONFIG.TOKEN_FILE
                       Sample.held_tokens)
                (saveEncryptedData CONFIG.TOKEN_FILE Sample.held_tokens Sample.awaiting).1
                (saveEncryptedData CONFIG.TOKEN_FILE Sample.held_tokens Sample.awaiting).2)
      as (Hfiles & _ & _ & _ & Hsent & _).
    + apply surjective_pairing.
    + split; [|exact Hsent]. apply Hfiles. discriminate.
  - eapply (proj1 (proj2 (storage_touches_only_its_file
                            (Examples.disk_full CONFIG.TOKEN_FILE Sample.started)
                            CONFIG.TOKEN_FILE Sample.held_tokens))
              _ Examples.ENOSPC EmptyString).
    + reflexivity.
    + reflexivity.
    + reflexivity.
    + reflexivity.
    + vm_compute. discriminate.
Defined.

(** The identity of the sample machine is recognized, another one is
    not. *)
Lemma validateMachineId_reads_identity_anew_witness :
  (exists b,
      validateMachineId "machine-0001" Sample.first_run = (Return b, Sample.first_run) /\
      (b = true <-> "machine-0001" = "machine-0001")) /\
  exists m,
    validateMachineId "machine-0001" Examples.unidentified
    = (Throw (Error ("Machine ID validation failed: " +:+ m)), Examples.unidentified).
Proof.
  split.
  - apply (proj1 (validateMachineId_reads_identity_anew Sample.first_run "machine-0001")
             "machine-0001").
    reflexivity.
  - apply (proj2 (validateMachineId_reads_identity_anew Examples.unidentified
                    "machine-0001")).
    reflexivity.
Defined.

(** A token set without refresh token has expired: three calls later the
    error is the same and nothing has been sent. *)
Lemma getValidAccessToken_stuck_without_refresh_token_witness :
  refreshAccessToken Examples.unrefreshable
  = (Throw (Error "No refresh token available. Please re-authenticate."),
     Examples.unrefreshable) /\
  (getValidAccessToken (after_calls 3 Examples.unrefreshable)).1
  = Throw (Error "No refresh token available. Please re-authenticate.") /\
  tokens (self (after_calls 3 Examples.unrefreshable)) = Some Examples.bare_tokens /\
  sent (world (after_calls 3 Examples.unrefreshable)) = sent (world Examples.unrefreshable) /\
  detached (world (after_calls 3 Examples.unrefreshable))
  = detached (world Examples.unrefreshable) /\
  files (world (after_calls 3 Examples.unrefreshable))
  = files (world Examples.unrefreshable).
Proof.
  apply (getValidAccessToken_stuck_without_refresh_token Examples.unrefreshable
           Examples.bare_tokens 3); [reflexivity|reflexivity|].
  vm_compute. discriminate.
Defined.

(** The refresh of [Sample.refreshing] returns: the grant carries no refresh
    token and the one held before is kept. *)
Lemma refreshAccessToken_keeps_a_refresh_token_witness :
  exists held held' r delay rest,
    tokens (self Sample.refreshing) = Some held /\
    token_endpoint (world Sample.refreshing) = (delay, Resolve r) :: rest /\
    tokens (self (refreshAccessToken Sample.refreshing).2) = Some held' /\
    Js.truthy (TokenSet.refresh_token held') = true /\
    TokenSet.refresh_token held'
    = (if Js.truthy (TokenResponse.refresh_token r)
       then TokenResponse.refresh_token r
       else TokenSet.refresh_token held).
Proof.
  apply (refreshAccessToken_keeps_a_refresh_token Sample.refreshing
           (refreshAccessToken Sample.refreshing).2).
  vm_compute. reflexivity.
Defined.

Lemma not_storable_barred s :
  ~ storable (Examples.barred CONFIG.TOKEN_FILE s) CONFIG.TOKEN_FILE.
Proof.
  intros (_ & Hw & _). simpl in Hw. by rewrite lookup_insert_eq in Hw.
Qed.

(** The refresh is granted and cannot be saved: no token set is held any
    more. *)
Lemma refreshAccessToken_unsaved_grant_is_lost_witness :
  (refreshAccessToken Examples.refreshing_unsaved).1 = Throw refresh_failed /\
  tokens (self (refreshAccessToken Examples.refreshing_unsaved).2) = None /\
  files (world (refreshAccessToken Examples.refreshing_unsaved).2)
  = files (world Examples.refreshing_unsaved) /\
  sent (world (refreshAccessToken Examples.refreshing_unsaved).2)
  = PostToken (RefreshTokenGrant "refresh-2") :: sent (world Examples.refreshing_unsaved) /\
  token_endpoint (world (refreshAccessToken Examples.refreshing_unsaved).2) = [].
Proof.
  destruct (refreshAccessToken_unsaved_grant_is_lost Examples.refreshing_unsaved
              (issued_by_poll Sample.token_reply 1000500) "refresh-2" 150
              Sample.refresh_reply [])
    as (Hthrown & Hnone & _ & _ & Hfiles & Hsent & Hrest);
    [reflexivity | reflexivity | reflexivity | reflexivity | apply not_storable_barred |].
  split; [exact Hthrown|]. split; [exact Hnone|].
  split; [apply Hfiles; reflexivity|]. split; [exact Hsent|exact Hrest].
Defined.

(** The poll of [Sample.granted] sends one request. *)
Lemma pollForToken_sends_at_most_180_requests_witness :
  exists k,
    (k <= CONFIG.MAX_POLL_ATTEMPTS)%nat /\
    sent (world (pollForToken Sample.granted).2)
    = poll_requests k Sample.granted ++ sent (world Sample.granted) /\
    token_endpoint (world (pollForToken Sample.granted).2)
    = drop k (token_endpoint (world Sample.granted)).
Proof.
  exact (proj1 (proj2 (pollForToken_sends_at_most_180_requests Sample.granted))).
Defined.

Lemma patient_replies :
  token_endpoint (world Examples.patient)
  = replicate 180 (100, Reject (Sample.refused "authorization_pending")).
Proof. reflexivity. Qed.

(** The user never authorizes: the poll times out 918 seconds later, the 180
    replies having taken 100 ms each. *)
Lemma pollForToken_timeout_after_fifteen_minutes_witness :
  (pollForToken Examples.patient).1 = Throw timeout /\
  now (world (pollForToken Examples.patient).2)
  = now (world Examples.patient) + 900000
    + total_delay (take CONFIG.MAX_POLL_ATTEMPTS (token_endpoint (world Examples.patient))) /\
  tokens (self (pollForToken Examples.patient).2) = tokens (self Examples.patient) /\
  files (world (pollForToken Examples.patient).2) = files (world Examples.patient).
Proof.
  apply (pollForToken_timeout_after_fifteen_minutes Examples.patient Sample.held_device).
  - reflexivity.
  - rewrite patient_replies, length_replicate. reflexivity.
  - rewrite patient_replies. apply Forall_take, Forall_replicate. reflexivity.
Defined.

(** The grant cannot be saved: the poll throws and the token set is held. *)
Lemma pollForToken_unsaved_grant_is_held_witness :
  (exists m,
      (pollForToken Examples.granted_unsaved).1
      = Throw (Error ("Token polling failed: Failed to save encrypted data: " +:+ m))) /\
  tokens (self (pollForToken Examples.granted_unsaved).2)
  = Some (issued_by_poll Sample.token_reply (now (world Examples.granted_unsaved) + 300)) /\
  files (world (pollForToken Examples.granted_unsaved).2)
  = files (world Examples.granted_unsaved) /\
  (TokenResponse.expires_in Sample.token_reply * 1000 > CONFIG.TOKEN_EXPIRY_BUFFER ->
   getValidAccessToken (pollForToken Examples.granted_unsaved).2
   = (Return (TokenResponse.access_token Sample.token_reply),
      (pollForToken Examples.granted_unsaved).2)).
Proof.
  destruct (pollForToken_unsaved_grant_is_held Examples.granted_unsaved Sample.held_device
              300 Sample.token_reply [])
    as (Hthrown & Hheld & _ & _ & Hfiles & Hnext);
    [reflexivity | reflexivity | apply not_storable_barred |].
  split; [exact Hthrown|]. split; [exact Hheld|].
  split; [apply Hfiles; reflexivity|exact Hnext].
Defined.

(** A refresh for one hour is served again; a refresh for two minutes is
    refreshed again at the next call. *)
Lemma refreshed_token_is_cached_iff_long_lived_witness :
  (exists delay r rest held',
      token_endpoint (world Sample.refreshing) = (delay, Resolve r) :: rest /\
      tokens (self (getValidAccessToken Sample.refreshing).2) = Some held' /\
      TokenSet.access_token held' = "access-3" /\
      (TokenResponse.expires_in r > 300 ->
       getValidAccessToken (getValidAccessToken Sample.refreshing).2
       = (Return "access-3", (getValidAccessToken Sample.refreshing).2)) /\
      (TokenResponse.expires_in r <= 300 ->
       exists rt,
         TokenSet.refresh_token held' = Some rt /\
         sent (world (getValidAccessToken (getValidAccessToken Sample.refreshing).2).2)
         = PostToken (RefreshTokenGrant rt)
           :: sent (world (getValidAccessToken Sample.refreshing).2))) /\
  exists delay r rest held',
    token_endpoint (world Examples.refreshing_briefly) = (delay, Resolve r) :: rest /\
    tokens (self (getValidAccessToken Examples.refreshing_briefly).2) = Some held' /\
    TokenSet.access_token held' = "access-4" /\
    (TokenResponse.expires_in r > 300 ->
     getValidAccessToken (getValidAccessToken Examples.refreshing_briefly).2
     = (Return "access-4", (getValidAccessToken Examples.refreshing_briefly).2)) /\
    (TokenResponse.expires_in r <= 300 ->
     exists rt,
       TokenSet.refresh_token held' = Some rt /\
       sent (world (getValidAccessToken
                      (getValidAccessToken Examples.refreshing_briefly).2).2)
       = PostToken (RefreshTokenGrant rt)
         :: sent (world (getValidAccessToken Examples.refreshing_briefly).2)).
Proof.
  split.
  - apply (refreshed_token_is_cached_iff_long_lived Sample.refreshing
             (issued_by_poll Sample.token_reply 1000500) "access-3"
             (getValidAccessToken Sample.refreshing).2);
      [reflexivity | vm_compute; discriminate | vm_compute; reflexivity].
  - apply (refreshed_token_is_cached_iff_long_lived Examples.refreshing_briefly
             (issued_by_poll Sample.token_reply 1000500) "access-4"
             (getValidAccessToken Examples.refreshing_briefly).2);
      [reflexivity | vm_compute; discriminate | vm_compute; reflexivity].
Defined.

(** Initializing once more after the first run changes nothing. *)
Lemma initialize_twice_witness :
  exists s2,
    initialize Sample.started = (Return tt, s2) /\
    tokens (self s2) = tokens (self Sample.started) /\
    deviceCode (self s2) = deviceCode (self Sample.started) /\
    files (world s2) = files (world Sample.started).
Proof.
  apply (initialize_twice Sample.first_run Sample.started).
  vm_compute. reflexivity.
Defined.

(** The token set of [Sample.signed_in] is held again after a restart. *)
Lemma tokens_survive_restart_witness :
  exists t s2,
    tokens (self Sample.signed_in) = Some t /\
    initialize (new_process Sample.signed_in) = (Return tt, s2) /\
    tokens (self s2) = Some t.
Proof.
  apply (tokens_survive_restart Sample.granted Sample.signed_in
           SampleFacts.crypto_correct SampleLaws.json_blob_correct
           SampleLaws.json_tokens_correct);
    [reflexivity | reflexivity | vm_compute; reflexivity].
Defined.

Lemma storable_first_contact_DEVICE_FILE :
  storable Sample.first_contact CONFIG.DEVICE_FILE.
Proof.
  split; [by eexists|]. split; [reflexivity|]. split; [reflexivity|].
  vm_compute. discriminate.
Qed.

(** The device authorization of a first contact is held again after a
    restart, and no poll is. *)
Lemma device_authorization_survives_restart_witness :
  exists s2,
    deviceCode (self (getValidAccessToken Sample.first_contact).2)
    = Some (device_of Sample.device_reply) /\
    initialize (new_process (getValidAccessToken Sample.first_contact).2) = (Return tt, s2) /\
    deviceCode (self s2) = Some (device_of Sample.device_reply) /\
    detached (world s2) = [].
Proof.
  apply (device_authorization_survives_restart Sample.first_contact 200
           Sample.device_reply [] SampleFacts.crypto_correct SampleLaws.json_blob_correct
           SampleLaws.json_device_correct);
    [reflexivity | reflexivity | reflexivity | reflexivity
    | exact storable_first_contact_DEVICE_FILE].
Defined.

Lemma storable_whole_flow path :
  path = CONFIG.DEVICE_FILE \/ path = CONFIG.TOKEN_FILE ->
  storable Examples.whole_flow path.
Proof.
  intros [->| ->]; (split; [by eexists|]); (split; [reflexivity|]);
    (split; [reflexivity|]); vm_compute; discriminate.
Qed.

(** The whole device flow on [Examples.whole_flow]: instructions, one
    "authorization_pending", the grant, and then the access token. *)
Lemma device_flow_ends_with_the_granted_token_witness :
  exists s1 s2,
    getValidAccessToken Examples.whole_flow
    = (Throw (Error (stringify_authInstructions (instructions_of Sample.device_reply))),
       s1) /\
    detached (world s1) = BackgroundPoll :: detached (world Examples.whole_flow) /\
    run BackgroundPoll s1 = (Return tt, s2) /\
    getValidAccessToken s2
    = (Return (TokenResponse.access_token Sample.token_reply), s2) /\
    token_endpoint (world s2) = [].
Proof.
  apply (device_flow_ends_with_the_granted_token Examples.whole_flow 200
           Sample.device_reply []
           [(100, Reject (Sample.refused "authorization_pending"))] 300
           Sample.token_reply []).
  - reflexivity.
  - reflexivity.
  - reflexivity.
  - apply Forall_cons. split; [reflexivity|apply Forall_nil_2].
  - unfold CONFIG.MAX_POLL_ATTEMPTS. simpl. lia.
  - vm_compute. reflexivity.
  - apply storable_whole_flow. by left.
  - apply storable_whole_flow. by right.
Defined.

(** A 404 only writes a line; a 401 on an expired session whose refresh is
    granted is marked retryable. *)
Lemma handleError_retryable_iff_refreshed_witness :
  exists result s',
    EmailTools.handleError "get email" Examples.unauthorized Sample.refreshing
    = (Return result, s') /\
    ToolResult.success result = false /\
    ToolResult.retryable result = Some true.
Proof.
  destruct (handleError_retryable_iff_refreshed "get email" Examples.unauthorized
              Sample.refreshing)
    as (result & s' & Hh & Hsucc & _ & Hretry & _).
  exists result, s'. split; [exact Hh|]. split; [exact Hsucc|].
  apply Hretry. split; [reflexivity|]. vm_compute. reflexivity.
Defined.

(** Checking the status on a first contact starts the device flow and the
    background poll. *)
Lemma checkAuthStatus_is_getValidAccessToken_witness :
  exists result,
    ProfileTools.checkAuthStatus Sample.first_contact
    = (Return result, (getValidAccessToken Sample.first_contact).2) /\
    ToolResult.success result = false /\
    flow_started Sample.first_contact (getValidAccessToken Sample.first_contact).2 /\
    detached (world (getValidAccessToken Sample.first_contact).2)
    = BackgroundPoll :: detached (world Sample.first_contact).
Proof.
  destruct (checkAuthStatus_is_getValidAccessToken Sample.first_contact)
    as (result & Hc & _ & _ & Hnone).
  destruct (Hnone eq_refl) as (Hsucc & Hflow & Hpoll).
  exists result. split; [exact Hc|]. split; [exact Hsucc|]. split; [exact Hflow|].
  apply Hpoll. exists 200, Sample.device_reply, [].
  split; [reflexivity|exact storable_first_contact_DEVICE_FILE].
Defined.

(** With a valid token set held ([Sample.signed_in]) the tool still asks
    for a new device code. *)
Lemma ProfileTools_authenticate_never_succeeds_witness :
  exists result s',
    ProfileTools.authenticate Sample.signed_in = (Return result, s') /\
    ToolResult.success result = false /\
    flow_started Sample.signed_in s' /\
    tokens (self s') = tokens (self Sample.signed_in).
Proof.
  destruct (ProfileTools_authenticate_never_succeeds Sample.signed_in)
    as (result & s' & Ha & Hsucc & Hflow & _ & Ht).
  by exists result, s'.
Defined.

(** On a first contact the tool returns the instructions as they were
    sent: the message, and the verification URI, the user code and the
    lifetime. *)
Lemma tools_return_the_instructions_witness :
  exists result s',
    ProfileTools.authenticate Sample.first_contact = (Return result, s') /\
    ToolResult.success result = false /\
    ToolResult.authentication_required result = Some true /\
    ToolResult.message result = Some (JString "Microsoft Graph authentication required") /\
    ToolResult.instructions result
    = Some (JObject [("verification_uri", JString "https://microsoft.com/devicelogin");
                     ("user_code", JString "ABCD-EFGH");
                     ("expires_in", JNumber 900)]) /\
    detached (world s') = BackgroundPoll :: detached (world Sample.first_contact).
Proof.
  apply (proj1 (tools_return_the_instructions (json_value:=Examples.json_value)
                  Sample.first_contact 200 Sample.device_reply []
                  (JObject
                     [("type", JString "authentication_required");
                      ("message", JString "Microsoft Graph authentication required");
                      ("instructions",
                       JObject
                         [("verification_uri", JString "https://microsoft.com/devicelogin");
                          ("user_code", JString "ABCD-EFGH");
                          ("expires_in", JNumber 900)])])
                  eq_refl storable_first_contact_DEVICE_FILE
                  ltac:(vm_compute; reflexivity) ltac:(discriminate))).
Defined.

(** A file named [server.key] is reported by its extension and not by the
    pattern ["*.key"]. *)
Lemma checkFile_wildcards_add_nothing_witness :
  SecurityCheck.checkFile "server.key" "certs/server.key"
    {| SecurityCheck.output := []; SecurityCheck.foundSensitiveFiles := false |}
  = fold_left (SecurityCheck.checkExtension "server.key" "certs/server.key")
      SecurityCheck.sensitiveExtensions
      (fold_left (SecurityCheck.checkPattern "server.key" "certs/server.key")
         Verdict.plainPatterns
         {| SecurityCheck.output := []; SecurityCheck.foundSensitiveFiles := false |}).
Proof.
  apply (proj2 (checkFile_wildcards_add_nothing "server.key" "certs/server.key"
                  {| SecurityCheck.output := [];
                     SecurityCheck.foundSensitiveFiles := false |})).
  reflexivity.
Defined.

(** The tidy repository passes although a key lies under [node_modules]. *)
Lemma main_exit_status_witness :
  head (SecurityCheck.output
          (SecurityCheck.main SecurityCheck.posix (inr Examples.tidy)).1)
  = Some (Stdout "✅ Your repository is safe to commit and share.").
Proof.
  apply (proj1 (proj2 (main_exit_status SecurityCheck.posix Examples.tidy))).
  reflexivity.
Defined.

(** A repository that holds [config/config.js] does not pass on POSIX and
    passes on Windows, where the path of the file is [config\config.js]. *)
Lemma main_misses_config_on_win32 :
  (SecurityCheck.main SecurityCheck.posix (inr Examples.configured)).2 = 1 /\
  (SecurityCheck.main SecurityCheck.win32 (inr Examples.configured)).2 = 0.
Proof. vm_compute. auto. Qed.

#[local] Existing Instance Examples.http.


(** The Graph API rejects the token and the refresh is refused: one
    request, and a failure that is not marked [retryable]. *)
Lemma getEmail_does_not_fetch_again_witness :
  exists result refreshed,
    refreshAccessToken
      (logged [email_failure_line "get email" Examples.unauthorized]
         (on_world (fun w => with_now (now w + 120) w) (manager Examples.rejected)))
    = refreshed /\
    EmailTools.getEmail (Some (JString "message-1")) Examples.rejected
    = (Returned result,
       {| manager := refreshed.2;
          graph_endpoint := [];
          graph_sent :=
            get_email_request (Some (JString "message-1"))
              (TokenSet.access_token Sample.held_tokens)
              :: graph_sent Examples.rejected |}) /\
    ToolResult.success result = false /\
    ToolResult.data result = None /\
    (ToolResult.retryable result = Some true <-> refreshed.1 = Return tt).
Proof.
  apply (getEmail_does_not_fetch_again (Some (JString "message-1")) Examples.rejected
           Sample.held_tokens 120 Examples.unauthorized []);
    [reflexivity | reflexivity | reflexivity | vm_compute; reflexivity | reflexivity
    | reflexivity].
Defined.

Lemma storable_holding_tokens_TOKEN_FILE replies :
  storable (Sample.with_replies [] replies Sample.holding_tokens) CONFIG.TOKEN_FILE.
Proof.
  split; [by eexists|]. split; [reflexivity|]. split; [reflexivity|].
  vm_compute. discriminate.
Qed.

(** Two 401 and two refreshes: three requests to the Graph API, and the
    profile is returned. *)
Lemma getMyProfile_retries_after_every_refresh_witness :
  exists p',
    (forall fuel, (2 <= fuel)%nat ->
                  ProfileTools.getMyProfile fuel Examples.rejected_twice
                  = (Returned (succeeded Examples.profile), p')) /\
    length (graph_sent p') = 3%nat /\
    length (sent (world (manager p')))
    = (2 + length (sent (world (manager Examples.rejected_twice))))%nat /\
    graph_endpoint p' = [] /\
    token_endpoint (world (manager p')) = [].
Proof.
  apply (getMyProfile_retries_after_every_refresh
           [(120, Failed Examples.unauthorized); (120, Failed Examples.unauthorized)]
           [(150, Resolve Sample.token_reply); (150, Resolve Sample.refresh_reply)]
           Examples.rejected_twice Sample.held_tokens Examples.profile 80 [] []);
    [reflexivity | reflexivity | vm_compute; reflexivity
    | apply storable_holding_tokens_TOKEN_FILE | reflexivity
    | repeat constructor | reflexivity | repeat constructor | reflexivity].
Defined.

(** The draft is made and then not found: two requests, a failure, no
    draft id. *)
Lemma createReplyEmail_update_failure_hides_the_draft_witness :
  exists result p',
    EmailTools.createReplyEmail (Some (JString "message-1")) (Some (JString "Thanks!")) None
      Examples.draft_lost
    = (Returned result, p') /\
    ToolResult.success result = false /\
    ToolResult.data result = None /\
    graph_endpoint p' = [] /\
    graph_sent p'
    = [update_draft_request Examples.draft (Some (JString "Thanks!")) "access-1";
       create_reply_request (Some (JString "message-1")) None "access-1"].
Proof.
  apply (createReplyEmail_update_failure_hides_the_draft
           (Some (JString "message-1")) (Some (JString "Thanks!")) None
           Examples.draft_lost Sample.held_tokens 90 Examples.draft 70 Examples.not_found []);
    [reflexivity | reflexivity | reflexivity | vm_compute; reflexivity | reflexivity
    | discriminate | reflexivity].
Defined.

(** On a first contact [getEmail] and [getMyProfile] fail with the
    instructions as their details. *)
Lemma tools_without_token_report_instructions_as_details_witness :
  (exists p',
      EmailTools.getEmail (Some (JString "message-1")) Examples.newcomer
      = (Returned (failure "Failed to get email"
                     (stringify_authInstructions (instructions_of Sample.device_reply))),
         p') /\
      graph_sent p' = graph_sent Examples.newcomer /\
      detached (world (manager p'))
      = BackgroundPoll :: detached (world (manager Examples.newcomer)) /\
      deviceCode (self (manager p')) = Some (device_of Sample.device_reply)) /\
  (exists p',
      ProfileTools.getMyProfile 1 Examples.newcomer
      = (Returned (failure "Failed to retrieve profile information"
                     (stringify_authInstructions (instructions_of Sample.device_reply))),
         p') /\
      graph_sent p' = graph_sent Examples.newcomer /\
      detached (world (manager p'))
      = BackgroundPoll :: detached (world (manager Examples.newcomer)) /\
      deviceCode (self (manager p')) = Some (device_of Sample.device_reply)).
Proof.
  apply (tools_without_token_report_instructions_as_details
           (Some (JString "message-1")) 1 Examples.newcomer 200 Sample.device_reply []);
    [reflexivity | reflexivity | reflexivity | exact storable_first_contact_DEVICE_FILE].
Defined.

End Instances.
